(* ===================================================================== *)
(* freshrelease_mcp: a shallow embedding of src/freshrelease_mcp/server.py *)
(* ===================================================================== *)
(* Conventions of the embedding.
   - Python str values are Stdlib strings; the character-level functions
     (strip, lower, repr, int, the two regular expressions) are given on
     code points below 128.
   - JSON values are the inductive [json]; JSON numbers are integers.
   - The dict built by parse_link_header and the parent-to-children dict
     of the section resolver are [gmap]s; a JSON object, and a request
     body that is built key by key, is the list of its items in insertion
     order, read with [Py.lookup_item] and written with [Py.set_item].
   - Exceptions are values of [exn]; code that can raise returns [result].
   - The remote API is a function from the requests issued so far and the
     current request to a response; code that talks to it lives in the
     monad [io], whose state is the log of the requests issued. An early
     `return` inside a block of a tool is the left injection of a sum. *)

From Stdlib Require Import ZArith Ascii String List Bool Lia.
From stdpp Require Import gmap strings list fin_maps pretty.

Open Scope Z_scope.
Open Scope string_scope.
Open Scope list_scope.

(* --------------------------------------------------------------------- *)
(* Python strings                                                         *)
(* --------------------------------------------------------------------- *)

Module PyStr.

Definition code (c : ascii) : N := N_of_ascii c.

(* the double quote, the single quote and the backslash *)
Definition dquote : ascii := "034"%char.
Definition squote : ascii := "039"%char.
Definition backslash : ascii := "092"%char.

(* str.isspace / the class \s, on code points below 128:
   \t \n \v \f \r, the separators 0x1c..0x1f, and the space. *)
Definition is_space (c : ascii) : bool :=
  let n := code c in
  ((9 <=? n) && (n <=? 13))%N || ((28 <=? n) && (n <=? 32))%N.

(* the class \d *)
Definition is_digit (c : ascii) : bool :=
  let n := code c in ((48 <=? n) && (n <=? 57))%N.

Definition is_newline (c : ascii) : bool := (code c =? 10)%N.

Definition lower_char (c : ascii) : ascii :=
  let n := code c in
  if ((65 <=? n) && (n <=? 90))%N then ascii_of_N (n + 32) else c.

(* s.lower() *)
Fixpoint lower (s : string) : string :=
  match s with
  | EmptyString => EmptyString
  | String c s' => String (lower_char c) (lower s')
  end.

(* s.lstrip() *)
Fixpoint lstrip (s : string) : string :=
  match s with
  | EmptyString => EmptyString
  | String c s' => if is_space c then lstrip s' else s
  end.

(* s.rstrip(): a trailing run of white space is dropped. *)
Fixpoint rstrip (s : string) : string :=
  match s with
  | EmptyString => EmptyString
  | String c s' =>
      match rstrip s' with
      | EmptyString => if is_space c then EmptyString else String c EmptyString
      | r => String c r
      end
  end.

(* s.strip() *)
Definition strip (s : string) : string := rstrip (lstrip s).

(* s.split(sep) for a one-character separator: never the empty list. *)
Fixpoint split (sep : ascii) (s : string) : list string :=
  match s with
  | EmptyString => [EmptyString]
  | String c s' =>
      if Ascii.eqb c sep then EmptyString :: split sep s'
      else match split sep s' with
           | p :: ps => String c p :: ps
           | [] => [String c EmptyString]
           end
  end.

(* bool(s) *)
Definition truthy (s : string) : bool :=
  match s with EmptyString => false | _ => true end.

Definition digit_val (c : ascii) : Z := Z.of_N (code c) - 48.

(* int(s) for a string of decimal digits *)
Definition int_of_digits (s : string) : Z :=
  fold_left (fun acc c => 10 * acc + digit_val c) (list_ascii_of_string s) 0.

End PyStr.

(* --------------------------------------------------------------------- *)
(* The two regular expressions of parse_link_header                       *)
(* --------------------------------------------------------------------- *)
(* A pattern is a sequence of atoms; matching is the backtracking search
   of Python's re: a lazy quantifier tries the shortest repetition first,
   a greedy one the longest; re.search tries every start position from
   the left and keeps the first match. *)

Module Re.

Inductive cls := Dot | Space | Digit.

Definition in_cls (k : cls) (c : ascii) : bool :=
  match k with
  | Dot => negb (PyStr.is_newline c)
  | Space => PyStr.is_space c
  | Digit => PyStr.is_digit c
  end.

Inductive atom :=
| Lit (c : ascii)            (* a literal character *)
| LazyPlusGroup (k : cls)    (* (k+?) *)
| GreedyPlusGroup (k : cls)  (* (k+) *)
| GreedyStar (k : cls).      (* k* *)

Definition lits (s : string) : list atom := map Lit (list_ascii_of_string s).

Definition snoc (acc : string) (c : ascii) : string := acc +:+ String c EmptyString.

(* (k+?) followed by the rest of the pattern [cont]: the shortest
   non-empty run of k after which the rest matches. *)
Fixpoint lazy_plus (k : cls) (cont : string -> option (list string))
  (s : string) (acc : string) : option (list string) :=
  match s with
  | EmptyString => None
  | String c s' =>
      if in_cls k c then
        match cont s' with
        | Some gs => Some (snoc acc c :: gs)
        | None => lazy_plus k cont s' (snoc acc c)
        end
      else None
  end.

(* (k+) followed by [cont]: the longest such run. *)
Fixpoint greedy_plus (k : cls) (cont : string -> option (list string))
  (s : string) (acc : string) : option (list string) :=
  match s with
  | EmptyString => None
  | String c s' =>
      if in_cls k c then
        match greedy_plus k cont s' (snoc acc c) with
        | Some gs => Some gs
        | None =>
            match cont s' with
            | Some gs => Some (snoc acc c :: gs)
            | None => None
            end
        end
      else None
  end.

(* k* followed by [cont]: the longest run, possibly empty. *)
Fixpoint greedy_star (k : cls) (cont : string -> option (list string))
  (s : string) : option (list string) :=
  match s with
  | EmptyString => cont EmptyString
  | String c s' =>
      if in_cls k c then
        match greedy_star k cont s' with
        | Some gs => Some gs
        | None => cont s
        end
      else cont s
  end.

(* match_here p s: the groups captured by the first successful way of
   matching p against a prefix of s. *)
Fixpoint match_here (p : list atom) (s : string) : option (list string) :=
  match p with
  | [] => Some []
  | Lit c :: p' =>
      match s with
      | String c' s' => if Ascii.eqb c c' then match_here p' s' else None
      | EmptyString => None
      end
  | LazyPlusGroup k :: p' => lazy_plus k (match_here p') s EmptyString
  | GreedyPlusGroup k :: p' => greedy_plus k (match_here p') s EmptyString
  | GreedyStar k :: p' => greedy_star k (match_here p') s
  end.

(* the number of capture groups of a pattern *)
Fixpoint groups (p : list atom) : nat :=
  match p with
  | [] => O
  | (LazyPlusGroup _ | GreedyPlusGroup _) :: p' => S (groups p')
  | _ :: p' => groups p'
  end.

(* re.search(p, s) *)
Fixpoint search (p : list atom) (s : string) : option (list string) :=
  match match_here p s with
  | Some gs => Some gs
  | None =>
      match s with
      | EmptyString => None
      | String _ s' => search p s'
      end
  end.

(* r'<(.+?)>;\s*rel="(.+?)"' *)
Definition link_re : list atom :=
  lits "<" ++ [LazyPlusGroup Dot] ++ lits ">;" ++ [GreedyStar Space]
  ++ lits "rel=" ++ [Lit PyStr.dquote] ++ [LazyPlusGroup Dot] ++ [Lit PyStr.dquote].

(* r'page=(\d+)' *)
Definition page_re : list atom := lits "page=" ++ [GreedyPlusGroup Digit].

End Re.

(* --------------------------------------------------------------------- *)
(* parse_link_header                                                      *)
(* --------------------------------------------------------------------- *)

(* The body of the loop `for link in links`. *)
Definition parse_link (pagination : gmap string (option Z)) (link : string)
  : gmap string (option Z) :=
  match Re.search Re.link_re link with
  | Some [url; rel] =>
      match Re.search Re.page_re url with
      | Some [digits] => <[rel := Some (PyStr.int_of_digits digits)]> pagination
      | _ => pagination
      end
  | _ => pagination
  end.

Definition parse_link_header (link_header : string) : gmap string (option Z) :=
  let pagination : gmap string (option Z) :=
    <["prev" := None]> (<["next" := None]> ∅) in
  if negb (PyStr.truthy link_header) then pagination
  else
    let links := PyStr.split ","%char link_header in
    fold_left parse_link links pagination.

(* --------------------------------------------------------------------- *)
(* JSON values, exceptions                                                *)
(* --------------------------------------------------------------------- *)

#[warnings="-register-all"]
Inductive json :=
| JNull
| JBool (b : bool)
| JInt (z : Z)
| JStr (s : string)
| JList (l : list json)
| JObj (items : list (string * json)).

(* httpx.HTTPStatusError carries its message and the response, of which
   the handlers read only `.json()`: the parsed body, or the message of
   the exception that parsing raises. Every other exception is a class
   name and a message. *)
Inductive exn :=
| HTTPStatusError (msg : string) (body : json + string)
| Other (cls : string) (msg : string).

Inductive result (A : Type) :=
| Ok (a : A)
| Raise (e : exn).
Arguments Ok {A} a.
Arguments Raise {A} e.

Definition rbind {A B} (r : result A) (k : A -> result B) : result B :=
  match r with Ok a => k a | Raise e => Raise e end.

Declare Scope result_scope.
Delimit Scope result_scope with res.
Notation "x <- m ;; k" := (rbind m (fun x => k))
  (at level 100, m at next level, right associativity) : result_scope.

Module Py.

Definition type_name (v : json) : string :=
  match v with
  | JNull => "NoneType"
  | JBool _ => "bool"
  | JInt _ => "int"
  | JStr _ => "str"
  | JList _ => "list"
  | JObj _ => "dict"
  end.

(* d.get(k) on the items of a dict *)
Fixpoint lookup_item (k : string) (items : list (string * json)) : option json :=
  match items with
  | [] => None
  | (k', v) :: rest => if String.eqb k k' then Some v else lookup_item k rest
  end.

(* v.get(k, default): only a dict has the method. *)
Definition get (v : json) (k : string) (default : json) : result json :=
  match v with
  | JObj items =>
      Ok (match lookup_item k items with Some x => x | None => default end)
  | _ => Raise (Other "AttributeError"
                 ("'" +:+ type_name v +:+ "' object has no attribute 'get'"))
  end.

(* d[k] = v on the items of a dict: an existing key keeps its place. *)
Fixpoint set_item (k : string) (v : json) (items : list (string * json))
  : list (string * json) :=
  match items with
  | [] => [(k, v)]
  | (k', v') :: rest =>
      if String.eqb k k' then (k, v) :: rest else (k', v') :: set_item k v rest
  end.

(* iter(v): the elements a for loop over v visits. *)
Definition iter (v : json) : result (list json) :=
  match v with
  | JList l => Ok l
  | JObj items => Ok (map (fun kv => JStr (fst kv)) items)
  | JStr s => Ok (map (fun c => JStr (String c EmptyString)) (list_ascii_of_string s))
  | _ => Raise (Other "TypeError" ("'" +:+ type_name v +:+ "' object is not iterable"))
  end.

(* k in d, d[k] *)
Definition has_key (k : string) (items : list (string * json)) : bool :=
  match lookup_item k items with Some _ => true | None => false end.

(* isinstance(v, int): bool is a subclass of int. *)
Definition is_int (v : json) : bool :=
  match v with JInt _ | JBool _ => true | _ => false end.

(* v is None *)
Definition is_none (v : json) : bool :=
  match v with JNull => true | _ => false end.

(* bool(v) *)
Definition truthy (v : json) : bool :=
  match v with
  | JNull => false
  | JBool b => b
  | JInt z => negb (Z.eqb z 0)
  | JStr s => PyStr.truthy s
  | JList l => match l with [] => false | _ => true end
  | JObj items => match items with [] => false | _ => true end
  end.

(* str(z), repr(z) *)
Definition str_int (z : Z) : string := pretty z.

Definition hex_digit (n : N) : ascii :=
  if (n <? 10)%N then ascii_of_N (48 + n) else ascii_of_N (87 + n).

(* repr(s) of a str: single quotes unless the string has a single quote
   and no double quote; backslash, the chosen quote and control
   characters are escaped. *)
Fixpoint has_char (c : ascii) (s : string) : bool :=
  match s with
  | EmptyString => false
  | String c' s' => Ascii.eqb c c' || has_char c s'
  end.

Definition escape_char (quote c : ascii) : string :=
  let n := PyStr.code c in
  if Ascii.eqb c PyStr.backslash then String PyStr.backslash (String PyStr.backslash EmptyString)
  else if Ascii.eqb c quote then String PyStr.backslash (String quote EmptyString)
  else if (n =? 9)%N then String PyStr.backslash "t"
  else if (n =? 10)%N then String PyStr.backslash "n"
  else if (n =? 13)%N then String PyStr.backslash "r"
  else if ((n <? 32) || (n =? 127))%N then
    String PyStr.backslash
      (String "x" (String (hex_digit (n / 16)) (String (hex_digit (n mod 16)) EmptyString)))
  else String c EmptyString.

Fixpoint escape (quote : ascii) (s : string) : string :=
  match s with
  | EmptyString => EmptyString
  | String c s' => escape_char quote c +:+ escape quote s'
  end.

Definition repr_str (s : string) : string :=
  let quote :=
    if has_char PyStr.squote s && negb (has_char PyStr.dquote s)
    then PyStr.dquote else PyStr.squote in
  String quote (escape quote s +:+ String quote EmptyString).

(* ", ".join(parts) *)
Fixpoint join (parts : list string) : string :=
  match parts with
  | [] => EmptyString
  | [p] => p
  | p :: ps => p +:+ ", " +:+ join ps
  end.

(* repr(v) *)
Fixpoint repr (v : json) : string :=
  match v with
  | JNull => "None"
  | JBool true => "True"
  | JBool false => "False"
  | JInt z => str_int z
  | JStr s => repr_str s
  | JList l => "[" +:+ join (map repr l) +:+ "]"
  | JObj items =>
      "{" +:+ join (map (fun kv => repr_str (fst kv) +:+ ": " +:+ repr (snd kv)) items) +:+ "}"
  end.

(* str(v) *)
Definition str (v : json) : string :=
  match v with
  | JStr s => s
  | _ => repr v
  end.

(* The white space that int() skips around the number: the C locale's
   isspace, that is \t \n \v \f \r and the space. (str.strip() also
   drops 0x1c..0x1f; int() does not.) *)
Definition is_c_space (c : ascii) : bool :=
  let n := PyStr.code c in ((9 <=? n) && (n <=? 13))%N || (n =? 32)%N.

Fixpoint skip_c_space (s : string) : string :=
  match s with
  | EmptyString => EmptyString
  | String c s' => if is_c_space c then skip_c_space s' else s
  end.

(* sys.int_info.default_max_str_digits: the interpreter's limit on the
   number of digits of a str that int() converts. *)
Definition int_max_str_digits : Z := 4300.

(* The scan of the digits of an int literal: the longest run of decimal
   digits and underscores. None when an underscore follows an underscore
   or ends the run; otherwise the number of digits, their value and the
   rest of the string. *)
Fixpoint scan_digits (after_underscore : bool) (digits acc : Z) (s : string)
  : option (Z * Z * string) :=
  match s with
  | EmptyString => if after_underscore then None else Some (digits, acc, s)
  | String c s' =>
      if PyStr.is_digit c
      then scan_digits false (digits + 1) (10 * acc + PyStr.digit_val c) s'
      else if Ascii.eqb c "_"%char
      then (if after_underscore then None else scan_digits true digits acc s')
      else if after_underscore then None else Some (digits, acc, s)
  end.

(* int(s) of a str, base 10: white space, a sign, the digits, white
   space. The digit limit is checked as soon as the digits are scanned,
   before what follows them is looked at; the message of an invalid
   literal shows the first 200 characters of repr(s). *)
Definition int_of_str (s : string) : result Z :=
  let bad := Raise (Other "ValueError"
                      ("invalid literal for int() with base 10: "
                       +:+ String.substring 0 200 (repr_str s))) in
  let signed :=
    match skip_c_space s with
    | String "-" d => (true, d)
    | String "+" d => (false, d)
    | d => (false, d)
    end in
  match snd signed with
  | String "_" _ => bad
  | digits =>
      match scan_digits false 0 0 digits with
      | None => bad
      | Some (n, v, rest) =>
          if Z.ltb int_max_str_digits n then
            Raise (Other "ValueError"
                     ("Exceeds the limit (" +:+ str_int int_max_str_digits
                      +:+ " digits) for integer string conversion: value has "
                      +:+ str_int n
                      +:+ " digits; use sys.set_int_max_str_digits() to increase the limit"))
          else if Z.eqb n 0 then bad
          else match skip_c_space rest with
               | EmptyString => Ok (if fst signed then - v else v)
               | _ => bad
               end
      end
  end.

(* int(v) *)
Definition int (v : json) : result Z :=
  match v with
  | JInt z => Ok z
  | JBool b => Ok (if b then 1 else 0)
  | JStr s => int_of_str s
  | _ => Raise (Other "TypeError"
                  ("int() argument must be a string, a bytes-like object or a real number, not '"
                   +:+ type_name v +:+ "'"))
  end.

End Py.

(* --------------------------------------------------------------------- *)
(* The transport: requests, responses, the request log                    *)
(* --------------------------------------------------------------------- *)

Inductive method := GET | POST | PUT.

Record request := mkRequest {
  meth : method;
  url : string;
  headers : list (string * string);
  params : list (string * string);
  body : option json
}.

(* What a call on the client gives: the call itself raises (a transport
   fault, with the class and message of the exception), or there is a
   response. Of a response the code uses raise_for_status(), which raises
   HTTPStatusError with the given message unless the status is 2xx
   ([status = None]), and json(), which returns the parsed body or raises
   with the given message. *)
Inductive response :=
| NoReply (cls msg : string)
| Reply (status : option string) (parsed : json + string).

(* Union[int, str], as it is formatted into a URL by an f-string *)
Inductive key := KInt (z : Z) | KStr (s : string).

Definition fmt (k : key) : string :=
  match k with KInt z => Py.str_int z | KStr s => s end.

(* The io monad: state (the log of requests issued so far) and exceptions. *)
Definition io (A : Type) : Type := list request -> result A * list request.

Definition ret {A} (a : A) : io A := fun log => (Ok a, log).
Definition raise {A} (e : exn) : io A := fun log => (Raise e, log).
Definition bind {A B} (m : io A) (k : A -> io B) : io B :=
  fun log => match m log with
             | (Ok a, log') => k a log'
             | (Raise e, log') => (Raise e, log')
             end.
Definition lift {A} (r : result A) : io A := fun log => (r, log).

(* try: m / except HTTPStatusError as e: h1 / except Exception as e: h2 *)
Definition try_except {A} (m : io A) (h : exn -> io A) : io A :=
  fun log => match m log with
             | (Ok a, log') => (Ok a, log')
             | (Raise e, log') => h e log'
             end.

Declare Scope io_scope.
Delimit Scope io_scope with io.
Notation "x <- m ;; k" := (bind m (fun x => k))
  (at level 100, m at next level, right associativity) : io_scope.
Notation "m ;;; k" := (bind m (fun _ => k))
  (at level 100, right associativity) : io_scope.

(* resp.raise_for_status() *)
Definition raise_for_status (status : option string) (parsed : json + string)
  : result unit :=
  match status with
  | Some msg => Raise (HTTPStatusError msg parsed)
  | None => Ok tt
  end.

(* resp.json(), e.response.json() *)
Definition response_json (parsed : json + string) : result json :=
  match parsed with
  | inl j => Ok j
  | inr msg => Raise (Other "JSONDecodeError" msg)
  end.

(* The dict returned by `except httpx.HTTPStatusError as e`:
   {"error": f"<what>: {str(e)}", "details": e.response.json() if e.response else None}.
   A response object is truthy; its json() can raise inside the handler. *)
Definition status_error_dict (what msg : string) (parsed : json + string)
  : result json :=
  rbind (response_json parsed) (fun details =>
    Ok (JObj [("error", JStr (what +:+ ": " +:+ msg)); ("details", details)])).

(* The dict returned by `except Exception as e`. *)
Definition unexpected_dict (what msg : string) : json :=
  JObj [("error", JStr (what +:+ ": " +:+ msg))].

(* The pair of handlers that closes every try block of the tools: what
   the tool returns (or raises) once the exception e is caught. *)
Definition handled (what_status what_other : string) (e : exn) : result json :=
  match e with
  | HTTPStatusError msg parsed => status_error_dict what_status msg parsed
  | Other _ msg => Ok (unexpected_dict what_other msg)
  end.

Definition handlers (what_status what_other : string) (e : exn) : io json :=
  lift (handled what_status what_other e).

Definition config_error : json :=
  JObj [("error", JStr "FRESHRELEASE_DOMAIN or FRESHRELEASE_API_KEY is not set")].

Section Server.

(* The remote API: the reply to a request, given the requests before it. *)
Variable remote : list request -> request -> response.

(* FRESHRELEASE_DOMAIN, FRESHRELEASE_API_KEY: os.getenv gives None or a str. *)
Variable FRESHRELEASE_DOMAIN FRESHRELEASE_API_KEY : option string.

Definition env_truthy (v : option string) : bool :=
  match v with Some s => PyStr.truthy s | None => false end.

Definition env_str (v : option string) : string :=
  match v with Some s => s | None => "None" end.

Definition not_configured : bool :=
  negb (env_truthy FRESHRELEASE_DOMAIN) || negb (env_truthy FRESHRELEASE_API_KEY).

Definition base_url : string := "https://" +:+ env_str FRESHRELEASE_DOMAIN.

Definition std_headers : list (string * string) :=
  [("Authorization", "Token " +:+ env_str FRESHRELEASE_API_KEY);
   ("Content-Type", "application/json")].

(* await client.get/post/put(...): the request is logged, then the reply
   is a response object or an exception. *)
Definition send (r : request) : io (option string * (json + string)) :=
  fun log =>
    match remote log r with
    | NoReply cls msg => (Raise (Other cls msg), log ++ [r])
    | Reply status parsed => (Ok (status, parsed), log ++ [r])
    end.

Definition get_req (u : string) (ps : list (string * string)) : request :=
  mkRequest GET u std_headers ps None.

Local Open Scope io_scope.

(* resp = await client.get(url); resp.raise_for_status(); data = resp.json() *)
Definition fetch (r : request) : io (json * (json + string)) :=
  resp <- send r ;;
  lift (raise_for_status (fst resp) (snd resp)) ;;;
  data <- lift (response_json (snd resp)) ;;
  ret (data, snd resp).

(* ------------------------------------------------------------------- *)
(* Key-to-id resolution                                                  *)
(* ------------------------------------------------------------------- *)

Definition issue_url (project_identifier key0 : key) : string :=
  base_url +:+ "/" +:+ fmt project_identifier +:+ "/issues/" +:+ fmt key0.

Definition testcase_url (project_identifier key0 : key) : string :=
  base_url +:+ "/" +:+ fmt project_identifier +:+ "/test_cases/" +:+ fmt key0.

(* `if isinstance(data, dict) and "id" in data: int(data["id"])`, else the
   HTTPStatusError built from the response itself. *)
Definition id_of_data (what : string) (data : json) (parsed : json + string)
  : result Z :=
  match data with
  | JObj items =>
      match Py.lookup_item "id" items with
      | Some v => Py.int v
      | None => Raise (HTTPStatusError what parsed)
      end
  | _ => Raise (HTTPStatusError what parsed)
  end.

(* The loop of issue_ids_from_keys, with `resolved` as accumulator. *)
Fixpoint issue_ids_loop (project_identifier : key) (issue_keys : list key)
  (resolved : list Z) : io (list Z) :=
  match issue_keys with
  | [] => ret resolved
  | key0 :: rest =>
      d <- fetch (get_req (issue_url project_identifier key0) []) ;;
      id <- lift (id_of_data "Unexpected issue response structure" (fst d) (snd d)) ;;
      issue_ids_loop project_identifier rest (resolved ++ [id])
  end.

Definition issue_ids_from_keys (project_identifier : key) (issue_keys : list key)
  : io (list Z) :=
  issue_ids_loop project_identifier issue_keys [].

Definition testcase_id_from_key (project_identifier test_case_key : key) : io Z :=
  d <- fetch (get_req (testcase_url project_identifier test_case_key) []) ;;
  lift (id_of_data "Unexpected test case response structure" (fst d) (snd d)).

(* ------------------------------------------------------------------- *)
(* fr_link_testcase_issues                                               *)
(* ------------------------------------------------------------------- *)

(* `for key in testcase_keys: resolved_testcase_ids.append(await ...)` *)
Fixpoint testcase_ids_loop (project_identifier : key) (testcase_keys : list key)
  (resolved_testcase_ids : list Z) : io (list Z) :=
  match testcase_keys with
  | [] => ret resolved_testcase_ids
  | key0 :: rest =>
      id <- testcase_id_from_key project_identifier key0 ;;
      testcase_ids_loop project_identifier rest (resolved_testcase_ids ++ [id])
  end.

Definition update_many_url (project_identifier : key) : string :=
  base_url +:+ "/" +:+ fmt project_identifier +:+ "/test_cases/update_many".

Definition link_payload (resolved_testcase_ids resolved_issue_ids : list Z) : json :=
  JObj [("ids", JList (map JInt resolved_testcase_ids));
        ("test_case", JObj [("issue_ids", JList (map JInt resolved_issue_ids))])].

Definition link_request (project_identifier : key)
  (resolved_testcase_ids resolved_issue_ids : list Z) : request :=
  mkRequest PUT (update_many_url project_identifier) std_headers []
    (Some (link_payload resolved_testcase_ids resolved_issue_ids)).

Definition fr_link_testcase_issues (project_identifier : key)
  (testcase_keys issue_keys : list key) : io json :=
  if not_configured then ret config_error
  else
    try_except
      (resolved_testcase_ids <- testcase_ids_loop project_identifier testcase_keys [] ;;
       resolved_issue_ids <- issue_ids_from_keys project_identifier issue_keys ;;
       d <- fetch (link_request project_identifier resolved_testcase_ids resolved_issue_ids) ;;
       ret (fst d))
      (handlers "Failed to bulk update testcases" "An unexpected error occurred").

(* ------------------------------------------------------------------- *)
(* Name matching                                                         *)
(* ------------------------------------------------------------------- *)

(* str(v).strip().lower() *)
Definition normalize (v : json) : string := PyStr.lower (PyStr.strip (Py.str v)).

(* str(item.get(field, '')).strip().lower() *)
Definition field_norm (item : json) (field : string) : result string :=
  (v <- Py.get item field (JStr EmptyString) ;; Ok (normalize v))%res.

(* ------------------------------------------------------------------- *)
(* fr_create_task                                                        *)
(* ------------------------------------------------------------------- *)

Inductive TASK_STATUS := TODO | IN_PROGRESS | DONE.

Definition TASK_STATUS_value (t : TASK_STATUS) : string :=
  match t with TODO => "todo" | IN_PROGRESS => "in_progress" | DONE => "done" end.

(* Optional[Union[str, TASK_STATUS]] *)
Inductive status_arg := StatusStr (s : string) | StatusEnum (t : TASK_STATUS).

Definition status_value (st : status_arg) : string :=
  match st with StatusStr s => s | StatusEnum t => TASK_STATUS_value t end.

Definition protected_keys : list string :=
  ["title"; "description"; "assignee_id"; "status"; "due_date"; "issue_type_id"].

Definition is_protected (k : string) : bool :=
  existsb (String.eqb k) protected_keys.

(* `if x is not None: payload[k] = x` *)
Definition set_opt {A} (k : string) (inj : A -> json) (x : option A)
  (payload : list (string * json)) : list (string * json) :=
  match x with Some a => Py.set_item k (inj a) payload | None => payload end.

(* `for key, value in additional_fields.items()` *)
Fixpoint merge_additional (items : list (string * json))
  (payload : list (string * json)) : list (string * json) :=
  match items with
  | [] => payload
  | (key0, value) :: rest =>
      if is_protected key0 then merge_additional rest payload
      else merge_additional rest (Py.set_item key0 value payload)
  end.

(* Lines 159-175: the payload before any resolution. *)
Definition initial_payload (title : string) (description : option string)
  (assignee_id : option Z) (status : option status_arg) (due_date : option string)
  (additional_fields : option (list (string * json))) : list (string * json) :=
  let payload := [("title", JStr title)] in
  let payload := set_opt "description" JStr description payload in
  let payload := set_opt "assignee_id" JInt assignee_id payload in
  let payload := set_opt "status" (fun st => JStr (status_value st)) status payload in
  let payload := set_opt "due_date" JStr due_date payload in
  match additional_fields with
  | Some (kv :: items) => merge_additional (kv :: items) payload
  | _ => payload
  end.

(* `for t in types_list: ... matched_id = t.get("id"); break` *)
Fixpoint match_issue_type (target : string) (types_list : list json) : result json :=
  match types_list with
  | [] => Ok JNull
  | t :: rest =>
      (name <- field_norm t "name" ;;
       if String.eqb name target then Py.get t "id" JNull
       else match_issue_type target rest)%res
  end.

Definition issue_type_not_found (name_to_resolve : string) (it_data : json) : json :=
  JObj [("error", JStr ("Issue type '" +:+ name_to_resolve +:+ "' not found"));
        ("details", it_data)].

(* Lines 180-202. [inl] is a value the tool returns at once, [inr] the
   payload with which it goes on. *)
Definition resolve_issue_type (project_identifier : key)
  (issue_type_name : option string) (payload : list (string * json))
  : io (json + list (string * json)) :=
  let name_to_resolve :=
    match issue_type_name with
    | Some s => if PyStr.truthy s then s else "task"
    | None => "task"
    end in
  if PyStr.truthy name_to_resolve then
    let issue_types_url :=
      base_url +:+ "/" +:+ fmt project_identifier +:+ "/project_issue_types" in
    try_except
      (d <- fetch (get_req issue_types_url []) ;;
       let it_data := fst d in
       types_list <- lift (match it_data with
                           | JObj _ => (v <- Py.get it_data "issue_types" (JList []) ;;
                                        Py.iter v)%res
                           | _ => Ok []
                           end) ;;
       let target := PyStr.lower (PyStr.strip name_to_resolve) in
       matched_id <- lift (match_issue_type target types_list) ;;
       if Py.is_none matched_id
       then ret (inl (issue_type_not_found name_to_resolve it_data))
       else ret (inr (Py.set_item "issue_type_id" matched_id payload)))
      (fun e => r <- handlers "Failed to resolve issue type"
                       "An unexpected error occurred while resolving issue type" e ;;
                ret (inl r))
  else ret (inr payload).

(* One of the two search loops over users_data: the first item whose
   normalised field is non-empty and equal to the lowered query gives
   `item.get("id")`, and the loop breaks. *)
Fixpoint first_match (field lowered : string) (users_data : list json) : result json :=
  match users_data with
  | [] => Ok JNull
  | item :: rest =>
      (val <- field_norm item field ;;
       if PyStr.truthy val && String.eqb val lowered then Py.get item "id" JNull
       else first_match field lowered rest)%res
  end.

(* Lines 212-230: chosen_id, None being JNull. *)
Definition choose_user (users_data : json) (user : string) : result json :=
  match users_data with
  | JList (u0 :: us) =>
      let lowered := PyStr.lower (PyStr.strip user) in
      (chosen_id <- first_match "email" lowered (u0 :: us) ;;
       chosen_id <- (if Py.is_none chosen_id
                     then first_match "name" lowered (u0 :: us)
                     else Ok chosen_id) ;;
       if Py.is_none chosen_id then Py.get u0 "id" JNull else Ok chosen_id)%res
  | _ => Ok JNull
  end.

Definition no_users_found (user : string) : json :=
  JObj [("error", JStr ("No users found matching '" +:+ user +:+ "'"))].

(* Lines 204-237. *)
Definition resolve_user (project_identifier : key) (user : option string)
  (payload : list (string * json)) : io (json + list (string * json)) :=
  match user with
  | Some u =>
      if negb (Py.has_key "assignee_id" payload) && PyStr.truthy u then
        let users_url := base_url +:+ "/" +:+ fmt project_identifier +:+ "/users" in
        try_except
          (d <- fetch (get_req users_url [("q", u)]) ;;
           chosen_id <- lift (choose_user (fst d) u) ;;
           if Py.is_none chosen_id then ret (inl (no_users_found u))
           else ret (inr (Py.set_item "assignee_id" chosen_id payload)))
          (fun e => r <- handlers "Failed to resolve user"
                           "An unexpected error occurred while resolving user" e ;;
                    ret (inl r))
      else ret (inr payload)
  | None => ret (inr payload)
  end.

Definition create_task_request (project_identifier : key)
  (payload : list (string * json)) : request :=
  mkRequest POST (base_url +:+ "/" +:+ fmt project_identifier +:+ "/issues")
    std_headers [] (Some (JObj payload)).

Definition fr_create_task (project_identifier : key) (title : string)
  (description : option string) (assignee_id : option Z)
  (status : option status_arg) (due_date : option string)
  (issue_type_name : option string) (user : option string)
  (additional_fields : option (list (string * json))) : io json :=
  if not_configured then ret config_error
  else
    let payload :=
      initial_payload title description assignee_id status due_date additional_fields in
    r <- resolve_issue_type project_identifier issue_type_name payload ;;
    match r with
    | inl out => ret out
    | inr payload =>
        r <- resolve_user project_identifier user payload ;;
        match r with
        | inl out => ret out
        | inr payload =>
            try_except
              (d <- fetch (create_task_request project_identifier payload) ;;
               ret (fst d))
              (handlers "Failed to create task" "An unexpected error occurred")
        end
    end.

(* ------------------------------------------------------------------- *)
(* fr_get_issue_type_by_name                                             *)
(* ------------------------------------------------------------------- *)

(* `for item in data: ... if name == target: return item` *)
Fixpoint find_issue_type (target : string) (data : list json) : result (option json) :=
  match data with
  | [] => Ok None
  | item :: rest =>
      (name <- field_norm item "name" ;;
       if String.eqb name target then Ok (Some item)
       else find_issue_type target rest)%res
  end.

Definition fr_get_issue_type_by_name (project_identifier : key)
  (issue_type_name : string) : io json :=
  if not_configured then ret config_error
  else
    let url0 := base_url +:+ "/" +:+ fmt project_identifier +:+ "/issue_types" in
    try_except
      (d <- fetch (get_req url0 []) ;;
       match fst d with
       | JList data =>
           let target := PyStr.lower (PyStr.strip issue_type_name) in
           found <- lift (find_issue_type target data) ;;
           match found with
           | Some item => ret item
           | None =>
               ret (JObj [("error",
                           JStr ("Issue type '" +:+ issue_type_name +:+ "' not found"))])
           end
       | data =>
           ret (JObj [("error", JStr "Unexpected response structure for issue types");
                      ("details", data)])
       end)
      (handlers "Failed to fetch issue types" "An unexpected error occurred").

(* ------------------------------------------------------------------- *)
(* resolve_section_hierarchy_to_ids                                      *)
(* ------------------------------------------------------------------- *)

(* The value of an int as a dict key: True and 1 are the same key. *)
Definition int_key (v : json) : option Z :=
  match v with
  | JInt z => Some z
  | JBool b => Some (if b then 1 else 0)
  | _ => None
  end.

(* The key under which a (non-None) parent_id is stored: ints and bools
   by value, strings by content; lists and dicts are unhashable. *)
Definition hash_key (v : json) : result (Z + string) :=
  match v with
  | JInt z => Ok (inl z)
  | JBool b => Ok (inl (if b then 1 else 0))
  | JStr s => Ok (inr s)
  | _ => Raise (Other "TypeError" ("unhashable type: '" +:+ Py.type_name v +:+ "'"))
  end.

(* hierarchy.get(k, []) *)
Definition children_of (hierarchy : gmap (Z + string) (list json)) (k : Z + string)
  : list json :=
  default [] (hierarchy !! k).

(* `for section in sections`: the partition into roots and children. *)
Fixpoint build_hierarchy (sections : list json)
  (hierarchy : gmap (Z + string) (list json)) (root_sections : list json)
  : result (gmap (Z + string) (list json) * list json) :=
  match sections with
  | [] => Ok (hierarchy, root_sections)
  | section :: rest =>
      (parent_id <- Py.get section "parent_id" JNull ;;
       if Py.is_none parent_id
       then build_hierarchy rest hierarchy (root_sections ++ [section])
       else
         k <- hash_key parent_id ;;
         build_hierarchy rest
           (<[k := children_of hierarchy k ++ [section]]> hierarchy) root_sections)%res
  end.

(* `[s.get("id") for s in sections_list if isinstance(s.get("id"), int)]` *)
Fixpoint int_ids (sections_list : list json) : result (list json) :=
  match sections_list with
  | [] => Ok []
  | s :: rest =>
      (id <- Py.get s "id" JNull ;;
       ids <- int_ids rest ;;
       Ok (if Py.is_int id then id :: ids else ids))%res
  end.

(* The `for section in sections_list` loop of find_sections_by_path;
   [descend] is the recursive call on the children of a matching section
   (None at the final level). *)
Fixpoint scan_sections (hierarchy : gmap (Z + string) (list json))
  (current_name : string) (descend : option (list json -> result (list json)))
  (sections_list : list json) (matching_sections : list json)
  : result (list json) :=
  match sections_list with
  | [] => Ok matching_sections
  | section :: rest =>
      (section_name <- field_norm section "name" ;;
       if String.eqb section_name current_name then
         section_id <- Py.get section "id" JNull ;;
         match int_key section_id with
         | Some z =>
             match descend with
             | None =>
                 scan_sections hierarchy current_name descend rest
                   (matching_sections ++ [section_id])
             | Some recurse =>
                 child_matches <- recurse (children_of hierarchy (inl z)) ;;
                 scan_sections hierarchy current_name descend rest
                   (matching_sections ++ child_matches)
             end
         | None => scan_sections hierarchy current_name descend rest matching_sections
         end
       else scan_sections hierarchy current_name descend rest matching_sections)%res
  end.

Fixpoint find_sections_by_path (hierarchy : gmap (Z + string) (list json))
  (sections_list : list json) (remaining_path : list string) : result (list json) :=
  match remaining_path with
  | [] => int_ids sections_list
  | current :: rest =>
      let current_name := PyStr.lower current in
      let descend :=
        match rest with
        | [] => None
        | _ => Some (fun children => find_sections_by_path hierarchy children rest)
        end in
      scan_sections hierarchy current_name descend sections_list []
  end.

(* The same function with the depth of the Python call stack made
   explicit: every call of find_sections_by_path takes one unit of
   [depth], and None is the call that would exceed it. *)
Fixpoint find_sections_by_path_depth (depth : nat)
  (hierarchy : gmap (Z + string) (list json))
  (sections_list : list json) (remaining_path : list string)
  : option (result (list json)) :=
  match depth with
  | O => None
  | S depth' =>
      match remaining_path with
      | [] => Some (int_ids sections_list)
      | current :: rest =>
          let current_name := PyStr.lower current in
          (fix scan (sl : list json) (matching_sections : list json)
             : option (result (list json)) :=
             match sl with
             | [] => Some (Ok matching_sections)
             | section :: sl' =>
                 match field_norm section "name" with
                 | Raise e => Some (Raise e)
                 | Ok section_name =>
                     if String.eqb section_name current_name then
                       match Py.get section "id" JNull with
                       | Raise e => Some (Raise e)
                       | Ok section_id =>
                           match int_key section_id with
                           | Some z =>
                               if (length remaining_path =? 1)%nat
                               then scan sl' (matching_sections ++ [section_id])
                               else
                                 match find_sections_by_path_depth depth' hierarchy
                                         (children_of hierarchy (inl z))
                                         (tail remaining_path) with
                                 | None => None
                                 | Some (Raise e) => Some (Raise e)
                                 | Some (Ok child_matches) =>
                                     scan sl' (matching_sections ++ child_matches)
                                 end
                           | None => scan sl' matching_sections
                           end
                       end
                     else scan sl' matching_sections
                 end
             end) sections_list []
      end
  end.

Definition path_parts_of (section_path : string) : list string :=
  map PyStr.strip (PyStr.split ">"%char section_path).

Definition sections_url (project_identifier : key) : string :=
  base_url +:+ "/" +:+ fmt project_identifier +:+ "/sections".

Definition resolve_section_hierarchy_to_ids (project_identifier : key)
  (section_path : string) : io (list json) :=
  let path_parts := path_parts_of section_path in
  match path_parts with
  | [] => ret []
  | first :: _ =>
      if negb (PyStr.truthy first) then ret []
      else
        resp <- send (get_req (sections_url project_identifier) []) ;;
        lift (raise_for_status (fst resp) (snd resp)) ;;;
        sections <- lift (response_json (snd resp)) ;;
        match sections with
        | JList sections =>
            hr <- lift (build_hierarchy sections ∅ []) ;;
            lift (find_sections_by_path (fst hr) (snd hr) path_parts)
        | _ =>
            raise (HTTPStatusError "Unexpected sections response structure" (snd resp))
        end
  end.

(* ------------------------------------------------------------------- *)
(* fr_add_testcases_to_testrun                                           *)
(* ------------------------------------------------------------------- *)

(* `for key in test_case_keys`, each key in a try block of its own. *)
Fixpoint resolve_test_case_keys (project_identifier : key) (test_case_keys : list key)
  (resolved_test_case_ids : list string) : io (json + list string) :=
  match test_case_keys with
  | [] => ret (inr resolved_test_case_ids)
  | key0 :: rest =>
      r <- try_except
             (d <- fetch (get_req (testcase_url project_identifier key0) []) ;;
              let tc_data := fst d in
              let unexpected :=
                JObj [("error", JStr ("Unexpected test case response structure for key '"
                                      +:+ fmt key0 +:+ "'"));
                      ("details", tc_data)] in
              match tc_data with
              | JObj items =>
                  match Py.lookup_item "id" items with
                  | Some v => ret (inr (Py.str v))
                  | None => ret (inl unexpected)
                  end
              | _ => ret (inl unexpected)
              end)
             (fun e =>
                r <- handlers
                       ("Failed to resolve test case key '" +:+ fmt key0 +:+ "'")
                       ("An unexpected error occurred while resolving test case key '"
                        +:+ fmt key0 +:+ "'") e ;;
                ret (inl r)) ;;
      match r with
      | inl out => ret (inl out)
      | inr id => resolve_test_case_keys project_identifier rest
                    (resolved_test_case_ids ++ [id])
      end
  end.

(* `for path in section_hierarchy_paths`, each path in a try block. *)
Fixpoint resolve_paths (project_identifier : key) (section_hierarchy_paths : list string)
  (resolved_section_subtree_ids : list string) : io (json + list string) :=
  match section_hierarchy_paths with
  | [] => ret (inr resolved_section_subtree_ids)
  | path :: rest =>
      r <- try_except
             (section_ids_from_path <-
                resolve_section_hierarchy_to_ids project_identifier path ;;
              ret (inr (map Py.str section_ids_from_path)))
             (fun e =>
                r <- handlers
                       ("Failed to resolve section hierarchy path '" +:+ path +:+ "'")
                       ("An unexpected error occurred while resolving section hierarchy path '"
                        +:+ path +:+ "'") e ;;
                ret (inl r)) ;;
      match r with
      | inl out => ret (inl out)
      | inr ids => resolve_paths project_identifier rest
                     (resolved_section_subtree_ids ++ ids)
      end
  end.

(* `x or []` *)
Definition or_empty {A} (x : option (list A)) : list A :=
  match x with Some l => l | None => [] end.

Definition testrun_payload (filter_rule : option (list json))
  (resolved_test_case_ids all_section_subtree_ids : list string)
  (section_ids : option (list key)) : json :=
  JObj [("filter_rule", JList (or_empty filter_rule));
        ("test_case_ids", JList (map JStr resolved_test_case_ids));
        ("section_subtree_ids", JList (map JStr all_section_subtree_ids));
        ("section_ids", JList (map (fun sid => JStr (fmt sid)) (or_empty section_ids)))].

Definition testrun_request (project_identifier test_run_id : key) (payload : json)
  : request :=
  mkRequest PUT
    (base_url +:+ "/" +:+ fmt project_identifier +:+ "/test_runs/"
     +:+ fmt test_run_id +:+ "/test_cases")
    std_headers [] (Some payload).

Definition fr_add_testcases_to_testrun (project_identifier test_run_id : key)
  (test_case_keys : list key) (section_hierarchy_paths : option (list string))
  (section_subtree_ids section_ids : option (list key))
  (filter_rule : option (list json)) : io json :=
  if not_configured then ret config_error
  else
    r <- resolve_test_case_keys project_identifier test_case_keys [] ;;
    match r with
    | inl out => ret out
    | inr resolved_test_case_ids =>
        r <- resolve_paths project_identifier (or_empty section_hierarchy_paths) [] ;;
        match r with
        | inl out => ret out
        | inr resolved_section_subtree_ids =>
            let all_section_subtree_ids :=
              resolved_section_subtree_ids ++ map fmt (or_empty section_subtree_ids) in
            let payload :=
              testrun_payload filter_rule resolved_test_case_ids
                all_section_subtree_ids section_ids in
            try_except
              (d <- fetch (testrun_request project_identifier test_run_id payload) ;;
               ret (fst d))
              (handlers "Failed to add test cases to test run"
                 "An unexpected error occurred")
        end
    end.

End Server.

(* --------------------------------------------------------------------- *)
(* The tools that wrap one request, and fr_get_testcases_by_section       *)
(* --------------------------------------------------------------------- *)

Section Tools.

Variable remote : list request -> request -> response.
Variable FRESHRELEASE_DOMAIN FRESHRELEASE_API_KEY : option string.

Local Abbreviation unconfigured :=
  (not_configured FRESHRELEASE_DOMAIN FRESHRELEASE_API_KEY).
Local Abbreviation base := (base_url FRESHRELEASE_DOMAIN).
Local Abbreviation hdrs := (std_headers FRESHRELEASE_API_KEY).
Local Abbreviation get_request := (get_req FRESHRELEASE_API_KEY).

Local Open Scope io_scope.

Definition create_project_request (name : string) (description : option string)
  : request :=
  let payload := set_opt "description" JStr description [("name", JStr name)] in
  mkRequest POST (base +:+ "/projects") hdrs [] (Some (JObj payload)).

Definition fr_create_project (name : string) (description : option string) : io json :=
  if unconfigured then ret config_error
  else
    try_except
      (d <- fetch remote (create_project_request name description) ;; ret (fst d))
      (handlers "Failed to create project" "An unexpected error occurred").

Definition fr_get_project (project_identifier : key) : io json :=
  if unconfigured then ret config_error
  else
    let url0 := base +:+ "/projects/" +:+ fmt project_identifier in
    try_except
      (d <- fetch remote (get_request url0 []) ;; ret (fst d))
      (handlers "Failed to fetch project" "An unexpected error occurred").

Definition fr_get_task (project_identifier key0 : key) : io json :=
  if unconfigured then ret config_error
  else
    let url0 := base +:+ "/" +:+ fmt project_identifier +:+ "/issues/" +:+ fmt key0 in
    try_except
      (d <- fetch remote (get_request url0 []) ;; ret (fst d))
      (handlers "Failed to fetch task" "An unexpected error occurred").

Definition fr_get_all_tasks (project_identifier : key) : io json :=
  if unconfigured then ret config_error
  else
    let url0 := base +:+ "/" +:+ fmt project_identifier +:+ "/issues" in
    try_except
      (d <- fetch remote (get_request url0 []) ;; ret (fst d))
      (handlers "Failed to fetch task" "An unexpected error occurred").

Definition fr_search_users (project_identifier : key) (search_text : string) : io json :=
  if unconfigured then ret config_error
  else
    let url0 := base +:+ "/" +:+ fmt project_identifier +:+ "/users" in
    try_except
      (d <- fetch remote (get_request url0 [("q", search_text)]) ;; ret (fst d))
      (handlers "Failed to search users" "An unexpected error occurred").

Definition fr_list_testcases (project_identifier : key) : io json :=
  if unconfigured then ret config_error
  else
    let url0 := base +:+ "/" +:+ fmt project_identifier +:+ "/test_cases" in
    try_except
      (d <- fetch remote (get_request url0 []) ;; ret (fst d))
      (handlers "Failed to list test cases" "An unexpected error occurred").

Definition fr_get_testcase (project_identifier test_case_key : key) : io json :=
  if unconfigured then ret config_error
  else
    let url0 :=
      base +:+ "/" +:+ fmt project_identifier +:+ "/test_cases/" +:+ fmt test_case_key in
    try_except
      (d <- fetch remote (get_request url0 []) ;; ret (fst d))
      (handlers "Failed to get test case" "An unexpected error occurred").

(* fr_get_testcases_by_section, step 1: `for sec in sections`, which is
   not inside a try block. *)
Fixpoint matching_section_ids (target : string) (sections : list json)
  (matched_ids : list json) : result (list json) :=
  match sections with
  | [] => Ok matched_ids
  | sec :: rest =>
      (name_val <- field_norm sec "name" ;;
       if String.eqb name_val target then
         sec_id <- Py.get sec "id" JNull ;;
         if Py.is_int sec_id
         then matching_section_ids target rest (matched_ids ++ [sec_id])
         else matching_section_ids target rest matched_ids
       else matching_section_ids target rest matched_ids)%res
  end.

Definition section_testcases_request (project_identifier : key) (sid : json)
  : request :=
  get_request (base +:+ "/" +:+ fmt project_identifier +:+ "/test_cases")
    [("section_subtree_ids[]", Py.str sid)].

(* Step 2: `for sid in matched_ids`, inside one try block. *)
Fixpoint fetch_section_testcases (project_identifier : key) (matched_ids : list json)
  (all_results : list json) : io (list json) :=
  match matched_ids with
  | [] => ret all_results
  | sid :: rest =>
      d <- fetch remote (section_testcases_request project_identifier sid) ;;
      match fst d with
      | JList data =>
          fetch_section_testcases project_identifier rest (all_results ++ data)
      | data =>
          fetch_section_testcases project_identifier rest (all_results ++ [data])
      end
  end.

Definition section_not_found (section_name : string) : json :=
  JObj [("error", JStr ("Section named '" +:+ section_name +:+ "' not found"))].

Definition fr_get_testcases_by_section (project_identifier : key)
  (section_name : string) : io json :=
  if unconfigured then ret config_error
  else
    r <- try_except
           (d <- fetch remote
                   (get_request (sections_url FRESHRELEASE_DOMAIN project_identifier) []) ;;
            ret (inr (fst d)))
           (fun e =>
              r <- handlers "Failed to fetch sections"
                     "An unexpected error occurred while fetching sections" e ;;
              ret (inl r)) ;;
    match r with
    | inl out => ret out
    | inr sections =>
        let target := PyStr.lower (PyStr.strip section_name) in
        match sections with
        | JList secs =>
            matched_ids <- lift (matching_section_ids target secs []) ;;
            match matched_ids with
            | [] => ret (section_not_found section_name)
            | _ =>
                try_except
                  (all_results <-
                     fetch_section_testcases project_identifier matched_ids [] ;;
                   ret (JList all_results))
                  (handlers "Failed to fetch test cases for section"
                     "An unexpected error occurred while fetching test cases")
            end
        | _ =>
            ret (JObj [("error", JStr "Unexpected sections response structure");
                       ("details", sections)])
        end
    end.

End Tools.

(* ===================================================================== *)
(* Vocabulary of the properties                                           *)
(* ===================================================================== *)

Definition quot : string := String PyStr.dquote EmptyString.

(* <https://x/y?page=2>; rel="next", <https://x/y?page=1>; rel="prev" *)
Definition example_header : string :=
  "<https://x/y?page=2>; rel=" +:+ quot +:+ "next" +:+ quot
  +:+ ", <https://x/y?page=1>; rel=" +:+ quot +:+ "prev" +:+ quot.

(* {"next": None, "prev": None} *)
Definition empty_record : gmap string (option Z) :=
  <["prev" := None]> (<["next" := None]> ∅).

(* The reply gives the id: its status is 2xx, its body is a JSON object
   with the key "id", and the id is int(data["id"]). *)
Definition gives_id (r : response) (id : Z) : Prop :=
  exists items v,
    r = Reply None (inl (JObj items)) /\
    Py.lookup_item "id" items = Some v /\
    Py.int v = Ok id.

(* The reply gives no id, and resolving the key fails with e: a transport
   fault; an error status; a 2xx body that is not JSON; a JSON body that
   is not an object, or an object without the key "id" (HTTPStatusError
   with the message [what], carrying the reply); an "id" that int()
   rejects. *)
Inductive fails_with (what : string) : response -> exn -> Prop :=
| fails_transport cls msg :
    fails_with what (NoReply cls msg) (Other cls msg)
| fails_status status_msg parsed :
    fails_with what (Reply (Some status_msg) parsed)
      (HTTPStatusError status_msg parsed)
| fails_not_json json_msg :
    fails_with what (Reply None (inr json_msg)) (Other "JSONDecodeError" json_msg)
| fails_not_object data :
    (forall items, data <> JObj items) ->
    fails_with what (Reply None (inl data)) (HTTPStatusError what (inl data))
| fails_no_id items :
    Py.lookup_item "id" items = None ->
    fails_with what (Reply None (inl (JObj items)))
      (HTTPStatusError what (inl (JObj items)))
| fails_bad_id items v e :
    Py.lookup_item "id" items = Some v ->
    Py.int v = Raise e ->
    fails_with what (Reply None (inl (JObj items))) e.

(* One resolution as the code runs it on a reply: the three calls
   raise_for_status(), json() and the test on the data, in a row. The
   loops are followed through it. *)
Definition reply_id (what : string) (r : response) : result Z :=
  match r with
  | NoReply cls msg => Raise (Other cls msg)
  | Reply status parsed =>
      (_ <- raise_for_status status parsed ;;
       data <- response_json parsed ;;
       id_of_data what data parsed)%res
  end.

Definition issue_what := "Unexpected issue response structure".
Definition testcase_what := "Unexpected test case response structure".

(* The GET that resolves an issue key, a test-case key. *)
Definition issue_request (domain api_key : option string)
  (project_identifier k : key) : request :=
  get_req api_key (issue_url domain project_identifier k) [].
Definition testcase_request (domain api_key : option string)
  (project_identifier k : key) : request :=
  get_req api_key (testcase_url domain project_identifier k) [].

Definition link_what_status := "Failed to bulk update testcases".
Definition link_what_other := "An unexpected error occurred".

(* A call that changes the remote state. *)
Definition mutating (r : request) : bool :=
  match meth r with GET => false | POST | PUT => true end.

(* The ids are those of the replies to the requests, position by
   position, each request being sent after the ones before it. *)
Definition resolved_in_order (remote : list request -> request -> response)
  (what : string) (log : list request) (reqs : list request) (ids : list Z) : Prop :=
  length ids = length reqs /\
  forall i r, reqs !! i = Some r ->
    exists id, ids !! i = Some id /\
      gives_id (remote (log ++ take i reqs) r) id.

(* Request number i is the first whose resolution fails, with e. *)
Definition first_failure (remote : list request -> request -> response)
  (what : string) (log : list request) (reqs : list request) (i : nat) (e : exn)
  : Prop :=
  (exists r, reqs !! i = Some r /\
     fails_with what (remote (log ++ take i reqs) r) e) /\
  forall j r, (j < i)%nat -> reqs !! j = Some r ->
    exists id, gives_id (remote (log ++ take j reqs) r) id.

(* How one resolution step of fr_create_task treats two payloads p and
   p': it sends the same GETs, and either ends the tool with the same
   outcome for both, or goes on with both payloads, having stored the
   same value under the key k in both (then [stored] holds) or having left
   both alone (then [keep] holds). *)
Inductive step_rel (stored keep : Prop) (k : string) (p p' : list (string * json))
  (log : list request)
  : result (json + list (string * json)) * list request
    -> result (json + list (string * json)) * list request -> Prop :=
| step_raise e gets :
    Forall (fun r => mutating r = false) gets ->
    step_rel stored keep k p p' log (Raise e, log ++ gets) (Raise e, log ++ gets)
| step_return out gets :
    Forall (fun r => mutating r = false) gets ->
    step_rel stored keep k p p' log (Ok (inl out), log ++ gets) (Ok (inl out), log ++ gets)
| step_set v gets :
    Forall (fun r => mutating r = false) gets ->
    Py.is_none v = false ->
    stored ->
    step_rel stored keep k p p' log (Ok (inr (Py.set_item k v p)), log ++ gets)
      (Ok (inr (Py.set_item k v p')), log ++ gets)
| step_keep :
    keep ->
    step_rel stored keep k p p' log (Ok (inr p), log) (Ok (inr p'), log).

(* The entry of the additional fields that reaches the payload under the
   key k: none for a protected key, otherwise the last one with this key
   (the items of a dict have distinct keys, so there is at most one). *)
Definition passed_through (additional_fields : option (list (string * json)))
  (k : string) : option json :=
  if is_protected k then None
  else match additional_fields with
       | Some items => Py.lookup_item k (rev items)
       | None => None
       end.

(* p is p' overlaid with the additional fields that pass through. *)
Definition overlay (additional_fields : option (list (string * json)))
  (p p' : list (string * json)) : Prop :=
  forall k, Py.lookup_item k p
            = match passed_through additional_fields k with
              | Some v => Some v
              | None => Py.lookup_item k p'
              end.

(* bool(user) for Optional[str] *)
Definition user_given (user : option string) : bool :=
  match user with Some u => PyStr.truthy u | None => false end.

(* The payload that is posted: the initial payload with the resolved
   issue type and, when the user resolver ran, the resolved assignee. *)
Definition finalize (issue_type_id : json) (resolved_assignee : option json)
  (payload : list (string * json)) : list (string * json) :=
  let payload := Py.set_item "issue_type_id" issue_type_id payload in
  match resolved_assignee with
  | Some id => Py.set_item "assignee_id" id payload
  | None => payload
  end.

(* A sample deployment: the remote knows every issue and test case except
   the issue B, to which it answers with an error status. *)
Definition demo_domain : option string := Some "acme.example".
Definition demo_api_key : option string := Some "secret".

Definition demo_remote (log : list request) (r : request) : response :=
  if String.eqb (url r) "https://acme.example/ENG/issues/B"
  then Reply (Some "404 Not Found") (inl (JObj [("message", JStr "no such issue")]))
  else Reply None (inl (JObj [("id", JInt (Z.of_nat (length log)))])).

(* A sample project ENG: one issue type, Task, with id 3; the user search
   gives Bob, with id 4; the POST that creates a task answers with the
   new id. *)
Definition demo_issue_types : json :=
  JObj [("issue_types", JList [JObj [("id", JInt 3); ("name", JStr "Task")]])].

Definition demo_users : json :=
  JList [JObj [("id", JInt 4); ("name", JStr "Bob"); ("email", JStr "bob@acme.example")]].

Definition demo_project (log : list request) (r : request) : response :=
  if String.eqb (url r) "https://acme.example/ENG/project_issue_types"
  then Reply None (inl demo_issue_types)
  else if String.eqb (url r) "https://acme.example/ENG/users"
  then Reply None (inl demo_users)
  else Reply None (inl (JObj [("id", JInt 100)])).

(* A user as the data model has it: an object with an id. *)
Definition is_user_record (item : json) : bool :=
  match item with
  | JObj items =>
      match Py.lookup_item "id" items with
      | Some id => negb (Py.is_none id)
      | None => false
      end
  | _ => false
  end.

(* item.get("id") of a record *)
Definition id_of (item : json) : json :=
  match Py.get item "id" JNull with Ok v => v | Raise _ => JNull end.

(* The test of the search loops: the normalised field is not empty and is
   the lowered query. *)
Definition field_matches (field lowered : string) (item : json) : bool :=
  match field_norm item field with
  | Ok val => PyStr.truthy val && String.eqb val lowered
  | Raise _ => false
  end.

(* The three tiers: first email match, else first name match, else the
   first element. *)
Definition tie_break (users : list json) (user : string) : option json :=
  let lowered := PyStr.lower (PyStr.strip user) in
  match List.find (field_matches "email" lowered) users with
  | Some u => Some (id_of u)
  | None =>
      match List.find (field_matches "name" lowered) users with
      | Some u => Some (id_of u)
      | None => id_of <$> head users
      end
  end.

(* The tiers read literally: a field equals the query case-insensitively
   when the two strings are equal once lowered. *)
Definition ci_equal (field query : string) (item : json) : bool :=
  match Py.get item field (JStr EmptyString) with
  | Ok v => String.eqb (PyStr.lower (Py.str v)) (PyStr.lower query)
  | Raise _ => false
  end.

Definition literal_tie_break (users : list json) (user : string) : option json :=
  match List.find (ci_equal "email" user) users with
  | Some u => Some (id_of u)
  | None =>
      match List.find (ci_equal "name" user) users with
      | Some u => Some (id_of u)
      | None => id_of <$> head users
      end
  end.

Definition users_request (domain api_key : option string)
  (project_identifier : key) (user : string) : request :=
  get_req api_key (base_url domain +:+ "/" +:+ fmt project_identifier +:+ "/users")
    [("q", user)].

(* Two users, Al and Bob. *)
Definition demo_two_users : list json :=
  [JObj [("id", JInt 1); ("name", JStr "Al"); ("email", JStr "al@acme.example")];
   JObj [("id", JInt 2); ("name", JStr "Bob"); ("email", JStr "bob@acme.example")]].

(* No issue type of the listing has the (normalised) name target. *)
Definition no_type_named (target : string) (listing : list json) : Prop :=
  Forall (fun t => exists name, field_norm t "name" = Ok name /\ name <> target)
    listing.

Definition issue_types_request (domain api_key : option string)
  (project_identifier : key) : request :=
  get_req api_key
    (base_url domain +:+ "/" +:+ fmt project_identifier +:+ "/issue_types") [].

Definition project_issue_types_request (domain api_key : option string)
  (project_identifier : key) : request :=
  get_req api_key
    (base_url domain +:+ "/" +:+ fmt project_identifier +:+ "/project_issue_types") [].

(* The name fr_create_task resolves: `issue_type_name or "task"`. *)
Definition name_to_resolve_of (issue_type_name : option string) : string :=
  match issue_type_name with
  | Some s => if PyStr.truthy s then s else "task"
  | None => "task"
  end.

(* A remote whose only issue type is Task. *)
Definition demo_listing : list json := [JObj [("id", JInt 3); ("name", JStr "Task")]].

Definition demo_types_remote (log : list request) (r : request) : response :=
  Reply None (inl (JList demo_listing)).

(* A section as the code can handle it: an object whose parent_id is
   absent, None, an int, a bool or a str. Nothing is asked of the graph
   the parent references form. *)
Definition is_section_record (s : json) : bool :=
  match s with
  | JObj items =>
      match Py.lookup_item "parent_id" items with
      | None | Some JNull | Some (JInt _) | Some (JBool _) | Some (JStr _) => true
      | Some _ => false
      end
  | _ => false
  end.

(* The dict key of the parent of a section; None for a root. *)
Definition parent_key (s : json) : option (Z + string) :=
  match Py.get s "parent_id" JNull with
  | Ok parent_id =>
      if Py.is_none parent_id then None
      else match hash_key parent_id with Ok k => Some k | Raise _ => None end
  | Raise _ => None
  end.

(* The tests by which build_hierarchy sorts the sections. *)
Definition has_parent (k : Z + string) (s : json) : bool :=
  match parent_key s with
  | Some k' => bool_decide (k = k')
  | None => false
  end.

Definition is_root (s : json) : bool :=
  match parent_key s with Some _ => false | None => true end.

(* s is a root (parent = None) or a child of the section with id z. *)
Definition under (parent : option Z) (s : json) : bool :=
  match parent, parent_key s with
  | None, None => true
  | Some z, Some (inl z') => Z.eqb z z'
  | _, _ => false
  end.

(* The normalised name of the section is the lowered path segment. *)
Definition name_matches (segment : string) (s : json) : bool :=
  match field_norm s "name" with
  | Ok name => String.eqb name (PyStr.lower segment)
  | Raise _ => false
  end.

(* What one section adds to matching_sections. *)
Definition scan_step (segment : string) (final : bool) (g : Z -> list json)
  (s : json) : list json :=
  if name_matches segment s then
    match int_key (id_of s) with
    | Some z => if final then [id_of s] else g z
    | None => []
    end
  else [].

(* find_sections_by_path as a function on lists. *)
Fixpoint path_ids (hierarchy : gmap (Z + string) (list json))
  (sections_list : list json) (remaining_path : list string) : list json :=
  match remaining_path with
  | [] => List.filter Py.is_int (map id_of sections_list)
  | segment :: rest =>
      flat_map
        (fun s =>
           if name_matches segment s then
             match int_key (id_of s) with
             | Some z =>
                 match rest with
                 | [] => [id_of s]
                 | _ => path_ids hierarchy (children_of hierarchy (inl z)) rest
                 end
             | None => []
             end
           else [])
        sections_list
  end.

(* A branch of the section data along a path: one section per segment,
   the first a root, each next one a child of the one before, every one
   with an int id and with the name of its segment. *)
Fixpoint is_branch (sections : list json) (parent : option Z)
  (path : list string) (chain : list json) : Prop :=
  match path, chain with
  | [], [] => True
  | segment :: path', s :: chain' =>
      s ∈ sections /\ under parent s = true /\ name_matches segment s = true /\
      exists z, int_key (id_of s) = Some z /\ is_branch sections (Some z) path' chain'
  | _, _ => False
  end.

(* id is the id of the last section of a branch along the whole path. *)
Definition resolves_to (sections : list json) (path : list string) (id : json) : Prop :=
  exists chain s, is_branch sections None path chain /\
    last chain = Some s /\ id = id_of s.

(* A section whose parent_id is the id of no section. *)
Definition dangling (sections : list json) (s : json) : Prop :=
  exists k, parent_key s = Some k /\
    forall t z, t ∈ sections -> int_key (id_of t) = Some z -> k <> inl z.

Definition sections_request (domain api_key : option string)
  (project_identifier : key) : request :=
  get_req api_key (sections_url domain project_identifier) [].

(* A forest with one root A, two children of A both named B, and one
   child C under each B; section 9 hangs under a parent that does not
   exist, sections 7 and 8 are each other's parent. *)
Definition demo_section (id : Z) (name : string) (parent_id : json) : json :=
  JObj [("id", JInt id); ("name", JStr name); ("parent_id", parent_id)].

Definition demo_forest : list json :=
  [demo_section 1 "A" JNull;
   demo_section 2 "B" (JInt 1);
   demo_section 3 "B" (JInt 1);
   demo_section 4 "C" (JInt 2);
   demo_section 5 " c " (JInt 3);
   demo_section 7 "A" (JInt 8);
   demo_section 8 "B" (JInt 7);
   demo_section 9 "C" (JInt 42)].

Definition demo_sections_remote (log : list request) (r : request) : response :=
  Reply None (inl (JList demo_forest)).

(* From log to log' only GET requests were added. *)
Definition only_gets (log log' : list request) : Prop :=
  exists gets, log' = log ++ gets /\ Forall (fun r => mutating r = false) gets.

(* The paths were resolved one after the other, path number i giving the
   ids number i, from the log [log] to the log [log']. *)
Inductive paths_resolved (remote : list request -> request -> response)
  (domain api_key : option string) (project_identifier : key)
  : list request -> list string -> list (list json) -> list request -> Prop :=
| paths_nil log : paths_resolved remote domain api_key project_identifier log [] [] log
| paths_cons log path ids log1 paths idss log' :
    resolve_section_hierarchy_to_ids remote domain api_key project_identifier path log
    = (Ok ids, log1) ->
    paths_resolved remote domain api_key project_identifier log1 paths idss log' ->
    paths_resolved remote domain api_key project_identifier log (path :: paths)
      (ids :: idss) log'.

(* A project with the sections A (id 1) and, under it, B (id 5); every
   test case has the id 11. *)
Definition demo_testrun_remote (log : list request) (r : request) : response :=
  if String.eqb (url r) "https://acme.example/ENG/sections"
  then Reply None (inl (JList [demo_section 1 "A" JNull; demo_section 5 "B" (JInt 1)]))
  else Reply None (inl (JObj [("id", JInt 11)])).

(* A root section without a name, and a section B under it. *)
Definition demo_unnamed_root : list json :=
  [demo_section 1 EmptyString JNull; demo_section 2 "B" (JInt 1)].

Definition demo_unnamed_remote (log : list request) (r : request) : response :=
  Reply None (inl (JList demo_unnamed_root)).

(* The value of the query parameter `name` of a URL, read as the words
   "query parameter" say: the query is what follows the first '?', its
   parameters are separated by '&', and a parameter is name=value. *)
Fixpoint after_char (c : ascii) (s : string) : option string :=
  match s with
  | EmptyString => None
  | String c' s' => if Ascii.eqb c c' then Some s' else after_char c s'
  end.

Fixpoint strip_prefix (prefix s : string) : option string :=
  match prefix, s with
  | EmptyString, _ => Some s
  | String a prefix', String b s' =>
      if Ascii.eqb a b then strip_prefix prefix' s' else None
  | String _ _, EmptyString => None
  end.

Fixpoint first_param (name : string) (parameters : list string) : option string :=
  match parameters with
  | [] => None
  | p :: rest =>
      match strip_prefix (name +:+ "=") p with
      | Some value => Some value
      | None => first_param name rest
      end
  end.

Definition query_param (name url : string) : option string :=
  match after_char "?"%char url with
  | Some query => first_param name (PyStr.split "&"%char query)
  | None => None
  end.

(* <https://x/y?per_page=50&page=2>; rel="next" *)
Definition per_page_url : string := "https://x/y?per_page=50&page=2".
Definition per_page_header : string :=
  "<" +:+ per_page_url +:+ ">; rel=" +:+ quot +:+ "next" +:+ quot.

(* What a tool makes of the reply to its one request: the parsed body of a
   2xx reply; the dict of the HTTPStatusError handler for an error status,
   whose own call of json() raises when the error body is not JSON; the
   dict of the Exception handler for a transport fault and for a 2xx reply
   that is not JSON. *)
Definition answer_of (what_status what_other : string) (reply : response)
  : result json :=
  match reply with
  | NoReply _ msg => Ok (unexpected_dict what_other msg)
  | Reply (Some msg) parsed => status_error_dict what_status msg parsed
  | Reply None (inl data) => Ok data
  | Reply None (inr msg) => Ok (unexpected_dict what_other msg)
  end.

(* A configured tool that sends the one request r and answers with what
   its handlers make of the reply. *)
Definition wraps_request (remote : list request -> request -> response)
  (tool : io json) (r : request) (what_status : string) : Prop :=
  forall log,
    tool log
    = (answer_of what_status "An unexpected error occurred" (remote log r), log ++ [r]).

(* os.getenv gave nothing, or the empty string. *)
Definition unset (v : option string) : Prop := v = None \/ v = Some EmptyString.

(* From log to log' GET requests were added and then at most one
   mutating request, the last one. *)
Definition at_most_one_mutation (log log' : list request) : Prop :=
  exists gets,
    Forall (fun r => mutating r = false) gets /\
    (log' = log ++ gets \/
     exists r, mutating r = true /\ log' = log ++ gets ++ [r]).

(* isinstance(v, dict) *)
Definition is_object (v : json) : bool :=
  match v with JObj _ => true | _ => false end.

(* The ids fr_get_testcases_by_section keeps: the int ids of the sections
   whose normalised name is the normalised section_name, in the order of
   the listing, wherever the sections sit in the hierarchy. *)
Definition matched_ids_of (section_name : string) (sections : list json) : list json :=
  List.filter Py.is_int
    (map id_of (List.filter (name_matches (PyStr.strip section_name)) sections)).

(* What one test-case reply adds to all_results: `extend` for a list,
   `append` for anything else. *)
Definition contribution (data : json) : list json :=
  match data with JList l => l | _ => [data] end.

(* The requests were sent one after the other from the log [log], each
   was answered 2xx with JSON, and [log'] is the log after the last. *)
Inductive fetched_all (remote : list request -> request -> response)
  : list request -> list request -> list json -> list request -> Prop :=
| fetched_nil log : fetched_all remote log [] [] log
| fetched_cons log r data reqs datas log' :
    remote log r = Reply None (inl data) ->
    fetched_all remote (log ++ [r]) reqs datas log' ->
    fetched_all remote log (r :: reqs) (data :: datas) log'.

(* The sections of demo_forest, with test cases under the sections 2 (a
   list of two) and 3 (a single object, not in a list). *)
Definition demo_by_section_remote (log : list request) (r : request) : response :=
  if String.eqb (url r) "https://acme.example/ENG/sections"
  then Reply None (inl (JList demo_forest))
  else match params r with
       | [(_, "2")] => Reply None (inl (JList [JInt 21; JInt 22]))
       | [(_, "3")] => Reply None (inl (JObj [("id", JInt 31)]))
       | _ => Reply None (inl (JList []))
       end.

(* A listing with an element that is not an object. *)
Definition demo_broken_listing_remote (log : list request) (r : request) : response :=
  Reply None (inl (JList [demo_section 1 "A" JNull; JStr "oops"; demo_section 2 "B" JNull])).

(* The outcome of one resolution step of fr_create_task on the payload p:
   the tool ends (with an exception or with a dict), or it goes on with
   the non-None value v stored under the key k. *)
Definition step_outcome (k : string) (p : list (string * json))
  (o : result (json + list (string * json))) : Prop :=
  (exists e, o = Raise e) \/ (exists out, o = Ok (inl out)) \/
  (exists v, Py.is_none v = false /\ o = Ok (inr (Py.set_item k v p))).

(* The entry a segment of the Link header carries: its relation name and
   its page number, when both patterns are found in it. *)
Definition link_entry (link : string) : option (string * Z) :=
  match Re.search Re.link_re link with
  | Some [url; rel] =>
      match Re.search Re.page_re url with
      | Some [digits] => Some (rel, PyStr.int_of_digits digits)
      | _ => None
      end
  | _ => None
  end.

(* The page number of the last segment that carries the relation rel. *)
Definition last_page (rel : string) (links : list string) : option Z :=
  snd <$> List.find (fun e => String.eqb (fst e) rel) (rev (omap link_entry links)).

(* Every character of s is a decimal digit. *)
Definition all_digits (s : string) : Prop :=
  Forall (fun c => PyStr.is_digit c = true) (list_ascii_of_string s).

(* A listing with two issue types named Task (ids 3 and 8), after a Bug
   and before an element that is not an object. *)
Definition demo_duplicate_types_remote (log : list request) (r : request) : response :=
  Reply None (inl (JList [JObj [("id", JInt 1); ("name", JStr "Bug")];
                          JObj [("id", JInt 3); ("name", JStr "Task")];
                          JObj [("id", JInt 8); ("name", JStr "task ")];
                          JStr "oops"])).

(* str(data["id"]) of a reply that is an object with an id. *)
Definition id_string (data : json) : option string :=
  match data with
  | JObj items => Py.str <$> Py.lookup_item "id" items
  | _ => None
  end.

(* What fr_add_testcases_to_testrun answers when the reply to the GET of
   the test-case key k gives no id; None when the reply gives one. *)
Definition testrun_key_error (k : key) (reply : response) : option (result json) :=
  match reply with
  | Reply None (inl data) =>
      match id_string data with
      | Some _ => None
      | None =>
          Some (Ok (JObj [("error",
                           JStr ("Unexpected test case response structure for key '"
                                 +:+ fmt k +:+ "'"));
                          ("details", data)]))
      end
  | _ =>
      Some (answer_of
              ("Failed to resolve test case key '" +:+ fmt k +:+ "'")
              ("An unexpected error occurred while resolving test case key '"
               +:+ fmt k +:+ "'")
              reply)
  end.

(* A project in which the test case TC-2 does not exist, and the id of
   TC-1 is not a number. *)
Definition demo_missing_testcase_remote (log : list request) (r : request) : response :=
  if String.eqb (url r) "https://acme.example/ENG/test_cases/TC-2"
  then Reply (Some "404 Not Found") (inl (JObj [("message", JStr "no such test case")]))
  else Reply None (inl (JObj [("id", JStr "abc")])).

(* An answer that reports a failure: an exception that escapes the tool,
   or a dict with the key "error". *)
Definition reports_error (answer : result json) : Prop :=
  match answer with
  | Raise _ => True
  | Ok (JObj items) => Py.has_key "error" items = true
  | Ok _ => False
  end.

(* A step of a tool that only sends GETs and whose early return, if it
   makes one, reports a failure. *)
Definition careful_step {X : Type} (log : list request)
  (res : result (json + X) * list request) : Prop :=
  only_gets log (snd res) /\
  match fst res with
  | Ok (inl out) => reports_error (Ok out)
  | _ => True
  end.

(* One tier of the user resolver: the id of the first user whose
   normalised field is the lowered query, None (JNull) without such a
   user. *)
Definition tier_id (field lowered : string) (users : list json) : json :=
  match List.find (field_matches field lowered) users with
  | Some u => id_of u
  | None => JNull
  end.

(* The id the user resolver chooses from the search result: the id of
   the email tier unless it is None, else the id of the name tier unless
   it is None, else the id of the first element. *)
Definition chosen_id (users : list json) (user : string) : json :=
  let lowered := PyStr.lower (PyStr.strip user) in
  let by_email := tier_id "email" lowered users in
  if negb (Py.is_none by_email) then by_email
  else
    let by_name := tier_id "name" lowered users in
    if negb (Py.is_none by_name) then by_name
    else match users with
         | u0 :: _ => id_of u0
         | [] => JNull
         end.

(* The reply to the user search gives the id c for the query: it is a
   2xx reply with a non-empty JSON list, from which c, not None, is
   chosen. *)
Definition user_resolved (reply : response) (user : string) (c : json) : Prop :=
  exists users,
    reply = Reply None (inl (JList users)) /\ users <> [] /\
    c = chosen_id users user /\ Py.is_none c = false.

(* The reply to the listing of issue types gives the id v for the name:
   it is a 2xx reply with a JSON object whose "issue_types" is a list, and
   v, not None, is the id of the first issue type of the list whose
   normalised name is the normalised name. *)
Definition issue_type_resolved (reply : response) (name : string) (v : json) : Prop :=
  exists fields before t after,
    reply = Reply None (inl (JObj fields)) /\
    Py.lookup_item "issue_types" fields = Some (JList (before ++ t :: after)) /\
    no_type_named (PyStr.lower (PyStr.strip name)) before /\
    name_matches (PyStr.strip name) t = true /\
    v = id_of t /\ Py.is_none v = false.


(* ===================================================================== *)
(* Properties                                                             *)
(* ===================================================================== *)

(* --------------------------------------------------------------------- *)
(* The pagination decoder                                                 *)
(* --------------------------------------------------------------------- *)

Section Quantifiers.

Variable k : Re.cls.
Variable cont : string -> option (list string).
Variable n : nat.
Hypothesis cont_groups : forall s gs, cont s = Some gs -> length gs = n.

Lemma lazy_plus_groups s : forall acc gs,
  Re.lazy_plus k cont s acc = Some gs -> length gs = S n.
Proof.
  induction s as [|c s IHs]; intros acc gs H; simpl in H; [discriminate|].
  destruct (Re.in_cls k c); [|discriminate].
  destruct (cont s) as [gs'|] eqn:E.
  - injection H as <-. simpl. f_equal. apply (cont_groups _ _ E).
  - apply (IHs _ _ H).
Qed.

Lemma greedy_plus_groups s : forall acc gs,
  Re.greedy_plus k cont s acc = Some gs -> length gs = S n.
Proof.
  induction s as [|c s IHs]; intros acc gs H; simpl in H; [discriminate|].
  destruct (Re.in_cls k c); [|discriminate].
  destruct (Re.greedy_plus k cont s (Re.snoc acc c)) as [gs'|] eqn:E.
  - injection H as <-. apply (IHs _ _ E).
  - destruct (cont s) as [gs'|] eqn:E'; [|discriminate].
    injection H as <-. simpl. f_equal. apply (cont_groups _ _ E').
Qed.

Lemma greedy_star_groups s : forall gs,
  Re.greedy_star k cont s = Some gs -> length gs = n.
Proof.
  induction s as [|c s IHs]; intros gs H; simpl in H.
  - apply (cont_groups _ _ H).
  - destruct (Re.in_cls k c).
    + destruct (Re.greedy_star k cont s) as [gs'|] eqn:E.
      * injection H as <-. apply (IHs _ eq_refl).
      * apply (cont_groups _ _ H).
    + apply (cont_groups _ _ H).
Qed.

End Quantifiers.

Lemma match_here_groups p : forall s gs,
  Re.match_here p s = Some gs -> length gs = Re.groups p.
Proof.
  induction p as [|a p IH]; intros s gs H.
  - simpl in H. injection H as <-. reflexivity.
  - destruct a as [c|k|k|k]; simpl in H |- *.
    + destruct s as [|c' s']; [discriminate|].
      destruct (Ascii.eqb c c'); [|discriminate]. apply (IH _ _ H).
    + apply (lazy_plus_groups k _ _ IH _ _ _ H).
    + apply (greedy_plus_groups k _ _ IH _ _ _ H).
    + apply (greedy_star_groups k _ _ IH _ _ H).
Qed.

Lemma search_groups p : forall s gs,
  Re.search p s = Some gs -> length gs = Re.groups p.
Proof.
  induction s as [|c s IHs]; intros gs H; simpl in H.
  - destruct (Re.match_here p EmptyString) eqn:E; [|discriminate].
    injection H as <-. apply (match_here_groups _ _ _ E).
  - destruct (Re.match_here p (String c s)) eqn:E.
    + injection H as <-. apply (match_here_groups _ _ _ E).
    + apply (IHs _ H).
Qed.

Lemma link_re_two_groups link gs :
  Re.search Re.link_re link = Some gs -> exists url rel, gs = [url; rel].
Proof.
  intros H. apply search_groups in H.
  destruct gs as [|url [|rel [|x gs]]]; try discriminate. eauto.
Qed.

Lemma page_re_one_group url gs :
  Re.search Re.page_re url = Some gs -> exists digits, gs = [digits].
Proof.
  intros H. apply search_groups in H.
  destruct gs as [|digits [|x gs]]; try discriminate. eauto.
Qed.

(* What one segment of the header does to the record. *)
Lemma parse_link_cases (pagination : gmap string (option Z)) link :
  match Re.search Re.link_re link with
  | None => parse_link pagination link = pagination
  | Some gs =>
      exists url rel, gs = [url; rel] /\
        match Re.search Re.page_re url with
        | None => parse_link pagination link = pagination
        | Some ds =>
            exists digits, ds = [digits] /\
              parse_link pagination link
              = <[rel := Some (PyStr.int_of_digits digits)]> pagination
        end
  end.
Proof.
  unfold parse_link.
  destruct (Re.search Re.link_re link) as [gs|] eqn:E; [|reflexivity].
  destruct (link_re_two_groups _ _ E) as (url & rel & ->).
  exists url, rel. split; [reflexivity|].
  destruct (Re.search Re.page_re url) as [ds|] eqn:E'; [|reflexivity].
  destruct (page_re_one_group _ _ E') as (digits & ->).
  exists digits. split; reflexivity.
Qed.

Lemma parse_link_keeps_key (pagination : gmap string (option Z)) link k :
  is_Some (pagination !! k) -> is_Some (parse_link pagination link !! k).
Proof.
  intros Hk. pose proof (parse_link_cases pagination link) as H.
  destruct (Re.search Re.link_re link) as [gs|]; [|by rewrite H].
  destruct H as (url & rel & _ & H).
  destruct (Re.search Re.page_re url) as [ds|]; [|by rewrite H].
  destruct H as (digits & _ & ->).
  destruct (decide (rel = k)) as [->|Hne].
  - rewrite lookup_insert_eq. eauto.
  - by rewrite lookup_insert_ne.
Qed.

Lemma fold_parse_link_keeps_key links : forall (pagination : gmap string (option Z)) k,
  is_Some (pagination !! k) ->
  is_Some (fold_left parse_link links pagination !! k).
Proof.
  induction links as [|link links IH]; intros pagination k Hk; simpl; [done|].
  apply IH. by apply parse_link_keeps_key.
Qed.

(* parse_link_header splits the header on commas and folds the
    segments, from left to right, into a record that starts as
    {next: None, prev: None}. A segment in which the pattern
    <url>; rel="name" is not found, or whose url has no page=<digits>,
    leaves the record as it is; any other segment stores the page number
    under its relation name. The function is total (no header raises),
    the keys next and prev are present in every result, the empty header
    gives {next: None, prev: None}, and the header
    <https://x/y?page=2>; rel="next", <https://x/y?page=1>; rel="prev"
    gives {next: 2, prev: 1}. *)
Lemma parse_link_header_decodes :
  parse_link_header EmptyString = empty_record
  /\ parse_link_header example_header
     = <["prev" := Some 1]> (<["next" := Some 2]> ∅)
  /\ (forall link_header,
        parse_link_header link_header
        = fold_left parse_link
            (if PyStr.truthy link_header then PyStr.split ","%char link_header else [])
            empty_record
        /\ is_Some (parse_link_header link_header !! "next")
        /\ is_Some (parse_link_header link_header !! "prev"))
  /\ (forall (pagination : gmap string (option Z)) link,
        match Re.search Re.link_re link with
        | None => parse_link pagination link = pagination
        | Some gs =>
            exists url rel, gs = [url; rel] /\
              match Re.search Re.page_re url with
              | None => parse_link pagination link = pagination
              | Some ds =>
                  exists digits, ds = [digits] /\
                    parse_link pagination link
                    = <[rel := Some (PyStr.int_of_digits digits)]> pagination
              end
        end).
Proof.
  split; [reflexivity|].
  split; [vm_compute; reflexivity|].
  split; [|apply parse_link_cases].
  intros h.
  assert (Heq : parse_link_header h
                = fold_left parse_link
                    (if PyStr.truthy h then PyStr.split ","%char h else [])
                    empty_record).
  { unfold parse_link_header. destruct (PyStr.truthy h); reflexivity. }
  split; [exact Heq|].
  rewrite Heq.
  split; apply fold_parse_link_keeps_key; unfold empty_record.
  - rewrite lookup_insert_ne by done. rewrite lookup_insert_eq. eauto.
  - rewrite lookup_insert_eq. eauto.
Qed.

(** C9: where the code departs from the specification. The page number is taken
    by re.search(r'page=(\d+)', url), which finds the first "page="
    anywhere in the URL, also at the end of another parameter's name. For
    the header <https://x/y?per_page=50&page=2>; rel="next" the page
    query parameter of the URL is 2, and parse_link_header gives
    {next: 50, prev: None}. *)
Theorem parse_link_header_per_page :
  query_param "page" per_page_url = Some "2"
  /\ Re.search Re.link_re per_page_header = Some [per_page_url; "next"]
  /\ Re.search Re.page_re per_page_url = Some ["50"]
  /\ parse_link_header per_page_header
     = <["prev" := None]> (<["next" := Some 50]> ∅).
Proof.
  split; [reflexivity|]. split; [reflexivity|]. split; [reflexivity|].
  vm_compute. reflexivity.
Qed.

(* --------------------------------------------------------------------- *)
(* Key-to-id batch resolution                                             *)
(* --------------------------------------------------------------------- *)

Section Batch.

Variable remote : list request -> request -> response.

Lemma fetch_run r log :
  fetch remote r log
  = (match remote log r with
     | NoReply cls msg => Raise (Other cls msg)
     | Reply status parsed =>
         (_ <- raise_for_status status parsed ;;
          data <- response_json parsed ;;
          Ok (data, parsed))%res
     end, log ++ [r]).
Proof.
  unfold fetch, bind, send, lift, ret.
  destruct (remote log r) as [cls msg|status parsed]; [reflexivity|].
  simpl. destruct status; simpl; [reflexivity|].
  destruct parsed; reflexivity.
Qed.

Lemma resolve_one_run what r log :
  bind (fetch remote r) (fun d => lift (id_of_data what (fst d) (snd d))) log
  = (reply_id what (remote log r), log ++ [r]).
Proof.
  unfold bind. rewrite fetch_run. unfold reply_id, lift.
  destruct (remote log r) as [cls msg|status parsed]; [reflexivity|].
  destruct status; simpl; [reflexivity|].
  destruct parsed; reflexivity.
Qed.

(* A loop that resolves the keys one by one, appending to `resolved`. *)
Variable what : string.
Variable req_of : key -> request.
Variable loop : list key -> list Z -> io (list Z).
Hypothesis loop_nil : forall acc log, loop [] acc log = (Ok acc, log).
Hypothesis loop_cons : forall k rest acc log,
  loop (k :: rest) acc log
  = match reply_id what (remote log (req_of k)) with
    | Ok id => loop rest (acc ++ [id]) (log ++ [req_of k])
    | Raise e => (Raise e, log ++ [req_of k])
    end.

Lemma loop_ok keys : forall acc log ids log',
  loop keys acc log = (Ok ids, log') ->
  log' = log ++ map req_of keys /\
  exists new, ids = acc ++ new /\ length new = length keys /\
    forall i k, keys !! i = Some k ->
      exists id, new !! i = Some id /\
        reply_id what (remote (log ++ map req_of (take i keys)) (req_of k)) = Ok id.
Proof.
  induction keys as [|k0 keys IH]; intros acc log ids log' H.
  - rewrite loop_nil in H. injection H as <- <-.
    split; [by rewrite app_nil_r|].
    exists []. split; [by rewrite app_nil_r|]. split; [done|].
    intros i k Hk. by rewrite lookup_nil in Hk.
  - rewrite loop_cons in H.
    destruct (reply_id what (remote log (req_of k0))) as [id0|e0] eqn:E0;
      [|discriminate].
    apply IH in H as (-> & new & -> & Hlen & Hall).
    split; [by rewrite <- app_assoc|].
    exists (id0 :: new). split; [by rewrite <- app_assoc|].
    split; [simpl; by rewrite Hlen|].
    intros [|i] k Hk; simpl in Hk |- *.
    + injection Hk as <-. exists id0. by rewrite app_nil_r.
    + destruct (Hall i k Hk) as (id & Hid & Hr).
      exists id. split; [done|]. by rewrite <- app_assoc in Hr.
Qed.

Lemma loop_raise keys : forall acc log e log',
  loop keys acc log = (Raise e, log') ->
  exists i k, keys !! i = Some k /\
    reply_id what (remote (log ++ map req_of (take i keys)) (req_of k)) = Raise e /\
    log' = log ++ map req_of (take (S i) keys) /\
    forall j kj, (j < i)%nat -> keys !! j = Some kj ->
      exists id,
        reply_id what (remote (log ++ map req_of (take j keys)) (req_of kj)) = Ok id.
Proof.
  induction keys as [|k0 keys IH]; intros acc log e log' H.
  - rewrite loop_nil in H. discriminate.
  - rewrite loop_cons in H.
    destruct (reply_id what (remote log (req_of k0))) as [id0|e0] eqn:E0.
    + apply IH in H as (i & k & Hk & Hr & -> & Hbefore).
      exists (S i), k. split; [done|].
      split; [simpl; by rewrite <- app_assoc in Hr|].
      split; [simpl; by rewrite <- app_assoc|].
      intros [|j] kj Hj Hkj; simpl in Hkj |- *.
      * injection Hkj as <-. exists id0. by rewrite app_nil_r.
      * destruct (Hbefore j kj ltac:(lia) Hkj) as (id & Hid).
        exists id. by rewrite <- app_assoc in Hid.
    + injection H as <- <-.
      exists O, k0. split; [done|]. simpl. rewrite app_nil_r.
      split; [done|]. split; [done|]. intros j kj Hj. lia.
Qed.

End Batch.

Section KeyResolvers.

Variable remote : list request -> request -> response.
Variable domain api_key : option string.
Variable project_identifier : key.

Local Abbreviation issue_req := (issue_request domain api_key project_identifier).
Local Abbreviation testcase_req := (testcase_request domain api_key project_identifier).

(* What the code computes from a reply is what the reply gives. *)
Lemma reply_id_gives what r id : reply_id what r = Ok id -> gives_id r id.
Proof.
  destruct r as [cls msg|[status_msg|] [data|json_msg]]; try discriminate.
  cbn [reply_id raise_for_status response_json rbind].
  destruct data as [| | | | |items]; try discriminate.
  cbn [id_of_data]. destruct (Py.lookup_item "id" items) as [v|] eqn:Hv;
    [|discriminate].
  intros Hint. by exists items, v.
Qed.

Lemma reply_id_fails what r e : reply_id what r = Raise e -> fails_with what r e.
Proof.
  destruct r as [cls msg|[status_msg|] [data|json_msg]];
    cbn [reply_id raise_for_status response_json rbind].
  - intros [= <-]. constructor.
  - intros [= <-]. constructor.
  - intros [= <-]. constructor.
  - destruct data as [| | | | |items]; cbn [id_of_data];
      try (intros [= <-]; by constructor).
    destruct (Py.lookup_item "id" items) as [v|] eqn:Hv.
    + intros Hint. by eapply fails_bad_id.
    + intros [= <-]. by constructor.
  - intros [= <-]. constructor.
Qed.

Lemma resolved_in_order_of_loop what (req_of : key -> request) log keys
  (ids : list Z) :
  length ids = length keys ->
  (forall i k, keys !! i = Some k ->
     exists id, ids !! i = Some id /\
       reply_id what (remote (log ++ map req_of (take i keys)) (req_of k)) = Ok id) ->
  resolved_in_order remote what log (map req_of keys) ids.
Proof.
  intros Hlen Hall. split; [by rewrite length_map|].
  intros i r Hr. rewrite list_lookup_fmap in Hr.
  destruct (keys !! i) as [k|] eqn:Hk; [|discriminate].
  injection Hr as <-. rewrite <- fmap_take.
  destruct (Hall i k Hk) as (id & Hid & Hreply).
  exists id. split; [done|]. by eapply reply_id_gives.
Qed.

Lemma first_failure_of_loop what (req_of : key -> request) log keys i k e :
  keys !! i = Some k ->
  reply_id what (remote (log ++ map req_of (take i keys)) (req_of k)) = Raise e ->
  (forall j kj, (j < i)%nat -> keys !! j = Some kj ->
     exists id,
       reply_id what (remote (log ++ map req_of (take j keys)) (req_of kj)) = Ok id) ->
  first_failure remote what log (map req_of keys) i e.
Proof.
  intros Hk Hr Hbefore. split.
  - exists (req_of k). rewrite list_lookup_fmap, Hk. split; [done|].
    rewrite <- fmap_take. by apply reply_id_fails.
  - intros j r Hj Hjr. rewrite list_lookup_fmap in Hjr.
    destruct (keys !! j) as [kj|] eqn:Hkj; [|discriminate].
    injection Hjr as <-. rewrite <- fmap_take.
    destruct (Hbefore j kj Hj Hkj) as (id & Hreply).
    exists id. by eapply reply_id_gives.
Qed.

Lemma issue_loop_cons k rest acc log :
  issue_ids_loop remote domain api_key project_identifier (k :: rest) acc log
  = match reply_id issue_what (remote log (issue_req k)) with
    | Ok id =>
        issue_ids_loop remote domain api_key project_identifier rest (acc ++ [id])
          (log ++ [issue_req k])
    | Raise e => (Raise e, log ++ [issue_req k])
    end.
Proof.
  simpl. unfold bind at 1. rewrite fetch_run. fold (issue_req k).
  unfold reply_id, issue_what.
  destruct (remote log (issue_req k)) as [cls msg|status parsed]; [reflexivity|].
  destruct status; simpl; [reflexivity|].
  destruct parsed as [data|msg]; simpl; [|reflexivity].
  unfold bind, lift. simpl.
  destruct (id_of_data _ data (inl data)); reflexivity.
Qed.

Lemma testcase_loop_cons k rest acc log :
  testcase_ids_loop remote domain api_key project_identifier (k :: rest) acc log
  = match reply_id testcase_what (remote log (testcase_req k)) with
    | Ok id =>
        testcase_ids_loop remote domain api_key project_identifier rest (acc ++ [id])
          (log ++ [testcase_req k])
    | Raise e => (Raise e, log ++ [testcase_req k])
    end.
Proof.
  simpl. unfold bind at 1. unfold testcase_id_from_key.
  rewrite resolve_one_run. fold (testcase_req k). fold testcase_what.
  destruct (reply_id testcase_what (remote log (testcase_req k))); reflexivity.
Qed.

(* issue_ids_from_keys, when it returns. *)
Lemma issue_ids_ok issue_keys log ids log' :
  issue_ids_from_keys remote domain api_key project_identifier issue_keys log
  = (Ok ids, log') ->
  log' = log ++ map issue_req issue_keys /\
  resolved_in_order remote issue_what log (map issue_req issue_keys) ids.
Proof.
  intros H.
  destruct (loop_ok remote issue_what issue_req
              (issue_ids_loop remote domain api_key project_identifier)
              (fun _ _ => eq_refl) issue_loop_cons _ _ _ _ _ H)
    as (-> & new & -> & Hlen & Hall).
  split; [done|]. by apply resolved_in_order_of_loop.
Qed.

(* issue_ids_from_keys, when it raises. *)
Lemma issue_ids_raise issue_keys log e log' :
  issue_ids_from_keys remote domain api_key project_identifier issue_keys log
  = (Raise e, log') ->
  exists i, first_failure remote issue_what log (map issue_req issue_keys) i e /\
    log' = log ++ take (S i) (map issue_req issue_keys).
Proof.
  intros H.
  destruct (loop_raise remote issue_what issue_req
              (issue_ids_loop remote domain api_key project_identifier)
              (fun _ _ => eq_refl) issue_loop_cons _ _ _ _ _ H)
    as (i & k & Hk & Hr & -> & Hbefore).
  exists i. split; [by eapply first_failure_of_loop|]. by rewrite fmap_take.
Qed.

Lemma testcase_ids_ok testcase_keys log ids log' :
  testcase_ids_loop remote domain api_key project_identifier testcase_keys [] log
  = (Ok ids, log') ->
  log' = log ++ map testcase_req testcase_keys /\
  resolved_in_order remote testcase_what log (map testcase_req testcase_keys) ids.
Proof.
  intros H.
  destruct (loop_ok remote testcase_what testcase_req
              (testcase_ids_loop remote domain api_key project_identifier)
              (fun _ _ => eq_refl) testcase_loop_cons _ _ _ _ _ H)
    as (-> & new & -> & Hlen & Hall).
  split; [done|]. by apply resolved_in_order_of_loop.
Qed.

Lemma testcase_ids_raise testcase_keys log e log' :
  testcase_ids_loop remote domain api_key project_identifier testcase_keys [] log
  = (Raise e, log') ->
  exists i, first_failure remote testcase_what log (map testcase_req testcase_keys) i e /\
    log' = log ++ take (S i) (map testcase_req testcase_keys).
Proof.
  intros H.
  destruct (loop_raise remote testcase_what testcase_req
              (testcase_ids_loop remote domain api_key project_identifier)
              (fun _ _ => eq_refl) testcase_loop_cons _ _ _ _ _ H)
    as (i & k & Hk & Hr & -> & Hbefore).
  exists i. split; [by eapply first_failure_of_loop|]. by rewrite fmap_take.
Qed.

End KeyResolvers.

Section LinkTool.

Variable remote : list request -> request -> response.
Variable domain api_key : option string.
Variable project_identifier : key.
Hypothesis configured : not_configured domain api_key = false.

Local Abbreviation issue_req := (issue_request domain api_key project_identifier).
Local Abbreviation testcase_req := (testcase_request domain api_key project_identifier).

Lemma get_requests_not_mutating (req_of : key -> request) keys n :
  (forall k, mutating (req_of k) = false) ->
  Forall (fun r => mutating r = false) (take n (map req_of keys)).
Proof.
  intros Hget. apply Forall_take, Forall_forall.
  intros r Hr. apply list_elem_of_fmap in Hr as (k & -> & _). apply Hget.
Qed.

(* The tool, unfolded along its three steps. *)
Lemma link_run testcase_keys issue_keys log :
  fr_link_testcase_issues remote domain api_key project_identifier
    testcase_keys issue_keys log
  = match testcase_ids_loop remote domain api_key project_identifier
            testcase_keys [] log with
    | (Raise e, log1) => (handled link_what_status link_what_other e, log1)
    | (Ok tids, log1) =>
        match issue_ids_from_keys remote domain api_key project_identifier
                issue_keys log1 with
        | (Raise e, log2) => (handled link_what_status link_what_other e, log2)
        | (Ok iids, log2) =>
            let put := link_request domain api_key project_identifier tids iids in
            (match fetch remote put log2 with
             | (Ok d, _) => Ok (fst d)
             | (Raise e, _) => handled link_what_status link_what_other e
             end, log2 ++ [put])
        end
    end.
Proof.
  unfold fr_link_testcase_issues. rewrite configured.
  unfold try_except, bind at 1.
  destruct (testcase_ids_loop _ _ _ _ _ _ log) as [[tids|e] log1]; [|reflexivity].
  unfold bind at 1.
  destruct (issue_ids_from_keys _ _ _ _ _ log1) as [[iids|e] log2]; [|reflexivity].
  unfold bind. rewrite fetch_run.
  destruct (remote log2 _) as [cls msg|status parsed]; [reflexivity|].
  destruct status; simpl; [reflexivity|].
  destruct parsed; reflexivity.
Qed.

(** C1: the batch resolvers and the tool built on them.
    issue_ids_from_keys (and likewise the loop over testcase_id_from_key)
    sends one GET per key, in input order. When it returns, its list of
    ids has one id per key, at the position of the key, each being
    int(data["id"]) of the 2xx JSON object that answers that key's GET.
    When it does not return it raises the failure of the first key whose
    resolution fails (transport fault, error status, body that is not
    JSON, JSON that is not an object or has no "id", an id that int()
    rejects), having sent no request for a later key; the raised
    exception is all the caller gets, so no id resolved before is handed
    over. fr_link_testcase_issues issues its PUT only
    after both resolutions returned, with the two id lists in key order;
    when a key fails, the tool answers with what its handlers make of
    that failure and every request it has issued is a GET. *)
Theorem batch_resolution_fail_fast testcase_keys issue_keys log :
  let treqs := map testcase_req testcase_keys in
  let ireqs := map issue_req issue_keys in
  (forall ids log',
     issue_ids_from_keys remote domain api_key project_identifier issue_keys log
     = (Ok ids, log') ->
     log' = log ++ ireqs /\ resolved_in_order remote issue_what log ireqs ids)
  /\ (forall e log',
        issue_ids_from_keys remote domain api_key project_identifier issue_keys log
        = (Raise e, log') ->
        exists i, first_failure remote issue_what log ireqs i e /\
          log' = log ++ take (S i) ireqs)
  /\ (forall ids log',
        testcase_ids_loop remote domain api_key project_identifier testcase_keys [] log
        = (Ok ids, log') ->
        log' = log ++ treqs /\ resolved_in_order remote testcase_what log treqs ids)
  /\ (forall e log',
        testcase_ids_loop remote domain api_key project_identifier testcase_keys [] log
        = (Raise e, log') ->
        exists i, first_failure remote testcase_what log treqs i e /\
          log' = log ++ take (S i) treqs)
  /\ (forall out log',
        fr_link_testcase_issues remote domain api_key project_identifier
          testcase_keys issue_keys log = (out, log') ->
        (exists tids iids,
            resolved_in_order remote testcase_what log treqs tids /\
            resolved_in_order remote issue_what (log ++ treqs) ireqs iids /\
            log' = log ++ treqs ++ ireqs
                   ++ [link_request domain api_key project_identifier tids iids])
        \/ (exists i e,
              first_failure remote testcase_what log treqs i e /\
              out = handled link_what_status link_what_other e /\
              log' = log ++ take (S i) treqs /\
              Forall (fun r => mutating r = false) (take (S i) treqs))
        \/ (exists tids i e,
              resolved_in_order remote testcase_what log treqs tids /\
              first_failure remote issue_what (log ++ treqs) ireqs i e /\
              out = handled link_what_status link_what_other e /\
              log' = log ++ treqs ++ take (S i) ireqs /\
              Forall (fun r => mutating r = false) (treqs ++ take (S i) ireqs))).
Proof.
  intros treqs ireqs.
  split; [intros ids log'; apply issue_ids_ok|].
  split; [intros e log'; apply issue_ids_raise|].
  split; [intros ids log'; apply testcase_ids_ok|].
  split; [intros e log'; apply testcase_ids_raise|].
  intros out log' H. rewrite link_run in H.
  destruct (testcase_ids_loop _ _ _ _ _ _ log) as [[tids|e] log1] eqn:Et.
  - apply testcase_ids_ok in Et as [-> Ht].
    destruct (issue_ids_from_keys _ _ _ _ _ _) as [[iids|e] log2] eqn:Ei.
    + apply issue_ids_ok in Ei as [-> Hi].
      left. exists tids, iids. injection H as _ <-.
      split; [done|]. split; [done|]. by rewrite <- !app_assoc.
    + apply issue_ids_raise in Ei as (i & Hi & ->).
      right; right. exists tids, i, e. injection H as <- <-.
      split; [done|]. split; [done|]. split; [done|].
      split; [by rewrite <- app_assoc|].
      apply Forall_app. split.
      * rewrite <- (firstn_all treqs). unfold treqs.
        by apply get_requests_not_mutating.
      * by apply get_requests_not_mutating.
  - apply testcase_ids_raise in Et as (i & Hi & ->).
    right; left. exists i, e. injection H as <- <-.
    split; [done|]. split; [done|]. split; [done|].
    by apply get_requests_not_mutating.
Qed.

End LinkTool.

Lemma batch_resolution_fail_fast_witness :
  not_configured demo_domain demo_api_key = false /\
  exists i e,
    first_failure demo_remote issue_what []
      (map (issue_request demo_domain demo_api_key (KStr "ENG"))
         [KStr "A"; KStr "B"; KStr "C"]) i e /\
    i = 1%nat /\
    e = HTTPStatusError "404 Not Found" (inl (JObj [("message", JStr "no such issue")])).
Proof.
  split; [reflexivity|].
  destruct (batch_resolution_fail_fast demo_remote demo_domain demo_api_key
              (KStr "ENG") eq_refl [KInt 7] [KStr "A"; KStr "B"; KStr "C"] [])
    as (_ & Hraise & _).
  destruct (Hraise
              (HTTPStatusError "404 Not Found"
                 (inl (JObj [("message", JStr "no such issue")])))
              (map (issue_request demo_domain demo_api_key (KStr "ENG"))
                 [KStr "A"; KStr "B"])
              eq_refl) as (i & Hi & Hlog).
  exists i. eexists. split; [exact Hi|]. split; [|reflexivity].
  apply (f_equal (@length request)) in Hlog.
  rewrite length_app, length_take in Hlog. simpl in Hlog. lia.
Defined.

(* --------------------------------------------------------------------- *)
(* Dict items                                                             *)
(* --------------------------------------------------------------------- *)

Lemma lookup_set_item k k' v items :
  Py.lookup_item k' (Py.set_item k v items)
  = if String.eqb k' k then Some v else Py.lookup_item k' items.
Proof.
  induction items as [|[k0 v0] items IH]; simpl.
  - destruct (String.eqb k' k); reflexivity.
  - destruct (String.eqb k k0) eqn:E; simpl.
    + apply String.eqb_eq in E as <-.
      destruct (String.eqb k' k); reflexivity.
    + destruct (String.eqb k' k0) eqn:E'.
      * apply String.eqb_eq in E' as ->.
        rewrite String.eqb_sym, E. reflexivity.
      * exact IH.
Qed.

Lemma lookup_item_app k (l1 l2 : list (string * json)) :
  Py.lookup_item k (l1 ++ l2)
  = match Py.lookup_item k l1 with
    | Some v => Some v
    | None => Py.lookup_item k l2
    end.
Proof.
  induction l1 as [|[k0 v0] l1 IH]; simpl; [reflexivity|].
  destruct (String.eqb k k0); [reflexivity|exact IH].
Qed.

Lemma lookup_item_not_in k (items : list (string * json)) :
  k ∉ map fst items -> Py.lookup_item k items = None.
Proof.
  induction items as [|[k0 v0] items IH]; simpl; intros Hk; [reflexivity|].
  destruct (String.eqb k k0) eqn:E.
  - apply String.eqb_eq in E as ->. exfalso. apply Hk. left.
  - apply IH. intros Hin. apply Hk. by right.
Qed.

(* In the items of a dict (distinct keys) every entry is found, from
   either end. *)
Lemma lookup_item_rev_NoDup k v (items : list (string * json)) :
  NoDup (map fst items) -> (k, v) ∈ items ->
  Py.lookup_item k (rev items) = Some v.
Proof.
  induction items as [|[k0 v0] items IH]; intros Hnd Hin.
  - by apply elem_of_nil in Hin.
  - simpl in Hnd. apply NoDup_cons in Hnd as [Hk0 Hnd].
    simpl. rewrite lookup_item_app.
    apply elem_of_cons in Hin as [Heq|Hin].
    + injection Heq as -> ->.
      rewrite lookup_item_not_in.
      * simpl. by rewrite String.eqb_refl.
      * rewrite map_rev. intros Hin. apply Hk0.
        apply list_elem_of_In in Hin. apply in_rev in Hin.
        by apply list_elem_of_In.
    + by rewrite (IH Hnd Hin).
Qed.

(* --------------------------------------------------------------------- *)
(* fr_create_task: the request body                                       *)
(* --------------------------------------------------------------------- *)

Lemma merge_additional_lookup items : forall payload k,
  Py.lookup_item k (merge_additional items payload)
  = match (if is_protected k then None else Py.lookup_item k (rev items)) with
    | Some v => Some v
    | None => Py.lookup_item k payload
    end.
Proof.
  induction items as [|[k0 v0] items IH]; intros payload k; simpl.
  - destruct (is_protected k); reflexivity.
  - destruct (is_protected k0) eqn:P0; rewrite IH.
    + destruct (is_protected k) eqn:Pk; [reflexivity|].
      rewrite lookup_item_app. simpl.
      destruct (String.eqb k k0) eqn:E.
      * apply String.eqb_eq in E as ->. congruence.
      * destruct (Py.lookup_item k (rev items)); reflexivity.
    + destruct (is_protected k) eqn:Pk.
      * rewrite lookup_set_item.
        destruct (String.eqb k k0) eqn:E; [|reflexivity].
        apply String.eqb_eq in E as ->. congruence.
      * rewrite lookup_item_app, lookup_set_item. simpl.
        destruct (Py.lookup_item k (rev items)); [reflexivity|].
        destruct (String.eqb k k0); reflexivity.
Qed.

Lemma initial_payload_overlay title description assignee_id status due_date af :
  overlay af
    (initial_payload title description assignee_id status due_date af)
    (initial_payload title description assignee_id status due_date None).
Proof.
  intros k. unfold passed_through, initial_payload.
  destruct af as [[|kv items]|].
  - simpl. destruct (is_protected k); reflexivity.
  - apply merge_additional_lookup.
  - destruct (is_protected k); reflexivity.
Qed.

Lemma overlay_set_item af k v p p' :
  is_protected k = true ->
  overlay af p p' -> overlay af (Py.set_item k v p) (Py.set_item k v p').
Proof.
  intros Hk Hov k'. rewrite !lookup_set_item.
  destruct (String.eqb k' k) eqn:E.
  - apply String.eqb_eq in E as ->. unfold passed_through. by rewrite Hk.
  - apply Hov.
Qed.

Lemma overlay_has_key af k p p' :
  is_protected k = true -> overlay af p p' -> Py.has_key k p = Py.has_key k p'.
Proof.
  intros Hk Hov. unfold Py.has_key. rewrite (Hov k).
  unfold passed_through. by rewrite Hk.
Qed.

Section CreateTask.

Variable remote : list request -> request -> response.
Variable domain api_key : option string.
Variable project_identifier : key.

(* The closing step of a tool: one request, whatever the reply. *)
Lemma final_step_log r ws wo log :
  snd (try_except (bind (fetch remote r) (fun d => ret (fst d)))
         (handlers ws wo) log)
  = log ++ [r].
Proof.
  unfold try_except, bind. rewrite fetch_run.
  destruct (remote log r) as [cls msg|status parsed]; [reflexivity|].
  destruct status; simpl; [reflexivity|].
  destruct parsed; reflexivity.
Qed.

Ltac step_done :=
  first
    [ apply step_raise; repeat constructor
    | apply step_return; repeat constructor
    | apply step_set; [repeat constructor | assumption | auto] ].

Lemma task_name_truthy (issue_type_name : option string) :
  PyStr.truthy (match issue_type_name with
                | Some s => if PyStr.truthy s then s else "task"
                | None => "task"
                end) = true.
Proof.
  destruct issue_type_name as [s|]; [|reflexivity].
  destruct (PyStr.truthy s) eqn:E; [exact E|reflexivity].
Qed.

Lemma resolve_issue_type_rel issue_type_name p p' log :
  step_rel True False "issue_type_id" p p' log
    (resolve_issue_type remote domain api_key project_identifier issue_type_name p log)
    (resolve_issue_type remote domain api_key project_identifier issue_type_name p' log).
Proof.
  unfold resolve_issue_type. rewrite task_name_truthy.
  set (name := match issue_type_name with
               | Some s => if PyStr.truthy s then s else "task"
               | None => "task"
               end).
  unfold try_except, bind, handlers, lift, ret. rewrite !fetch_run.
  set (req := get_req api_key _ []).
  destruct (remote log req) as [cls msg|status parsed]; [step_done|].
  destruct status as [smsg|]; simpl.
  { destruct (status_error_dict _ smsg parsed); step_done. }
  destruct parsed as [it_data|jmsg]; simpl; [|step_done].
  destruct (match it_data with JObj _ => _ | _ => _ end) as [types_list|e].
  2:{ destruct (handled _ _ e); step_done. }
  destruct (match_issue_type _ types_list) as [matched_id|e].
  2:{ destruct (handled _ _ e); step_done. }
  destruct (Py.is_none matched_id) eqn:Hnone; step_done.
Qed.

Lemma resolve_user_rel user p p' log :
  Py.has_key "assignee_id" p = Py.has_key "assignee_id" p' ->
  step_rel (Py.has_key "assignee_id" p = false /\ user_given user = true)
    (Py.has_key "assignee_id" p = true \/ user_given user = false)
    "assignee_id" p p' log
    (resolve_user remote domain api_key project_identifier user p log)
    (resolve_user remote domain api_key project_identifier user p' log).
Proof.
  intros Hkey. unfold resolve_user. rewrite <- Hkey.
  destruct user as [u|]; [|apply step_keep; by right].
  destruct (Py.has_key "assignee_id" p) eqn:Hk; simpl;
    [apply step_keep; by left|].
  destruct (PyStr.truthy u) eqn:Hu; [|apply step_keep; by right].
  unfold try_except, bind, handlers, lift, ret. rewrite !fetch_run.
  set (req := get_req api_key _ _).
  destruct (remote log req) as [cls msg|status parsed]; [step_done|].
  destruct status as [smsg|]; simpl.
  { destruct (status_error_dict _ smsg parsed); step_done. }
  destruct parsed as [users_data|jmsg]; simpl; [|step_done].
  destruct (choose_user users_data u) as [chosen_id|e].
  2:{ destruct (handled _ _ e); step_done. }
  destruct (Py.is_none chosen_id) eqn:Hnone; step_done.
Qed.

Lemma bind_run {A B} (m : io A) (k : A -> io B) log :
  bind m k log
  = match m log with
    | (Ok a, log') => k a log'
    | (Raise e, log') => (Raise e, log')
    end.
Proof. reflexivity. Qed.

Ltac case_key k :=
  repeat match goal with
         | |- context [String.eqb k ?s] =>
             let E := fresh "E" in
             destruct (String.eqb k s) eqn:E;
             [apply String.eqb_eq in E; subst k; simpl; try reflexivity|]
         end.

(* The core fields of the payload as the arguments give them. *)
Lemma initial_payload_core title description assignee_id status due_date k :
  Py.lookup_item k
    (initial_payload title description assignee_id status due_date None)
  = if String.eqb k "title" then Some (JStr title)
    else if String.eqb k "description" then JStr <$> description
    else if String.eqb k "assignee_id" then JInt <$> assignee_id
    else if String.eqb k "status" then (fun st => JStr (status_value st)) <$> status
    else if String.eqb k "due_date" then JStr <$> due_date
    else None.
Proof.
  unfold initial_payload, set_opt.
  destruct description, assignee_id, status, due_date;
    rewrite ?lookup_set_item; simpl; case_key k; reflexivity.
Qed.

Lemma initial_payload_has_assignee title description assignee_id status due_date af :
  Py.has_key "assignee_id"
    (initial_payload title description assignee_id status due_date af)
  = match assignee_id with Some _ => true | None => false end.
Proof.
  rewrite (overlay_has_key af "assignee_id" _
             (initial_payload title description assignee_id status due_date None)
             eq_refl (initial_payload_overlay _ _ _ _ _ _)).
  unfold Py.has_key. rewrite initial_payload_core. simpl.
  by destruct assignee_id.
Qed.

Section Run.

Variables (title : string) (description : option string) (assignee_id : option Z)
  (status : option status_arg) (due_date : option string)
  (issue_type_name user : option string).

Local Abbreviation run af :=
  (fr_create_task remote domain api_key project_identifier title description
     assignee_id status due_date issue_type_name user af).
Local Abbreviation initial af :=
  (initial_payload title description assignee_id status due_date af).
Local Abbreviation post p :=
  (create_task_request domain api_key project_identifier p).

(* Either the tool ends before its POST, and then the additional fields
   play no role at all, or it posts the finalized payload. *)
Lemma create_task_cases af log :
  (exists gets,
      Forall (fun r => mutating r = false) gets /\
      snd (run af log) = log ++ gets /\
      run None log = run af log)
  \/ (exists gets v c,
        Forall (fun r => mutating r = false) gets /\
        Py.is_none v = false /\
        match c with
        | Some x => Py.is_none x = false /\ assignee_id = None /\ user_given user = true
        | None => assignee_id <> None \/ user_given user = false
        end /\
        snd (run af log) = log ++ gets ++ [post (finalize v c (initial af))] /\
        snd (run None log) = log ++ gets ++ [post (finalize v c (initial None))]).
Proof.
  unfold fr_create_task.
  destruct (not_configured domain api_key).
  { left. exists []. rewrite app_nil_r. by repeat split. }
  rewrite !(bind_run (resolve_issue_type _ _ _ _ _ _)).
  pose proof (resolve_issue_type_rel issue_type_name (initial af) (initial None) log)
    as H1.
  set (ra := resolve_issue_type _ _ _ _ _ (initial af) log) in *.
  set (rb := resolve_issue_type _ _ _ _ _ (initial None) log) in *.
  clearbody ra rb.
  destruct H1 as [e gets Hg|out gets Hg|v gets Hg Hv _|[]].
  { left. exists gets. by repeat split. }
  { left. exists gets. by repeat split. }
  set (p1 := Py.set_item "issue_type_id" v (initial af)).
  set (p1' := Py.set_item "issue_type_id" v (initial None)).
  rewrite !(bind_run (resolve_user _ _ _ _ _ _)).
  assert (Hkey : Py.has_key "assignee_id" p1 = Py.has_key "assignee_id" p1').
  { apply (overlay_has_key af); [reflexivity|].
    apply overlay_set_item; [reflexivity|apply initial_payload_overlay]. }
  assert (Hhas : Py.has_key "assignee_id" p1
                 = match assignee_id with Some _ => true | None => false end).
  { unfold p1, Py.has_key. rewrite lookup_set_item. simpl.
    apply initial_payload_has_assignee. }
  pose proof (resolve_user_rel user p1 p1' (log ++ gets) Hkey) as H2.
  set (ua := resolve_user _ _ _ _ _ p1 _) in *.
  set (ub := resolve_user _ _ _ _ _ p1' _) in *.
  clearbody ua ub.
  destruct H2 as [e gets2 Hg2|out gets2 Hg2|c gets2 Hg2 Hc [Hno Hu]|Hkeep].
  { left. exists (gets ++ gets2). rewrite app_assoc.
    split; [by apply Forall_app|]. by split. }
  { left. exists (gets ++ gets2). rewrite app_assoc.
    split; [by apply Forall_app|]. by split. }
  { right. exists (gets ++ gets2), v, (Some c).
    split; [by apply Forall_app|]. split; [done|].
    split.
    { split; [done|]. split; [|done].
      rewrite Hhas in Hno. by destruct assignee_id. }
    rewrite !final_step_log. by rewrite <- !app_assoc. }
  right. exists gets, v, None.
  split; [done|]. split; [done|].
  split.
  { destruct Hkeep as [Hk|Hu]; [left|by right].
    rewrite Hhas in Hk. by destruct assignee_id. }
  rewrite !final_step_log. by rewrite <- !app_assoc.
Qed.

(* A mutating request of the tool is its POST, and the last request. *)
Lemma create_task_post af log r :
  r ∈ drop (length log) (snd (run af log)) -> mutating r = true ->
  exists gets v c,
    Py.is_none v = false /\
    match c with
    | Some x => Py.is_none x = false /\ assignee_id = None /\ user_given user = true
    | None => assignee_id <> None \/ user_given user = false
    end /\
    r = post (finalize v c (initial af)) /\
    snd (run af log) = (log ++ gets) ++ [r] /\
    snd (run None log) = (log ++ gets) ++ [post (finalize v c (initial None))].
Proof.
  intros Hin Hmut.
  destruct (create_task_cases af log)
    as [(gets & Hg & Hlog & _)|(gets & v & c & Hg & Hv & Hc & Hlog & Hlog0)].
  - rewrite Hlog, drop_app_length in Hin.
    rewrite Forall_forall in Hg. rewrite (Hg r Hin) in Hmut. discriminate.
  - rewrite Hlog, drop_app_length in Hin.
    apply elem_of_app in Hin as [Hin|Hin].
    + rewrite Forall_forall in Hg. rewrite (Hg r Hin) in Hmut. discriminate.
    + apply list_elem_of_singleton in Hin as ->.
      exists gets, v, c. rewrite Hlog, Hlog0, !app_assoc. by repeat split.
Qed.

Lemma finalize_overlay af v c :
  overlay af (finalize v c (initial af)) (finalize v c (initial None)).
Proof.
  unfold finalize.
  destruct c; repeat (apply overlay_set_item; [reflexivity|]);
    apply initial_payload_overlay.
Qed.

(* The core fields of the payload that is posted. *)
Lemma finalize_core af v c k :
  is_protected k = true ->
  Py.lookup_item k (finalize v c (initial af))
  = if String.eqb k "assignee_id" then
      match c with Some x => Some x | None => JInt <$> assignee_id end
    else if String.eqb k "issue_type_id" then Some v
    else if String.eqb k "title" then Some (JStr title)
    else if String.eqb k "description" then JStr <$> description
    else if String.eqb k "status" then (fun st => JStr (status_value st)) <$> status
    else if String.eqb k "due_date" then JStr <$> due_date
    else None.
Proof.
  intros Hk. rewrite (finalize_overlay af v c k).
  unfold passed_through. rewrite Hk.
  unfold finalize. destruct c; rewrite ?lookup_set_item, initial_payload_core;
    case_key k; reflexivity.
Qed.

(** C2: in fr_create_task the body of the POST agrees, on every protected
    key (title, description, assignee_id, status, due_date,
    issue_type_id), with the body the same call posts without any
    additional fields, so an additional field under a protected key is
    dropped; every other additional field is in the body with its value;
    a key that is neither protected nor among the additional fields is as
    without them. In particular an explicitly passed status is the status
    of the body, whatever the additional fields say. *)
Theorem create_task_protected_fields af log r :
  r ∈ drop (length log) (snd (run af log)) -> mutating r = true ->
  exists payload payload0 earlier,
    snd (run af log) = earlier ++ [r] /\
    body r = Some (JObj payload) /\
    snd (run None log) = earlier ++ [post payload0] /\
    (forall k, is_protected k = true ->
       Py.lookup_item k payload = Py.lookup_item k payload0) /\
    (forall k v items, is_protected k = false -> af = Some items ->
       NoDup (map fst items) -> (k, v) ∈ items ->
       Py.lookup_item k payload = Some v) /\
    (forall k, is_protected k = false ->
       (forall items, af = Some items -> k ∉ map fst items) ->
       Py.lookup_item k payload = Py.lookup_item k payload0) /\
    (forall st, status = Some st ->
       Py.lookup_item "status" payload = Some (JStr (status_value st))).
Proof.
  intros Hin Hmut.
  destruct (create_task_post af log r Hin Hmut)
    as (gets & v & c & Hv & Hc & -> & Hlog & Hlog0).
  exists (finalize v c (initial af)), (finalize v c (initial None)), (log ++ gets).
  split; [done|]. split; [done|]. split; [done|].
  pose proof (finalize_overlay af v c) as Hov.
  split; [|split; [|split]].
  - intros k Hk. rewrite (Hov k). unfold passed_through. by rewrite Hk.
  - intros k val items Hk Haf Hnd Hkv. rewrite (Hov k).
    unfold passed_through. rewrite Hk, Haf.
    by rewrite (lookup_item_rev_NoDup k val items Hnd Hkv).
  - intros k Hk Hnot. rewrite (Hov k). unfold passed_through. rewrite Hk.
    destruct af as [items|]; [|done].
    rewrite lookup_item_not_in; [done|].
    rewrite map_rev. intros Hin'. apply (Hnot items eq_refl).
    apply list_elem_of_In in Hin'. apply in_rev in Hin'.
    by apply list_elem_of_In.
  - intros st Hst. rewrite finalize_core by reflexivity. simpl. by rewrite Hst.
Qed.

End Run.

End CreateTask.

Lemma create_task_protected_fields_witness :
  exists payload,
    body (create_task_request demo_domain demo_api_key (KStr "ENG") payload)
    = Some (JObj payload) /\
    Py.lookup_item "status" payload = Some (JStr "open") /\
    Py.lookup_item "priority" payload = Some (JStr "high").
Proof.
  set (af := [("status", JStr "blocked"); ("priority", JStr "high")]).
  set (payload := [("title", JStr "Fix login"); ("status", JStr "open");
                   ("priority", JStr "high"); ("issue_type_id", JInt 3)]).
  destruct (create_task_protected_fields demo_project demo_domain demo_api_key
              (KStr "ENG") "Fix login" None None (Some (StatusStr "open")) None
              None None (Some af) []
              (create_task_request demo_domain demo_api_key (KStr "ENG") payload))
    as (p & p0 & earlier & Hlog & Hbody & _ & _ & Hpass & _ & Hstatus).
  - vm_compute. apply list_elem_of_further, list_elem_of_here.
  - reflexivity.
  - injection Hbody as <-.
    exists payload. split; [reflexivity|]. split.
    + apply (Hstatus (StatusStr "open") eq_refl).
    + apply (Hpass "priority" (JStr "high") af eq_refl eq_refl).
      * apply (bool_decide_unpack _). vm_compute. exact I.
      * apply list_elem_of_further, list_elem_of_here.
Defined.

(** C10, the statement as specified fails: with no assignee_id argument, the
    additional field assignee_id = 9 and the user Bob, the body of the
    POST has assignee_id = 4, the id the user resolver found. *)
Lemma create_task_unsupplied_counterexample :
  ~ (forall payload,
       last (snd (fr_create_task demo_project demo_domain demo_api_key (KStr "ENG")
                    "Fix login" None None None None None (Some "Bob")
                    (Some [("assignee_id", JInt 9)]) []))
       = Some (create_task_request demo_domain demo_api_key (KStr "ENG") payload) ->
       Py.lookup_item "assignee_id" payload = None).
Proof.
  intros H.
  specialize (H [("title", JStr "Fix login"); ("issue_type_id", JInt 3);
                 ("assignee_id", JInt 4)] eq_refl).
  discriminate H.
Qed.

(* --------------------------------------------------------------------- *)
(* The user resolver                                                      *)
(* --------------------------------------------------------------------- *)

Lemma user_record_get item field default :
  is_user_record item = true -> exists v, Py.get item field default = Ok v.
Proof. destruct item; try discriminate. intros _. simpl. eauto. Qed.

Lemma user_record_id item :
  is_user_record item = true ->
  Py.get item "id" JNull = Ok (id_of item) /\ Py.is_none (id_of item) = false.
Proof.
  destruct item as [| | | | |items]; try discriminate.
  unfold is_user_record, id_of. simpl.
  destruct (Py.lookup_item "id" items) as [id|]; [|discriminate].
  intros H. split; [reflexivity|]. by destruct (Py.is_none id).
Qed.

(* On user records a search loop is List.find with the loop's test. *)
Lemma first_match_find field lowered users :
  Forall (fun u => is_user_record u = true) users ->
  first_match field lowered users
  = Ok (match List.find (field_matches field lowered) users with
        | Some u => id_of u
        | None => JNull
        end).
Proof.
  induction 1 as [|u users Hu _ IH]; [reflexivity|].
  simpl. unfold field_matches, field_norm.
  destruct (user_record_get u field (JStr EmptyString) Hu) as [v ->]. simpl.
  destruct (PyStr.truthy (normalize v) && String.eqb (normalize v) lowered).
  - apply (user_record_id u Hu).
  - exact IH.
Qed.

Lemma find_user_record (f : json -> bool) users u :
  Forall (fun u => is_user_record u = true) users ->
  List.find f users = Some u -> is_user_record u = true.
Proof.
  intros Hall Hf. apply find_some in Hf as [Hin _].
  rewrite Forall_forall in Hall. apply Hall. by apply list_elem_of_In.
Qed.

(* choose_user on a non-empty list of user records. *)
Lemma choose_user_tie_break users user :
  Forall (fun u => is_user_record u = true) users -> users <> [] ->
  exists id, tie_break users user = Some id /\
    Py.is_none id = false /\ choose_user (JList users) user = Ok id.
Proof.
  intros Hall Hne.
  destruct users as [|u0 us]; [done|].
  unfold choose_user, tie_break.
  set (lowered := PyStr.lower (PyStr.strip user)).
  rewrite !first_match_find by done.
  destruct (List.find (field_matches "email" lowered) (u0 :: us)) as [u|] eqn:Ee.
  - pose proof (find_user_record _ _ _ Hall Ee) as Hu.
    destruct (user_record_id u Hu) as [_ Hid].
    exists (id_of u). unfold rbind. rewrite Hid. cbv iota. rewrite Hid. done.
  - destruct (List.find (field_matches "name" lowered) (u0 :: us)) as [u|] eqn:En.
    + pose proof (find_user_record _ _ _ Hall En) as Hu.
      destruct (user_record_id u Hu) as [_ Hid].
      exists (id_of u). unfold rbind. simpl Py.is_none. cbv iota.
      rewrite Hid. done.
    + apply Forall_cons in Hall as [Hu0 _].
      destruct (user_record_id u0 Hu0) as [Hget Hid].
      exists (id_of u0). unfold rbind. simpl Py.is_none. cbv iota.
      rewrite Hget. done.
Qed.

Lemma find_unique {A} (f : A -> bool) l1 u l2 :
  f u = true -> (forall x, x ∈ l1 ++ l2 -> f x = false) ->
  List.find f (l1 ++ u :: l2) = Some u.
Proof.
  intros Hu Hothers. induction l1 as [|x l1 IH]; simpl.
  - by rewrite Hu.
  - rewrite (Hothers x) by (simpl; left).
    apply IH. intros y Hy. apply Hothers. simpl. by right.
Qed.

(* A tier on any list: when the loop ends without an exception, it gives
   the id of the tier. *)
Lemma first_match_tier field lowered users v :
  first_match field lowered users = Ok v -> v = tier_id field lowered users.
Proof.
  unfold tier_id. induction users as [|u users IH]; simpl.
  - by intros [= <-].
  - unfold field_matches.
    destruct (field_norm u field) as [val|e] eqn:Hval; [|discriminate].
    cbn [rbind].
    destruct (PyStr.truthy val && String.eqb val lowered); [|exact IH].
    unfold id_of. by intros ->.
Qed.

Lemma first_match_objects field lowered users :
  Forall (fun u => is_object u = true) users ->
  exists v, first_match field lowered users = Ok v.
Proof.
  induction 1 as [|u users Hu _ IH]; simpl; [eauto|].
  destruct u as [| | | | |items]; try discriminate.
  cbn [field_norm Py.get rbind].
  destruct (PyStr.truthy _ && String.eqb _ lowered); [eauto|exact IH].
Qed.

(* What choose_user returns, when it returns, is the chosen id. *)
Lemma choose_user_chosen users user c :
  choose_user (JList users) user = Ok c -> c = chosen_id users user.
Proof.
  destruct users as [|u0 us]; [by intros [= <-]|].
  unfold choose_user, chosen_id.
  set (lowered := PyStr.lower (PyStr.strip user)).
  destruct (first_match "email" lowered (u0 :: us)) as [e_id|e] eqn:Ee;
    [|discriminate].
  apply first_match_tier in Ee as <-. cbn [rbind].
  destruct (Py.is_none e_id) eqn:He; cbn [negb rbind];
    [|rewrite He; by intros [= <-]].
  destruct (first_match "name" lowered (u0 :: us)) as [n_id|e] eqn:En;
    [|discriminate].
  apply first_match_tier in En as <-. cbn [rbind].
  destruct (Py.is_none n_id) eqn:Hn; cbn [negb]; [|by intros [= <-]].
  unfold id_of. by intros ->.
Qed.

(* On user objects of which the first has an id, choose_user returns an
   id. *)
Lemma choose_user_objects u0 us user :
  Forall (fun u => is_object u = true) (u0 :: us) ->
  is_user_record u0 = true ->
  exists id, choose_user (JList (u0 :: us)) user = Ok id /\ Py.is_none id = false.
Proof.
  intros Hall Hu0. unfold choose_user.
  set (lowered := PyStr.lower (PyStr.strip user)).
  destruct (first_match_objects "email" lowered _ Hall) as [e_id ->].
  destruct (first_match_objects "name" lowered _ Hall) as [n_id ->].
  cbn [rbind]. destruct (user_record_id u0 Hu0) as [Hget Hid].
  destruct (Py.is_none e_id) eqn:He; cbn [rbind].
  - destruct (Py.is_none n_id) eqn:Hn; [rewrite Hget|]; eauto.
  - rewrite He. eauto.
Qed.

(* Where the first user has an id: when the search answers with a list of
   user objects of which the first carries an id (so, in particular, with
   a list of user records), the resolver ends the tool with "No users
   found matching ..." exactly when the list is empty; on a non-empty list
   it stores the chosen id as assignee_id and the tool goes on. *)
Lemma user_resolver_found_with_ids
  (remote : list request -> request -> response) (domain api_key : option string)
  (project_identifier : key) (user : string) (payload : list (string * json))
  (log : list request) (users : list json) :
  Forall (fun u => is_object u = true) users ->
  (forall u0, head users = Some u0 -> is_user_record u0 = true) ->
  Py.has_key "assignee_id" payload = false ->
  PyStr.truthy user = true ->
  remote log (users_request domain api_key project_identifier user)
  = Reply None (inl (JList users)) ->
  (choose_user (JList users) user = Ok JNull <-> users = [])
  /\ (fst (resolve_user remote domain api_key project_identifier (Some user) payload log)
      = Ok (inl (no_users_found user)) <-> users = [])
  /\ (users <> [] ->
      exists id, Py.is_none id = false /\ id = chosen_id users user /\
        (Forall (fun u => is_user_record u = true) users ->
         tie_break users user = Some id) /\
        fst (resolve_user remote domain api_key project_identifier (Some user) payload log)
        = Ok (inr (Py.set_item "assignee_id" id payload))).
Proof.
  intros Hall Hhead Hkey Hu Hreply.
  assert (Hrun : fst (resolve_user remote domain api_key project_identifier
                        (Some user) payload log)
                 = match choose_user (JList users) user with
                   | Ok chosen_id =>
                       if Py.is_none chosen_id then Ok (inl (no_users_found user))
                       else Ok (inr (Py.set_item "assignee_id" chosen_id payload))
                   | Raise e =>
                       (r <- handled "Failed to resolve user"
                               "An unexpected error occurred while resolving user" e ;;
                        Ok (inl r))%res
                   end).
  { unfold resolve_user. rewrite Hkey, Hu. cbn [negb andb].
    unfold try_except, bind, handlers, lift, ret. rewrite fetch_run.
    fold (users_request domain api_key project_identifier user).
    rewrite Hreply. cbn [raise_for_status response_json rbind fst snd].
    destruct (choose_user (JList users) user) as [chosen_id|e].
    - by destruct (Py.is_none chosen_id).
    - cbn [rbind fst]. by destruct (handled _ _ e). }
  destruct users as [|u0 us].
  - split; [done|]. split; [|done]. by rewrite Hrun.
  - destruct (choose_user_objects u0 us user Hall (Hhead u0 eq_refl))
      as (id & Hchoose & Hid).
    rewrite Hrun, Hchoose, Hid.
    split; [split; [intros [= ->]; discriminate|discriminate]|].
    split; [split; discriminate|].
    intros _. exists id. split; [done|].
    split; [by apply choose_user_chosen|]. split; [|done].
    intros Hrecords.
    destruct (choose_user_tie_break (u0 :: us) user Hrecords ltac:(done))
      as (id' & Htie & _ & Hchoose').
    congruence.
Qed.






(** C4, as amended: on a non-empty list of user records the resolver
    returns the id of the first user whose email, trimmed and lowered, is
    not empty and equals the trimmed, lowered query; failing that, of the
    first user whose name does; failing that, of the first element. So
    when exactly one user's email matches in this sense, that user's id
    is chosen, whatever the names and the positions. *)
Theorem user_tie_break_order (users : list json) (user : string) :
  Forall (fun u => is_user_record u = true) users -> users <> [] ->
  exists id,
    choose_user (JList users) user = Ok id /\
    tie_break users user = Some id /\
    forall l1 u l2,
      users = l1 ++ u :: l2 ->
      field_matches "email" (PyStr.lower (PyStr.strip user)) u = true ->
      (forall x, x ∈ l1 ++ l2 ->
         field_matches "email" (PyStr.lower (PyStr.strip user)) x = false) ->
      id = id_of u.
Proof.
  intros Hall Hne.
  destruct (choose_user_tie_break users user Hall Hne) as (id & Htie & _ & Hchoose).
  exists id. split; [done|]. split; [done|].
  intros l1 u l2 -> Hu Hothers.
  unfold tie_break in Htie. rewrite (find_unique _ l1 u l2 Hu Hothers) in Htie.
  by injection Htie.
Qed.

Lemma user_tie_break_order_witness :
  choose_user (JList demo_two_users) " BOB@acme.example " = Ok (JInt 2).
Proof.
  destruct (user_tie_break_order demo_two_users " BOB@acme.example ")
    as (id & -> & Htie & _).
  - repeat constructor.
  - discriminate.
  - injection Htie as <-. reflexivity.
Defined.

(** C4, the statement as specified fails: for the query "bob@acme.example "
    (a trailing blank) no email equals the query case-insensitively and
    no name does, so the stated tiers end at the first element, Al; the
    code trims the query and chooses Bob. *)
Lemma user_tie_break_counterexample :
  ~ (forall users user id,
       Forall (fun u => is_user_record u = true) users ->
       literal_tie_break users user = Some id ->
       choose_user (JList users) user = Ok id).
Proof.
  intros H.
  specialize (H demo_two_users "bob@acme.example " (JInt 1)
                ltac:(repeat constructor) eq_refl).
  discriminate H.
Qed.

(* --------------------------------------------------------------------- *)
(* The issue-type resolver                                                *)
(* --------------------------------------------------------------------- *)

Lemma match_issue_type_none target listing :
  no_type_named target listing -> match_issue_type target listing = Ok JNull.
Proof.
  induction 1 as [|t listing (name & Hname & Hne) _ IH]; [reflexivity|].
  simpl. rewrite Hname. simpl.
  destruct (String.eqb name target) eqn:E; [|exact IH].
  apply String.eqb_eq in E. contradiction.
Qed.

Lemma find_issue_type_none target listing :
  no_type_named target listing -> find_issue_type target listing = Ok None.
Proof.
  induction 1 as [|t listing (name & Hname & Hne) _ IH]; [reflexivity|].
  simpl. rewrite Hname. simpl.
  destruct (String.eqb name target) eqn:E; [|exact IH].
  apply String.eqb_eq in E. contradiction.
Qed.

(* The resolver inside fr_create_task attaches the listing it fetched. *)
Lemma create_task_issue_type_not_found
  (remote : list request -> request -> response) (domain api_key : option string)
  (project_identifier : key) (issue_type_name : option string)
  (payload : list (string * json)) (log : list request)
  (fields : list (string * json)) (listing : list json) :
  remote log (project_issue_types_request domain api_key project_identifier)
  = Reply None (inl (JObj fields)) ->
  Py.lookup_item "issue_types" fields = Some (JList listing) ->
  no_type_named (PyStr.lower (PyStr.strip (name_to_resolve_of issue_type_name)))
    listing ->
  fst (resolve_issue_type remote domain api_key project_identifier issue_type_name
         payload log)
  = Ok (inl (JObj [("error", JStr ("Issue type '"
                                   +:+ name_to_resolve_of issue_type_name
                                   +:+ "' not found"));
                   ("details", JObj fields)])).
Proof.
  intros Hreply Hfields Hnone.
  unfold resolve_issue_type. rewrite task_name_truthy.
  fold (name_to_resolve_of issue_type_name).
  unfold try_except, bind, handlers, lift, ret. rewrite fetch_run.
  fold (project_issue_types_request domain api_key project_identifier).
  rewrite Hreply. cbn [raise_for_status response_json rbind fst snd Py.get].
  rewrite Hfields. cbn [Py.iter rbind].
  rewrite (match_issue_type_none _ _ Hnone). reflexivity.
Qed.

(** C7: what the code does where the specification fails. When no issue type of
    the listing has the queried name, fr_get_issue_type_by_name answers
    with the dict {"error": "Issue type '<name>' not found"} alone: it has
    no "details" entry, so the listing is not attached (the resolver in
    fr_create_task does attach it, see create_task_issue_type_not_found). *)
Theorem issue_type_by_name_omits_listing
  (remote : list request -> request -> response) (domain api_key : option string)
  (project_identifier : key) (issue_type_name : string) (log : list request)
  (listing : list json) :
  not_configured domain api_key = false ->
  remote log (issue_types_request domain api_key project_identifier)
  = Reply None (inl (JList listing)) ->
  no_type_named (PyStr.lower (PyStr.strip issue_type_name)) listing ->
  exists answer,
    fst (fr_get_issue_type_by_name remote domain api_key project_identifier
           issue_type_name log)
    = Ok (JObj answer) /\
    answer = [("error", JStr ("Issue type '" +:+ issue_type_name +:+ "' not found"))] /\
    Py.lookup_item "details" answer = None.
Proof.
  intros Hconf Hreply Hnone.
  unfold fr_get_issue_type_by_name. rewrite Hconf.
  unfold try_except, bind, handlers, lift, ret. rewrite fetch_run.
  fold (issue_types_request domain api_key project_identifier).
  rewrite Hreply. cbn [raise_for_status response_json rbind fst snd].
  rewrite (find_issue_type_none _ _ Hnone).
  eexists. split; [reflexivity|]. split; reflexivity.
Qed.

Lemma issue_type_by_name_omits_listing_witness :
  fst (fr_get_issue_type_by_name demo_types_remote demo_domain demo_api_key
         (KStr "ENG") "bug" [])
  = Ok (JObj [("error", JStr "Issue type 'bug' not found")]).
Proof.
  destruct (issue_type_by_name_omits_listing demo_types_remote demo_domain
              demo_api_key (KStr "ENG") "bug" [] demo_listing)
    as (answer & -> & -> & _).
  - reflexivity.
  - reflexivity.
  - repeat constructor. exists "task". split; [reflexivity|discriminate].
  - reflexivity.
Defined.

(* --------------------------------------------------------------------- *)
(* The section-hierarchy resolver                                         *)
(* --------------------------------------------------------------------- *)

Lemma section_record_get s field default :
  is_section_record s = true -> exists v, Py.get s field default = Ok v.
Proof. destruct s; try discriminate. intros _. simpl. eauto. Qed.

Lemma section_record_id s :
  is_section_record s = true -> Py.get s "id" JNull = Ok (id_of s).
Proof. destruct s; try discriminate. reflexivity. Qed.

(* Where build_hierarchy puts a section record. *)
Lemma section_record_parent s :
  is_section_record s = true ->
  match parent_key s with
  | None => Py.get s "parent_id" JNull = Ok JNull
  | Some k =>
      exists parent_id, Py.get s "parent_id" JNull = Ok parent_id /\
        Py.is_none parent_id = false /\ hash_key parent_id = Ok k
  end.
Proof.
  destruct s as [| | | | |items]; try discriminate.
  unfold is_section_record, parent_key. simpl.
  destruct (Py.lookup_item "parent_id" items) as [[| | | | |]|];
    try discriminate; intros _; simpl; eauto.
Qed.

Lemma build_hierarchy_spec sections :
  Forall (fun s => is_section_record s = true) sections ->
  forall hierarchy root_sections,
  exists hierarchy',
    build_hierarchy sections hierarchy root_sections
    = Ok (hierarchy', root_sections ++ List.filter is_root sections) /\
    forall k, children_of hierarchy' k
              = children_of hierarchy k ++ List.filter (has_parent k) sections.
Proof.
  induction 1 as [|s sections Hs _ IH]; intros hierarchy root_sections.
  - exists hierarchy. simpl. rewrite app_nil_r. split; [done|].
    intros k. by rewrite app_nil_r.
  - simpl. pose proof (section_record_parent s Hs) as Hp.
    unfold is_root, has_parent.
    destruct (parent_key s) as [k0|].
    + destruct Hp as (parent_id & -> & Hnone & Hk). simpl.
      rewrite Hnone, Hk. simpl.
      destruct (IH (<[k0 := children_of hierarchy k0 ++ [s]]> hierarchy) root_sections)
        as (h' & -> & Hch).
      exists h'. split; [done|]. intros k. rewrite Hch.
      unfold children_of at 1. destruct (decide (k = k0)) as [->|Hne].
      * rewrite lookup_insert_eq. simpl.
        rewrite bool_decide_eq_true_2 by done. by rewrite <- app_assoc.
      * rewrite lookup_insert_ne by done.
        by rewrite bool_decide_eq_false_2.
    + rewrite Hp. simpl.
      destruct (IH hierarchy (root_sections ++ [s])) as (h' & -> & Hch).
      exists h'. rewrite <- app_assoc. split; [done|]. exact Hch.
Qed.

Lemma int_ids_spec sl :
  Forall (fun s => is_section_record s = true) sl ->
  int_ids sl = Ok (List.filter Py.is_int (map id_of sl)).
Proof.
  induction 1 as [|s sl Hs _ IH]; [reflexivity|].
  simpl. rewrite (section_record_id s Hs), IH. simpl.
  by destruct (Py.is_int (id_of s)).
Qed.

Lemma scan_sections_spec hierarchy segment descend (g : Z -> list json) sl :
  Forall (fun s => is_section_record s = true) sl ->
  (forall recurse, descend = Some recurse ->
     forall z, recurse (children_of hierarchy (inl z)) = Ok (g z)) ->
  forall acc,
    scan_sections hierarchy (PyStr.lower segment) descend sl acc
    = Ok (acc ++ flat_map
                   (scan_step segment
                      (match descend with None => true | Some _ => false end) g)
                   sl).
Proof.
  intros Hall Hrec. induction Hall as [|s sl Hs _ IH]; intros acc.
  - simpl. by rewrite app_nil_r.
  - simpl. unfold scan_step at 1, name_matches.
    destruct (section_record_get s "name" (JStr EmptyString) Hs) as [v Hv].
    unfold field_norm. rewrite Hv. simpl.
    destruct (String.eqb (normalize v) (PyStr.lower segment)).
    + rewrite (section_record_id s Hs). simpl.
      destruct (int_key (id_of s)) as [z|].
      * destruct descend as [recurse|].
        -- rewrite (Hrec recurse eq_refl z). simpl.
           rewrite IH. by rewrite <- app_assoc.
        -- rewrite IH. by rewrite <- app_assoc.
      * apply IH.
    + apply IH.
Qed.

Lemma path_ids_cons hierarchy sl segment rest :
  path_ids hierarchy sl (segment :: rest)
  = flat_map
      (scan_step segment (match rest with [] => true | _ => false end)
         (fun z => path_ids hierarchy (children_of hierarchy (inl z)) rest))
      sl.
Proof.
  simpl. apply flat_map_ext. intros s. unfold scan_step.
  destruct (name_matches segment s); [|done].
  destruct (int_key (id_of s)); [|done]. by destruct rest.
Qed.

(* On section records the recursive search is path_ids: it returns. *)
Lemma find_sections_by_path_spec hierarchy :
  (forall k, Forall (fun s => is_section_record s = true) (children_of hierarchy k)) ->
  forall remaining_path sl,
    Forall (fun s => is_section_record s = true) sl ->
    find_sections_by_path hierarchy sl remaining_path
    = Ok (path_ids hierarchy sl remaining_path).
Proof.
  intros Hh. induction remaining_path as [|segment rest IH]; intros sl Hsl.
  - by apply int_ids_spec.
  - rewrite path_ids_cons. cbn [find_sections_by_path].
    rewrite (scan_sections_spec hierarchy segment _
               (fun z => path_ids hierarchy (children_of hierarchy (inl z)) rest)
               sl Hsl).
    + by destruct rest.
    + intros recurse Hr z. destruct rest as [|seg2 rest]; [discriminate|].
      injection Hr as <-. apply IH, Hh.
Qed.

Lemma has_parent_under z s : has_parent (inl z) s = under (Some z) s.
Proof.
  unfold has_parent, under. destruct (parent_key s) as [[z'|str]|]; [| |done].
  - destruct (Z.eqb_spec z z') as [->|Hne].
    + by rewrite bool_decide_eq_true_2.
    + rewrite bool_decide_eq_false_2; [done|]. intros [=]. done.
  - by rewrite bool_decide_eq_false_2.
Qed.

Lemma is_root_under s : is_root s = under None s.
Proof. unfold is_root, under. by destruct (parent_key s). Qed.

Lemma elem_of_flat_map {A B} (f : A -> list B) l y :
  y ∈ flat_map f l <-> exists x, x ∈ l /\ y ∈ f x.
Proof.
  rewrite list_elem_of_In, in_flat_map. split.
  - intros (x & Hx & Hy). exists x. by rewrite !list_elem_of_In.
  - intros (x & Hx & Hy). exists x. by rewrite <- !list_elem_of_In.
Qed.

Lemma elem_of_list_filter {A} (f : A -> bool) l x :
  x ∈ List.filter f l <-> x ∈ l /\ f x = true.
Proof. by rewrite !list_elem_of_In, filter_In. Qed.

Lemma is_branch_nonempty sections parent segment path chain :
  is_branch sections parent (segment :: path) chain -> chain <> [].
Proof. by destruct chain. Qed.

(* The ids path_ids collects are the ends of the branches. *)
Lemma path_ids_branch sections hierarchy :
  (forall z, children_of hierarchy (inl z) = List.filter (under (Some z)) sections) ->
  forall path parent id,
    path <> [] ->
    id ∈ path_ids hierarchy (List.filter (under parent) sections) path <->
    exists chain s, is_branch sections parent path chain /\
      last chain = Some s /\ id = id_of s.
Proof.
  intros Hh. induction path as [|segment rest IH]; intros parent id Hne; [done|].
  rewrite path_ids_cons, elem_of_flat_map. unfold scan_step.
  destruct rest as [|seg2 rest].
  - split.
    + intros (s & Hs & Hid). apply elem_of_list_filter in Hs as [Hs Hu].
      destruct (name_matches segment s) eqn:Hn; [|by apply elem_of_nil in Hid].
      destruct (int_key (id_of s)) as [z|] eqn:Hz; [|by apply elem_of_nil in Hid].
      apply list_elem_of_singleton in Hid as ->.
      exists [s], s. simpl. eauto 10.
    + intros (chain & s & Hb & Hlast & ->).
      destruct chain as [|s0 [|s1 chain]]; [done| |].
      * injection Hlast as ->. destruct Hb as (Hs & Hu & Hn & z & Hz & _).
        exists s. split; [by apply elem_of_list_filter|].
        rewrite Hn, Hz. apply list_elem_of_here.
      * destruct Hb as (_ & _ & _ & z & _ & []).
  - split.
    + intros (s & Hs & Hid). apply elem_of_list_filter in Hs as [Hs Hu].
      destruct (name_matches segment s) eqn:Hn; [|by apply elem_of_nil in Hid].
      destruct (int_key (id_of s)) as [z|] eqn:Hz; [|by apply elem_of_nil in Hid].
      rewrite Hh in Hid.
      apply (IH (Some z) id ltac:(done)) in Hid as (chain & s' & Hb & Hlast & ->).
      exists (s :: chain), s'.
      split; [simpl; eauto 10|]. split; [|done].
      pose proof (is_branch_nonempty _ _ _ _ _ Hb) as Hc.
      destruct chain; [done|]. by rewrite last_cons_cons.
    + intros (chain & s' & Hb & Hlast & ->).
      destruct chain as [|s chain]; [done|].
      destruct Hb as (Hs & Hu & Hn & z & Hz & Hb).
      exists s. split; [by apply elem_of_list_filter|].
      rewrite Hn, Hz, Hh. apply (IH (Some z) _ ltac:(done)).
      exists chain, s'. split; [done|]. split; [|done].
      pose proof (is_branch_nonempty _ _ _ _ _ Hb) as Hc.
      destruct chain; [done|]. by rewrite last_cons_cons in Hlast.
Qed.

Section SectionResolver.

Variable remote : list request -> request -> response.
Variable domain api_key : option string.
Variable project_identifier : key.

(* The resolver on a listing of section records. *)
Lemma resolve_sections_run section_path log sections :
  PyStr.truthy (List.hd EmptyString (path_parts_of section_path)) = true ->
  remote log (sections_request domain api_key project_identifier)
  = Reply None (inl (JList sections)) ->
  Forall (fun s => is_section_record s = true) sections ->
  exists hierarchy,
    (forall k, children_of hierarchy k = List.filter (has_parent k) sections) /\
    resolve_section_hierarchy_to_ids remote domain api_key project_identifier
      section_path log
    = (Ok (path_ids hierarchy (List.filter is_root sections)
             (path_parts_of section_path)),
       log ++ [sections_request domain api_key project_identifier]).
Proof.
  intros Hfirst Hreply Hall.
  destruct (build_hierarchy_spec sections Hall ∅ []) as (h & Hbuild & Hch).
  assert (Hch' : forall k, children_of h k = List.filter (has_parent k) sections).
  { intros k. rewrite Hch. unfold children_of at 1. by rewrite lookup_empty. }
  exists h. split; [exact Hch'|].
  unfold resolve_section_hierarchy_to_ids.
  destruct (path_parts_of section_path) as [|first rest] eqn:Hparts; [discriminate|].
  simpl in Hfirst. rewrite Hfirst. cbn [negb].
  unfold bind, send, lift.
  fold (sections_request domain api_key project_identifier).
  rewrite Hreply. cbn [raise_for_status response_json fst snd].
  rewrite Hbuild. cbn [fst snd app].
  rewrite find_sections_by_path_spec; [done| |].
  - intros k. rewrite Hch'. apply Forall_forall. intros s Hs.
    apply elem_of_list_filter in Hs as [Hs _].
    rewrite Forall_forall in Hall. by apply Hall.
  - apply Forall_forall. intros s Hs.
    apply elem_of_list_filter in Hs as [Hs _].
    rewrite Forall_forall in Hall. by apply Hall.
Qed.

(* The ids returned are the ends of the branches along the path. *)
Lemma section_path_resolution_lemma section_path log sections :
  PyStr.truthy (List.hd EmptyString (path_parts_of section_path)) = true ->
  remote log (sections_request domain api_key project_identifier)
  = Reply None (inl (JList sections)) ->
  Forall (fun s => is_section_record s = true) sections ->
  exists ids,
    fst (resolve_section_hierarchy_to_ids remote domain api_key project_identifier
           section_path log) = Ok ids /\
    forall id, id ∈ ids <-> resolves_to sections (path_parts_of section_path) id.
Proof.
  intros Hfirst Hreply Hall.
  destruct (resolve_sections_run section_path log sections Hfirst Hreply Hall)
    as (h & Hch & ->).
  eexists. split; [reflexivity|].
  intros id.
  rewrite (filter_ext is_root (under None)) by (intros s; apply is_root_under).
  apply path_ids_branch.
  - intros z. rewrite Hch. apply filter_ext. intros s. apply has_parent_under.
  - by destruct (path_parts_of section_path).
Qed.

(** C5, as amended: on a listing of sections, for a path whose first
    segment is not empty once trimmed, resolve_section_hierarchy_to_ids
    returns a list whose elements are exactly the ids of the sections
    that end a branch matching the whole path: a root named as the first
    segment, then at every further segment a child, so named, of the
    section before. When no branch matches, the list is empty and nothing
    is raised. A path whose first segment is empty gives the empty list
    without any request. For the forest with the root A, two children of
    A named B and a child named C under each, the path "A > B > C" gives
    the ids of both sections C. *)
Theorem section_path_resolution section_path log sections :
  (PyStr.truthy (List.hd EmptyString (path_parts_of section_path)) = false ->
   resolve_section_hierarchy_to_ids remote domain api_key project_identifier
     section_path log = (Ok [], log))
  /\ (PyStr.truthy (List.hd EmptyString (path_parts_of section_path)) = true ->
      remote log (sections_request domain api_key project_identifier)
      = Reply None (inl (JList sections)) ->
      Forall (fun s => is_section_record s = true) sections ->
      exists ids,
        fst (resolve_section_hierarchy_to_ids remote domain api_key
               project_identifier section_path log) = Ok ids /\
        (forall id,
           id ∈ ids <-> resolves_to sections (path_parts_of section_path) id) /\
        ((forall id, ~ resolves_to sections (path_parts_of section_path) id) ->
         ids = []))
  /\ fst (resolve_section_hierarchy_to_ids demo_sections_remote domain api_key
            project_identifier "A > B > C" log)
     = Ok [JInt 4; JInt 5].
Proof.
  split; [|split; [|reflexivity]].
  - intros Hfirst. unfold resolve_section_hierarchy_to_ids.
    destruct (path_parts_of section_path) as [|first rest]; [done|].
    simpl in Hfirst. by rewrite Hfirst.
  - intros Hfirst Hreply Hall.
    destruct (section_path_resolution_lemma section_path log sections
                Hfirst Hreply Hall) as (ids & Hids & Hiff).
    exists ids. split; [done|]. split; [exact Hiff|].
    intros Hnone. destruct ids as [|id ids]; [done|].
    exfalso. apply (Hnone id), Hiff. apply list_elem_of_here.
Qed.

End SectionResolver.

Lemma section_path_resolution_witness :
  exists ids,
    fst (resolve_section_hierarchy_to_ids demo_sections_remote demo_domain demo_api_key
           (KStr "ENG") "a >B> c" []) = Ok ids /\
    (JInt 5 ∈ ids <-> resolves_to demo_forest ["a"; "B"; "c"] (JInt 5)).
Proof.
  destruct (section_path_resolution demo_sections_remote demo_domain demo_api_key
              (KStr "ENG") "a >B> c" [] demo_forest) as (_ & H & _).
  destruct H as (ids & Hids & Hiff & _).
  - reflexivity.
  - reflexivity.
  - repeat constructor.
  - exists ids. split; [exact Hids|]. apply (Hiff (JInt 5)).
Defined.

(** C5, the statement as specified fails: the path ">B" is not empty, and in the
    listing with an unnamed root and a section B under it the branch
    root, B matches both segments, the empty one and B; yet the resolver returns
    the empty list, because the first segment is empty. *)
Lemma section_path_resolution_counterexample :
  ~ (forall ids id,
       fst (resolve_section_hierarchy_to_ids demo_unnamed_remote demo_domain
              demo_api_key (KStr "ENG") ">B" []) = Ok ids ->
       resolves_to demo_unnamed_root (path_parts_of ">B") id ->
       id ∈ ids).
Proof.
  intros H.
  specialize (H [] (JInt 2) eq_refl).
  assert (Hbranch : resolves_to demo_unnamed_root (path_parts_of ">B") (JInt 2)).
  { exists [demo_section 1 EmptyString JNull; demo_section 2 "B" (JInt 1)],
      (demo_section 2 "B" (JInt 1)).
    split; [|split; reflexivity].
    split; [apply list_elem_of_here|]. split; [reflexivity|]. split; [reflexivity|].
    exists 1. split; [reflexivity|].
    split; [apply list_elem_of_further, list_elem_of_here|].
    split; [reflexivity|]. split; [reflexivity|].
    exists 2. split; [reflexivity|exact I]. }
  apply H in Hbranch. by apply elem_of_nil in Hbranch.
Qed.

(* --------------------------------------------------------------------- *)
(* Termination of the section search                                      *)
(* --------------------------------------------------------------------- *)

(* A call stack as deep as the path is long is enough, for every
   hierarchy map and every list of values. *)
Lemma find_sections_by_path_depth_enough hierarchy :
  forall depth remaining_path sl,
    (1 <= depth)%nat -> (length remaining_path <= depth)%nat ->
    find_sections_by_path_depth depth hierarchy sl remaining_path
    = Some (find_sections_by_path hierarchy sl remaining_path).
Proof.
  induction depth as [|depth IH]; intros remaining_path sl H1 Hlen; [lia|].
  destruct remaining_path as [|current rest]; [reflexivity|].
  cbn [find_sections_by_path_depth find_sections_by_path].
  match goal with
  | |- ?f sl [] = Some (?g sl []) =>
      enough (Hscan : forall acc, f sl acc = Some (g sl acc)) by apply Hscan
  end.
  induction sl as [|section sl IHsl]; intros acc; [reflexivity|].
  cbn [scan_sections].
  destruct (field_norm section "name") as [section_name|e]; [|reflexivity].
  cbn [rbind].
  destruct (String.eqb section_name (PyStr.lower current)); [|apply IHsl].
  destruct (Py.get section "id" JNull) as [section_id|e]; [|reflexivity].
  cbn [rbind].
  destruct (int_key section_id) as [z|]; [|apply IHsl].
  destruct rest as [|seg2 rest].
  - cbn [length Nat.eqb]. apply IHsl.
  - cbn [length Nat.eqb tail].
    rewrite IH by (simpl in *; lia).
    destruct (find_sections_by_path hierarchy (children_of hierarchy (inl z))
                (seg2 :: rest)) as [child_matches|e]; [|reflexivity].
    cbn [rbind]. apply IHsl.
Qed.

Lemma branch_end_not_dangling sections :
  forall path parent chain s,
    (parent = None \/
     exists t z, parent = Some z /\ t ∈ sections /\ int_key (id_of t) = Some z) ->
    is_branch sections parent path chain -> last chain = Some s ->
    s ∈ sections /\ ~ dangling sections s.
Proof.
  induction path as [|segment path IH]; intros parent chain s Hparent Hb Hlast.
  - destruct chain; [discriminate|done].
  - destruct chain as [|s0 chain]; [done|].
    destruct Hb as (Hs0 & Hu & _ & z & Hz & Hb).
    destruct chain as [|s1 chain].
    + injection Hlast as <-. split; [done|].
      intros (k & Hk & Hnone). unfold under in Hu. rewrite Hk in Hu.
      destruct Hparent as [->|(t & z' & -> & Ht & Hz')]; [done|].
      destruct k as [z''|str]; [|done].
      apply Z.eqb_eq in Hu as <-. by apply (Hnone t z' Ht Hz').
    + rewrite last_cons_cons in Hlast.
      apply (IH (Some z) (s1 :: chain) s); [|done|done].
      right. by exists s0, z.
Qed.

(* The resolver sends no request or the one GET of the sections. *)
Lemma resolve_sections_log
  (remote : list request -> request -> response) (domain api_key : option string)
  (project_identifier : key) (section_path : string) (log : list request) :
  snd (resolve_section_hierarchy_to_ids remote domain api_key project_identifier
         section_path log) = log
  \/ snd (resolve_section_hierarchy_to_ids remote domain api_key project_identifier
            section_path log)
     = log ++ [sections_request domain api_key project_identifier].
Proof.
  unfold resolve_section_hierarchy_to_ids.
  destruct (path_parts_of section_path) as [|first rest]; [by left|].
  destruct (PyStr.truthy first); [|by left]. right.
  cbn [negb]. unfold bind, send, lift, raise.
  fold (sections_request domain api_key project_identifier).
  destruct (remote log _) as [cls msg|status parsed]; [done|].
  destruct status; [done|]. destruct parsed as [sections|]; [|done].
  cbn [raise_for_status response_json fst snd].
  destruct sections; try done.
  destruct (build_hierarchy _ _ _); [|done].
  by destruct (find_sections_by_path _ _ _).
Qed.

(** C8: the search of the section resolver ends on every data set.
    find_sections_by_path, run with a call stack bounded by the number of
    path segments, completes with the result of the unbounded function,
    whatever the hierarchy map and the lists are (a parent cycle or a
    dangling parent changes nothing). The resolver sends at most one
    request. On any listing of section records, whatever graph the parent
    references form, it returns a list and raises nothing, and every id
    in the list belongs to a section that is not dangling: a dangling
    section contributes no match. *)
Theorem section_resolution_terminates
  (remote : list request -> request -> response) (domain api_key : option string)
  (project_identifier : key) (section_path : string) (log : list request) :
  (forall hierarchy sl remaining_path,
      remaining_path <> [] ->
      find_sections_by_path_depth (length remaining_path) hierarchy sl remaining_path
      = Some (find_sections_by_path hierarchy sl remaining_path))
  /\ (snd (resolve_section_hierarchy_to_ids remote domain api_key project_identifier
             section_path log) = log
      \/ snd (resolve_section_hierarchy_to_ids remote domain api_key project_identifier
                section_path log)
         = log ++ [sections_request domain api_key project_identifier])
  /\ (forall sections,
        remote log (sections_request domain api_key project_identifier)
        = Reply None (inl (JList sections)) ->
        Forall (fun s => is_section_record s = true) sections ->
        exists ids,
          fst (resolve_section_hierarchy_to_ids remote domain api_key
                 project_identifier section_path log) = Ok ids /\
          forall id, id ∈ ids ->
            exists s, s ∈ sections /\ id = id_of s /\ ~ dangling sections s).
Proof.
  split; [|split].
  - intros hierarchy sl remaining_path Hne.
    apply find_sections_by_path_depth_enough; [|lia].
    destruct remaining_path; [done|simpl; lia].
  - apply resolve_sections_log.
  - intros sections Hreply Hall.
    destruct (PyStr.truthy (List.hd EmptyString (path_parts_of section_path))) eqn:Hfirst.
    + destruct (section_path_resolution_lemma remote domain api_key project_identifier
                  section_path log sections Hfirst Hreply Hall)
        as (ids & Hids & Hiff).
      exists ids. split; [done|]. intros id Hid.
      apply Hiff in Hid as (chain & s & Hb & Hlast & ->).
      destruct (branch_end_not_dangling sections _ None chain s
                  ltac:(by left) Hb Hlast) as [Hs Hnd].
      by exists s.
    + exists []. split; [|intros id Hid; by apply elem_of_nil in Hid].
      unfold resolve_section_hierarchy_to_ids.
      destruct (path_parts_of section_path) as [|first rest]; [done|].
      simpl in Hfirst. by rewrite Hfirst.
Qed.

Lemma section_resolution_terminates_witness :
  find_sections_by_path_depth 2 ∅ demo_forest ["A"; "B"]
  = Some (find_sections_by_path ∅ demo_forest ["A"; "B"])
  /\ fst (resolve_section_hierarchy_to_ids demo_sections_remote demo_domain
            demo_api_key (KStr "ENG") "A > B" []) = Ok [JInt 2; JInt 3].
Proof.
  destruct (section_resolution_terminates demo_sections_remote demo_domain
              demo_api_key (KStr "ENG") "A > B" []) as (Hdepth & _ & Hreturns).
  split.
  - apply (Hdepth ∅ demo_forest ["A"; "B"]). discriminate.
  - destruct (Hreturns demo_forest eq_refl ltac:(repeat constructor))
      as (ids & Hids & _).
    rewrite Hids. vm_compute in Hids. symmetry. exact Hids.
Defined.

(* --------------------------------------------------------------------- *)
(* fr_add_testcases_to_testrun                                            *)
(* --------------------------------------------------------------------- *)

Lemma only_gets_refl log : only_gets log log.
Proof. exists []. by rewrite app_nil_r. Qed.

Lemma only_gets_trans l1 l2 l3 : only_gets l1 l2 -> only_gets l2 l3 -> only_gets l1 l3.
Proof.
  intros (g1 & -> & H1) (g2 & -> & H2). exists (g1 ++ g2).
  rewrite app_assoc. split; [done|]. by apply Forall_app.
Qed.

Lemma only_gets_one log r : mutating r = false -> only_gets log (log ++ [r]).
Proof. intros Hr. exists [r]. split; [done|]. by repeat constructor. Qed.

Lemma only_gets_no_mutation log log' r :
  only_gets log log' -> r ∈ drop (length log) log' -> mutating r = false.
Proof.
  intros (gets & -> & Hg) Hr. rewrite drop_app_length in Hr.
  rewrite Forall_forall in Hg. by apply Hg.
Qed.

Section TestRun.

Variable remote : list request -> request -> response.
Variable domain api_key : option string.
Variable project_identifier : key.

Lemma resolve_sections_only_gets section_path log :
  only_gets log
    (snd (resolve_section_hierarchy_to_ids remote domain api_key project_identifier
            section_path log)).
Proof.
  destruct (resolve_sections_log remote domain api_key project_identifier
              section_path log) as [-> | ->].
  - apply only_gets_refl.
  - by apply only_gets_one.
Qed.

Lemma resolve_test_case_keys_only_gets test_case_keys : forall acc log,
  only_gets log
    (snd (resolve_test_case_keys remote domain api_key project_identifier
            test_case_keys acc log)).
Proof.
  induction test_case_keys as [|key0 rest IH]; intros acc log.
  - apply only_gets_refl.
  - cbn [resolve_test_case_keys]. rewrite bind_run.
    set (req := get_req api_key (testcase_url domain project_identifier key0) []).
    unfold try_except at 1. rewrite bind_run, fetch_run. fold req.
    destruct (remote log req) as [cls msg|status parsed].
    { unfold handlers, lift, bind, ret. simpl. by apply only_gets_one. }
    destruct status as [smsg|]; cbn [raise_for_status rbind].
    { unfold handlers, lift, bind, ret. cbn [handled].
      destruct (status_error_dict _ smsg parsed); by apply only_gets_one. }
    destruct parsed as [tc_data|jmsg]; cbn [response_json rbind fst snd].
    2:{ unfold handlers, lift, bind, ret. simpl. by apply only_gets_one. }
    assert (Hone : only_gets log (log ++ [req])) by by apply only_gets_one.
    destruct tc_data as [| | | | |items]; try exact Hone.
    destruct (Py.lookup_item "id" items) as [v|]; [|exact Hone].
    unfold ret. eapply only_gets_trans; [exact Hone|apply IH].
Qed.

Lemma resolve_paths_spec paths : forall acc log,
  only_gets log
    (snd (resolve_paths remote domain api_key project_identifier paths acc log)) /\
  forall ids log',
    resolve_paths remote domain api_key project_identifier paths acc log
    = (Ok (inr ids), log') ->
    exists idss,
      paths_resolved remote domain api_key project_identifier log paths idss log' /\
      ids = acc ++ map Py.str (concat idss).
Proof.
  induction paths as [|path rest IH]; intros acc log.
  - split; [apply only_gets_refl|].
    intros ids log' [= <- <-]. exists []. split; [constructor|].
    by rewrite app_nil_r.
  - cbn [resolve_paths]. rewrite bind_run.
    unfold try_except. rewrite !bind_run.
    pose proof (resolve_sections_only_gets path log) as Hg.
    destruct (resolve_section_hierarchy_to_ids remote domain api_key
                project_identifier path log) as [[section_ids|e] log1] eqn:Hres.
    + cbn [snd] in Hg. unfold ret at 1 2.
      destruct (IH (acc ++ map Py.str section_ids) log1) as [Hg' Hspec].
      split; [by eapply only_gets_trans|].
      intros ids log' Hrun. apply Hspec in Hrun as (idss & Hp & ->).
      exists (section_ids :: idss). split; [by econstructor|].
      simpl. by rewrite map_app, app_assoc.
    + cbn [snd] in Hg. unfold handlers, lift, bind, ret.
      destruct (handled _ _ e); cbn [fst snd]; split; try done.
Qed.

(** C6: when fr_add_testcases_to_testrun issues its PUT, the body is
    the dict with the four keys filter_rule, test_case_ids,
    section_subtree_ids and section_ids, in which section_subtree_ids is
    the list of the ids resolved from section_hierarchy_paths, path after
    path in the given order, followed by the caller's section_subtree_ids,
    every element as its str() and none removed; filter_rule,
    section_subtree_ids and section_ids that are absent count as empty
    lists. *)
Theorem testrun_section_subtree_merge (test_run_id : key) (test_case_keys : list key)
  (section_hierarchy_paths : option (list string))
  (section_subtree_ids section_ids : option (list key))
  (filter_rule : option (list json)) (log : list request) (r : request) :
  r ∈ drop (length log)
        (snd (fr_add_testcases_to_testrun remote domain api_key project_identifier
                test_run_id test_case_keys section_hierarchy_paths
                section_subtree_ids section_ids filter_rule log)) ->
  mutating r = true ->
  exists resolved_test_case_ids log1 idss log2,
    resolve_test_case_keys remote domain api_key project_identifier
      test_case_keys [] log = (Ok (inr resolved_test_case_ids), log1) /\
    paths_resolved remote domain api_key project_identifier log1
      (match section_hierarchy_paths with Some paths => paths | None => [] end)
      idss log2 /\
    snd (fr_add_testcases_to_testrun remote domain api_key project_identifier
           test_run_id test_case_keys section_hierarchy_paths
           section_subtree_ids section_ids filter_rule log) = log2 ++ [r] /\
    meth r = PUT /\
    body r
    = Some (JObj
        [("filter_rule",
          JList (match filter_rule with Some rule => rule | None => [] end));
         ("test_case_ids", JList (map JStr resolved_test_case_ids));
         ("section_subtree_ids",
          JList (map JStr
                   (map Py.str (concat idss)
                    ++ map fmt (match section_subtree_ids with
                                | Some ids => ids
                                | None => []
                                end))));
         ("section_ids",
          JList (map (fun sid => JStr (fmt sid))
                   (match section_ids with Some ids => ids | None => [] end)))]).
Proof.
  unfold fr_add_testcases_to_testrun.
  destruct (not_configured domain api_key).
  { intros Hin Hmut. unfold ret in Hin. cbn [snd] in Hin.
    rewrite drop_all in Hin. by apply elem_of_nil in Hin. }
  rewrite bind_run.
  pose proof (resolve_test_case_keys_only_gets test_case_keys [] log) as Hg1.
  destruct (resolve_test_case_keys remote domain api_key project_identifier
              test_case_keys [] log) as [[[out|tc_ids]|e] log1] eqn:Htc;
    cbn [snd] in Hg1.
  1,3: intros Hin Hmut; cbn [snd ret] in Hin;
       by rewrite (only_gets_no_mutation _ _ _ Hg1 Hin) in Hmut.
  rewrite bind_run.
  destruct (resolve_paths_spec (or_empty section_hierarchy_paths) [] log1)
    as [Hg2 Hspec].
  destruct (resolve_paths remote domain api_key project_identifier
              (or_empty section_hierarchy_paths) [] log1)
    as [[[out|ids]|e] log2] eqn:Hpaths; cbn [snd] in Hg2.
  1,3: intros Hin Hmut; cbn [snd ret] in Hin;
       by rewrite (only_gets_no_mutation _ _ _ (only_gets_trans _ _ _ Hg1 Hg2) Hin)
         in Hmut.
  destruct (Hspec ids log2 eq_refl) as (idss & Hres & ->).
  rewrite final_step_log. intros Hin Hmut.
  destruct (only_gets_trans _ _ _ Hg1 Hg2) as (gets & -> & Hgets).
  rewrite <- app_assoc, drop_app_length in Hin.
  apply elem_of_app in Hin as [Hin|Hin].
  { rewrite Forall_forall in Hgets. by rewrite (Hgets r Hin) in Hmut. }
  apply list_elem_of_singleton in Hin as ->.
  exists tc_ids, log1, idss, (log ++ gets).
  split; [done|]. split; [exact Hres|]. split; [done|]. split; reflexivity.
Qed.

End TestRun.

Lemma testrun_section_subtree_merge_witness :
  exists r earlier,
    snd (fr_add_testcases_to_testrun demo_testrun_remote demo_domain demo_api_key
           (KStr "ENG") (KInt 77) [KStr "TC-1"] (Some ["A > B"]) (Some [KInt 7])
           None None []) = earlier ++ [r] /\
    body r
    = Some (JObj [("filter_rule", JList []);
                  ("test_case_ids", JList [JStr "11"]);
                  ("section_subtree_ids", JList [JStr "5"; JStr "7"]);
                  ("section_ids", JList [])]).
Proof.
  set (payload := JObj [("filter_rule", JList []);
                        ("test_case_ids", JList [JStr "11"]);
                        ("section_subtree_ids", JList [JStr "5"; JStr "7"]);
                        ("section_ids", JList [])]).
  destruct (testrun_section_subtree_merge demo_testrun_remote demo_domain
              demo_api_key (KStr "ENG") (KInt 77) [KStr "TC-1"] (Some ["A > B"])
              (Some [KInt 7]) None None []
              (testrun_request demo_domain demo_api_key (KStr "ENG") (KInt 77) payload))
    as (tc_ids & log1 & idss & log2 & _ & _ & Hlog & _ & _).
  - vm_compute. do 2 apply list_elem_of_further. apply list_elem_of_here.
  - reflexivity.
  - eexists _, log2. split; [exact Hlog|reflexivity].
Defined.

(* --------------------------------------------------------------------- *)
(* The tools that wrap one request                                        *)
(* --------------------------------------------------------------------- *)

Lemma one_request_run remote r ws wo log :
  try_except (bind (fetch remote r) (fun d => ret (fst d))) (handlers ws wo) log
  = (answer_of ws wo (remote log r), log ++ [r]).
Proof.
  unfold try_except, bind. rewrite fetch_run.
  destruct (remote log r) as [cls msg|status parsed]; [reflexivity|].
  destruct status; simpl; [reflexivity|].
  destruct parsed; reflexivity.
Qed.

Lemma answer_of_raises ws wo reply e :
  answer_of ws wo reply = Raise e <->
  exists msg body_msg,
    reply = Reply (Some msg) (inr body_msg) /\ e = Other "JSONDecodeError" body_msg.
Proof.
  split.
  - destruct reply as [cls msg|[msg|] [data|body_msg]]; simpl; try discriminate.
    intros [= <-]. eauto.
  - intros (msg & body_msg & -> & ->). reflexivity.
Qed.

Lemma not_configured_unset domain api_key :
  not_configured domain api_key = true <-> unset domain \/ unset api_key.
Proof.
  unfold not_configured, unset, env_truthy.
  destruct domain as [[|c d]|], api_key as [[|c' k]|]; simpl; split;
    try (intros _; auto; fail); try discriminate;
    intros [[H|H]|[H|H]]; discriminate.
Qed.

Section WrappedTools.

Variable remote : list request -> request -> response.
Variable domain api_key : option string.
Hypothesis configured : not_configured domain api_key = false.

(** X2: each of the seven tools that wrap one call, once the two settings
    are there, sends exactly one request, the one of its endpoint, and
    answers with the parsed body of a 2xx reply, with
    {"error": "<what failed>: <message>", "details": <error body>} for an
    error status, and with {"error": "An unexpected error occurred:
    <message>"} for a transport fault or a 2xx body that is not JSON. The
    tool lets an exception escape in one case only: an error status
    whose body is not JSON, where the handler's own call of json()
    raises. *)
Theorem wrapped_tools_answer (project_identifier key0 : key) (name search_text : string)
  (description : option string) :
  wraps_request remote
    (fr_create_project remote domain api_key name description)
    (create_project_request domain api_key name description)
    "Failed to create project"
  /\ wraps_request remote
       (fr_get_project remote domain api_key project_identifier)
       (get_req api_key (base_url domain +:+ "/projects/" +:+ fmt project_identifier) [])
       "Failed to fetch project"
  /\ wraps_request remote
       (fr_get_task remote domain api_key project_identifier key0)
       (get_req api_key (issue_url domain project_identifier key0) [])
       "Failed to fetch task"
  /\ wraps_request remote
       (fr_get_all_tasks remote domain api_key project_identifier)
       (get_req api_key (base_url domain +:+ "/" +:+ fmt project_identifier +:+ "/issues") [])
       "Failed to fetch task"
  /\ wraps_request remote
       (fr_search_users remote domain api_key project_identifier search_text)
       (users_request domain api_key project_identifier search_text)
       "Failed to search users"
  /\ wraps_request remote
       (fr_list_testcases remote domain api_key project_identifier)
       (get_req api_key
          (base_url domain +:+ "/" +:+ fmt project_identifier +:+ "/test_cases") [])
       "Failed to list test cases"
  /\ wraps_request remote
       (fr_get_testcase remote domain api_key project_identifier key0)
       (get_req api_key (testcase_url domain project_identifier key0) [])
       "Failed to get test case"
  /\ (forall what_status reply e,
        answer_of what_status "An unexpected error occurred" reply = Raise e <->
        exists msg body_msg,
          reply = Reply (Some msg) (inr body_msg) /\
          e = Other "JSONDecodeError" body_msg).
Proof.
  repeat split;
    try (intros log;
         unfold fr_create_project, fr_get_project, fr_get_task, fr_get_all_tasks,
           fr_search_users, fr_list_testcases, fr_get_testcase;
         rewrite configured; apply one_request_run);
    apply answer_of_raises.
Qed.

End WrappedTools.

Lemma wrapped_tools_answer_witness :
  fr_get_task demo_remote demo_domain demo_api_key (KStr "ENG") (KStr "B") []
  = (Ok (JObj [("error", JStr "Failed to fetch task: 404 Not Found");
               ("details", JObj [("message", JStr "no such issue")])]),
     [get_req demo_api_key "https://acme.example/ENG/issues/B" []]).
Proof.
  destruct (wrapped_tools_answer demo_remote demo_domain demo_api_key eq_refl
              (KStr "ENG") (KStr "B") "n" "q" None) as (_ & _ & H & _).
  rewrite (H []). reflexivity.
Defined.

(* --------------------------------------------------------------------- *)
(* Missing settings                                                       *)
(* --------------------------------------------------------------------- *)

(** X1: when FRESHRELEASE_DOMAIN or FRESHRELEASE_API_KEY is missing or
    empty, every tool answers with the same dict
    {"error": "FRESHRELEASE_DOMAIN or FRESHRELEASE_API_KEY is not set"}
    and sends no request at all, whatever its arguments. *)
Theorem unconfigured_tools_send_nothing
  (remote : list request -> request -> response) (domain api_key : option string)
  (project_identifier key0 test_run_id : key) (name text : string)
  (description due_date issue_type_name user : option string)
  (assignee_id : option Z) (status : option status_arg)
  (additional_fields : option (list (string * json)))
  (testcase_keys issue_keys : list key) (paths : option (list string))
  (subtree_ids section_ids : option (list key)) (filter_rule : option (list json))
  (log : list request) :
  unset domain \/ unset api_key ->
  let unanswered (tool : io json) := tool log = (Ok config_error, log) in
  unanswered (fr_create_project remote domain api_key name description)
  /\ unanswered (fr_get_project remote domain api_key project_identifier)
  /\ unanswered (fr_create_task remote domain api_key project_identifier name
                   description assignee_id status due_date issue_type_name user
                   additional_fields)
  /\ unanswered (fr_get_task remote domain api_key project_identifier key0)
  /\ unanswered (fr_get_all_tasks remote domain api_key project_identifier)
  /\ unanswered (fr_get_issue_type_by_name remote domain api_key project_identifier name)
  /\ unanswered (fr_search_users remote domain api_key project_identifier text)
  /\ unanswered (fr_list_testcases remote domain api_key project_identifier)
  /\ unanswered (fr_get_testcase remote domain api_key project_identifier key0)
  /\ unanswered (fr_link_testcase_issues remote domain api_key project_identifier
                   testcase_keys issue_keys)
  /\ unanswered (fr_get_testcases_by_section remote domain api_key project_identifier
                   name)
  /\ unanswered (fr_add_testcases_to_testrun remote domain api_key project_identifier
                   test_run_id testcase_keys paths subtree_ids section_ids filter_rule).
Proof.
  intros H unanswered. apply not_configured_unset in H. unfold unanswered.
  unfold fr_create_project, fr_get_project, fr_create_task, fr_get_task,
    fr_get_all_tasks, fr_get_issue_type_by_name, fr_search_users, fr_list_testcases,
    fr_get_testcase, fr_link_testcase_issues, fr_get_testcases_by_section,
    fr_add_testcases_to_testrun.
  rewrite H. repeat split.
Qed.

Lemma unconfigured_tools_send_nothing_witness :
  fr_create_task demo_project (Some "acme.example") (Some EmptyString) (KStr "ENG")
    "Fix login" None None None None None (Some "Bob") None []
  = (Ok config_error, []).
Proof.
  destruct (unconfigured_tools_send_nothing demo_project (Some "acme.example")
              (Some EmptyString) (KStr "ENG") (KInt 1) (KInt 2) "Fix login" "q"
              None None None (Some "Bob") None None None [] [] None None None None [])
    as (_ & _ & H & _).
  - right. right. reflexivity.
  - exact H.
Defined.

(* --------------------------------------------------------------------- *)
(* fr_get_testcases_by_section                                            *)
(* --------------------------------------------------------------------- *)

Lemma object_get v field default :
  is_object v = true -> exists x, Py.get v field default = Ok x.
Proof. destruct v; try discriminate. intros _. simpl. eauto. Qed.

Lemma object_id v : is_object v = true -> Py.get v "id" JNull = Ok (id_of v).
Proof. destruct v; try discriminate. reflexivity. Qed.

Lemma not_object_get v field default :
  is_object v = false ->
  Py.get v field default
  = Raise (Other "AttributeError"
             ("'" +:+ Py.type_name v +:+ "' object has no attribute 'get'")).
Proof. destruct v; try discriminate; reflexivity. Qed.

Lemma matching_section_ids_spec section_name sections :
  Forall (fun s => is_object s = true) sections ->
  forall matched_ids,
    matching_section_ids (PyStr.lower (PyStr.strip section_name)) sections matched_ids
    = Ok (matched_ids ++ matched_ids_of section_name sections).
Proof.
  unfold matched_ids_of.
  induction 1 as [|sec sections Hsec _ IH]; intros matched_ids.
  - simpl. by rewrite app_nil_r.
  - cbn [matching_section_ids List.filter]. unfold name_matches at 1.
    destruct (object_get sec "name" (JStr EmptyString) Hsec) as [v Hv].
    unfold field_norm. rewrite Hv. cbn [rbind].
    destruct (String.eqb (normalize v) _).
    + rewrite (object_id sec Hsec). cbn [rbind map List.filter].
      destruct (Py.is_int (id_of sec)).
      * rewrite IH. by rewrite <- app_assoc.
      * apply IH.
    + apply IH.
Qed.

Lemma matching_section_ids_raise target before bad after :
  Forall (fun s => is_object s = true) before ->
  is_object bad = false ->
  forall matched_ids,
    matching_section_ids target (before ++ bad :: after) matched_ids
    = Raise (Other "AttributeError"
               ("'" +:+ Py.type_name bad +:+ "' object has no attribute 'get'")).
Proof.
  intros Hbefore Hbad.
  induction Hbefore as [|sec before Hsec _ IH]; intros matched_ids.
  - cbn [app matching_section_ids]. unfold field_norm.
    by rewrite (not_object_get bad _ _ Hbad).
  - cbn [app matching_section_ids].
    destruct (object_get sec "name" (JStr EmptyString) Hsec) as [v Hv].
    unfold field_norm. rewrite Hv. cbn [rbind].
    destruct (String.eqb (normalize v) target); [|apply IH].
    rewrite (object_id sec Hsec). cbn [rbind].
    destruct (Py.is_int (id_of sec)); apply IH.
Qed.

Lemma fetched_all_log remote log reqs datas log' :
  fetched_all remote log reqs datas log' -> log' = log ++ reqs.
Proof.
  induction 1 as [log|log r data reqs datas log' _ _ IH].
  - by rewrite app_nil_r.
  - by rewrite IH, <- app_assoc.
Qed.

Section BySection.

Variable remote : list request -> request -> response.
Variable domain api_key : option string.
Variable project_identifier : key.

Local Abbreviation tc_request :=
  (section_testcases_request domain api_key project_identifier).

(* The loop over the matched ids returns exactly when every request is
   answered 2xx with JSON, and then with the contributions in order. *)
Lemma fetch_section_testcases_ok matched_ids : forall all_results log res log',
  fetch_section_testcases remote domain api_key project_identifier matched_ids
    all_results log = (Ok res, log') <->
  exists datas,
    fetched_all remote log (map tc_request matched_ids) datas log' /\
    res = all_results ++ flat_map contribution datas.
Proof.
  induction matched_ids as [|sid rest IH]; intros all_results log res log'.
  - cbn [fetch_section_testcases map]. unfold ret. split.
    + intros [= <- <-]. exists []. split; [constructor|]. by rewrite app_nil_r.
    + intros (datas & Hf & ->). inversion Hf; subst. by rewrite app_nil_r.
  - cbn [fetch_section_testcases map]. rewrite bind_run, fetch_run.
    destruct (remote log (tc_request sid)) as [cls msg|status parsed] eqn:Hreply.
    { split; [discriminate|]. intros (datas & Hf & _).
      inversion Hf; subst. congruence. }
    destruct status as [smsg|].
    { split; [discriminate|]. intros (datas & Hf & _).
      inversion Hf; subst. congruence. }
    destruct parsed as [data|jmsg].
    2:{ split; [discriminate|]. intros (datas & Hf & _).
        inversion Hf; subst. congruence. }
    cbn [raise_for_status response_json rbind fst snd].
    assert (Hgen : forall acc, acc = all_results ++ contribution data ->
      (fetch_section_testcases remote domain api_key project_identifier rest acc
         (log ++ [tc_request sid]) = (Ok res, log') <->
       exists datas,
         fetched_all remote log (tc_request sid :: map tc_request rest) datas log' /\
         res = all_results ++ flat_map contribution datas)).
    { intros acc ->. rewrite IH. split.
      - intros (datas & Hf & ->). exists (data :: datas).
        split; [by econstructor|]. simpl. by rewrite app_assoc.
      - intros (datas & Hf & ->). inversion Hf; subst.
        match goal with
        | H : remote log _ = Reply None (inl ?d) |- _ =>
            rewrite Hreply in H; injection H as <-
        end.
        eexists. split; [eassumption|]. simpl. by rewrite app_assoc. }
    destruct data; apply Hgen; reflexivity.
Qed.

Lemma fetch_section_testcases_log matched_ids : forall all_results log,
  exists n,
    snd (fetch_section_testcases remote domain api_key project_identifier matched_ids
           all_results log)
    = log ++ take n (map tc_request matched_ids).
Proof.
  induction matched_ids as [|sid rest IH]; intros all_results log.
  - exists O. simpl. by rewrite app_nil_r.
  - cbn [fetch_section_testcases map]. rewrite bind_run, fetch_run.
    destruct (remote log (tc_request sid)) as [cls msg|status parsed].
    { by exists 1%nat. }
    destruct status as [smsg|]; [by exists 1%nat|].
    destruct parsed as [data|jmsg]; [|by exists 1%nat].
    cbn [raise_for_status response_json rbind fst snd].
    assert (Hn : forall acc, exists n,
               snd (fetch_section_testcases remote domain api_key project_identifier
                      rest acc (log ++ [tc_request sid]))
               = log ++ take n (tc_request sid :: map tc_request rest)).
    { intros acc. destruct (IH acc (log ++ [tc_request sid])) as [n Hn].
      exists (S n). rewrite Hn. simpl. by rewrite <- app_assoc. }
    destruct data; apply Hn.
Qed.

Lemma handled_not_list ws wo e l : handled ws wo e <> Ok (JList l).
Proof.
  destruct e as [msg [body|body_msg]|cls msg]; simpl; discriminate.
Qed.

Hypothesis configured : not_configured domain api_key = false.

(* The tool after a 2xx listing of sections. *)
Lemma by_section_run section_name log sections :
  remote log (sections_request domain api_key project_identifier)
  = Reply None (inl (JList sections)) ->
  fr_get_testcases_by_section remote domain api_key project_identifier
    section_name log
  = let log1 := log ++ [sections_request domain api_key project_identifier] in
    match matching_section_ids (PyStr.lower (PyStr.strip section_name)) sections [] with
    | Raise e => (Raise e, log1)
    | Ok [] => (Ok (section_not_found section_name), log1)
    | Ok matched_ids =>
        match fetch_section_testcases remote domain api_key project_identifier
                matched_ids [] log1 with
        | (Ok all_results, log2) => (Ok (JList all_results), log2)
        | (Raise e, log2) =>
            (handled "Failed to fetch test cases for section"
               "An unexpected error occurred while fetching test cases" e, log2)
        end
    end.
Proof.
  intros Hreply. unfold fr_get_testcases_by_section. rewrite configured.
  rewrite bind_run. unfold try_except at 1. rewrite bind_run, fetch_run.
  fold (sections_request domain api_key project_identifier).
  rewrite Hreply. cbn [raise_for_status response_json rbind fst snd ret].
  rewrite bind_run. unfold lift at 1.
  destruct (matching_section_ids _ sections []) as [[|sid matched]|e];
    [reflexivity| |reflexivity].
  unfold try_except. rewrite bind_run.
  by destruct (fetch_section_testcases _ _ _ _ _ _ _) as [[all_results|e] log2].
Qed.

(** X3: fr_get_testcases_by_section, on a listing whose elements are
    objects, looks the name up in the flat listing: it keeps the int ids
    of all sections whose trimmed, lowered name is the trimmed, lowered
    section_name, in listing order, wherever they sit in the hierarchy.
    With no such section it answers "Section named '<name>' not found"
    after the one request for the listing. Otherwise it asks for the test
    cases of each kept id in turn (parameter section_subtree_ids[] =
    str(id)), and it answers with a list exactly when every one of these
    requests is answered 2xx with JSON; the list is then the
    concatenation, in section order, of the replies (a reply that is a
    list adds its elements, any other reply is added as one element). No
    partial list is ever returned. *)
Theorem by_section_merges_in_order section_name log sections :
  remote log (sections_request domain api_key project_identifier)
  = Reply None (inl (JList sections)) ->
  Forall (fun s => is_object s = true) sections ->
  let run := fr_get_testcases_by_section remote domain api_key project_identifier
               section_name log in
  let log1 := log ++ [sections_request domain api_key project_identifier] in
  let requests := map tc_request (matched_ids_of section_name sections) in
  (matched_ids_of section_name sections = [] ->
   run = (Ok (section_not_found section_name), log1))
  /\ (matched_ids_of section_name sections <> [] ->
      forall res log',
        run = (Ok (JList res), log') <->
        exists datas,
          fetched_all remote log1 requests datas log' /\
          res = flat_map contribution datas)
  /\ (exists n, snd run = log1 ++ take n requests).
Proof.
  intros Hreply Hobjects run log1 requests. unfold run, requests.
  clear run requests.
  rewrite (by_section_run section_name log sections Hreply).
  rewrite (matching_section_ids_spec section_name sections Hobjects []).
  cbn [app]. fold log1.
  destruct (matched_ids_of section_name sections) as [|sid matched] eqn:Hm.
  - split; [done|]. split; [done|]. exists O. simpl. by rewrite app_nil_r.
  - split; [done|]. split.
    + intros _ res log'.
      pose proof (fetch_section_testcases_ok (sid :: matched) [] log1 res log')
        as Hok.
      cbn [app] in Hok. rewrite <- Hok. clear Hok.
      destruct (fetch_section_testcases _ _ _ _ _ _ _) as [[all_results|e] log2].
      * split; [intros [= <- <-]; done|intros [= <- <-]; done].
      * split; [|discriminate].
        intros [= H _]. by apply handled_not_list in H.
    + destruct (fetch_section_testcases_log (sid :: matched) [] log1) as [n Hn].
      exists n.
      by destruct (fetch_section_testcases _ _ _ _ _ _ _) as [[all_results|e] log2].
Qed.

(** X4: the loop of fr_get_testcases_by_section over the sections runs
    outside every try block. When an element of the listing is not an
    object (and the elements before it are), the AttributeError of its
    .get escapes the tool: the tool raises instead of answering with an
    error dict, having sent the one request for the listing. *)
Theorem by_section_raises_on_non_object section_name log before bad after :
  remote log (sections_request domain api_key project_identifier)
  = Reply None (inl (JList (before ++ bad :: after))) ->
  Forall (fun s => is_object s = true) before ->
  is_object bad = false ->
  fr_get_testcases_by_section remote domain api_key project_identifier
    section_name log
  = (Raise (Other "AttributeError"
              ("'" +:+ Py.type_name bad +:+ "' object has no attribute 'get'")),
     log ++ [sections_request domain api_key project_identifier]).
Proof.
  intros Hreply Hbefore Hbad.
  rewrite (by_section_run section_name log _ Hreply).
  by rewrite (matching_section_ids_raise _ before bad after Hbefore Hbad).
Qed.

End BySection.

Lemma by_section_merges_in_order_witness :
  fst (fr_get_testcases_by_section demo_by_section_remote demo_domain demo_api_key
         (KStr "ENG") " b " [])
  = Ok (JList [JInt 21; JInt 22; JObj [("id", JInt 31)]]).
Proof.
  destruct (by_section_merges_in_order demo_by_section_remote demo_domain demo_api_key
              (KStr "ENG") eq_refl " b " [] demo_forest eq_refl
              ltac:(repeat constructor)) as (_ & H & _).
  specialize (H ltac:(discriminate)).
  erewrite (proj2 (H _ _)); [reflexivity|].
  eexists. split.
  - repeat (eapply fetched_cons; [reflexivity|]). apply fetched_nil.
  - reflexivity.
Defined.

Lemma by_section_raises_on_non_object_witness :
  fr_get_testcases_by_section demo_broken_listing_remote demo_domain demo_api_key
    (KStr "ENG") "B" []
  = (Raise (Other "AttributeError" "'str' object has no attribute 'get'"),
     [sections_request demo_domain demo_api_key (KStr "ENG")]).
Proof.
  apply (by_section_raises_on_non_object demo_broken_listing_remote demo_domain
           demo_api_key (KStr "ENG") eq_refl "B" []
           [demo_section 1 "A" JNull] (JStr "oops") [demo_section 2 "B" JNull]).
  - reflexivity.
  - repeat constructor.
  - reflexivity.
Defined.

(* --------------------------------------------------------------------- *)
(* Which tools change the remote state, and how often                     *)
(* --------------------------------------------------------------------- *)

Lemma only_gets_take log (reqs : list request) n :
  Forall (fun r => mutating r = false) reqs -> only_gets log (log ++ take n reqs).
Proof. intros H. exists (take n reqs). split; [done|]. by apply Forall_take. Qed.

Lemma one_request_only_gets remote r ws wo log :
  mutating r = false ->
  only_gets log
    (snd (try_except (bind (fetch remote r) (fun d => ret (fst d))) (handlers ws wo) log)).
Proof. intros Hr. rewrite one_request_run. by apply only_gets_one. Qed.

Lemma issue_type_by_name_log remote domain api_key project_identifier name log :
  not_configured domain api_key = false ->
  snd (fr_get_issue_type_by_name remote domain api_key project_identifier name log)
  = log ++ [issue_types_request domain api_key project_identifier].
Proof.
  intros Hconf. unfold fr_get_issue_type_by_name. rewrite Hconf.
  unfold try_except. rewrite bind_run, fetch_run.
  fold (issue_types_request domain api_key project_identifier).
  destruct (remote log _) as [cls msg|status parsed]; [reflexivity|].
  destruct status as [smsg|]; cbn [raise_for_status rbind]; [reflexivity|].
  destruct parsed as [data|jmsg]; cbn [response_json rbind fst snd]; [|reflexivity].
  destruct data as [| | | |items| ]; try reflexivity.
  rewrite bind_run. unfold lift.
  destruct (find_issue_type _ items) as [[item|]|e]; reflexivity.
Qed.

Lemma by_section_only_gets remote domain api_key project_identifier name log :
  only_gets log
    (snd (fr_get_testcases_by_section remote domain api_key project_identifier
            name log)).
Proof.
  unfold fr_get_testcases_by_section.
  destruct (not_configured domain api_key); [apply only_gets_refl|].
  rewrite bind_run. unfold try_except at 1. rewrite bind_run, fetch_run.
  set (sreq := get_req api_key (sections_url domain project_identifier) []).
  assert (Hone : only_gets log (log ++ [sreq])) by by apply only_gets_one.
  destruct (remote log sreq) as [cls msg|status parsed]; [exact Hone|].
  destruct status as [smsg|]; cbn [raise_for_status rbind].
  { unfold handlers, lift, bind, ret. cbn [handled].
    by destruct (status_error_dict _ smsg parsed). }
  destruct parsed as [sections|jmsg]; cbn [response_json rbind fst snd ret];
    [|exact Hone].
  destruct sections as [| | | |secs| ]; try exact Hone.
  rewrite bind_run. unfold lift at 1.
  destruct (matching_section_ids _ secs []) as [[|sid matched]|e]; try exact Hone.
  unfold try_except. rewrite bind_run.
  destruct (fetch_section_testcases_log remote domain api_key project_identifier
              (sid :: matched) [] (log ++ [sreq])) as [n Hn].
  destruct (fetch_section_testcases _ _ _ _ _ _ _) as [[all_results|e] log2];
    cbn [snd] in Hn; subst log2; cbn [snd ret handlers lift].
  - eapply only_gets_trans; [exact Hone|].
    apply only_gets_take, Forall_forall. intros r Hr.
    by apply list_elem_of_fmap in Hr as (x & -> & _).
  - eapply only_gets_trans; [exact Hone|].
    apply only_gets_take, Forall_forall. intros r Hr.
    by apply list_elem_of_fmap in Hr as (x & -> & _).
Qed.

(** X5: the tools that read (fr_get_project, fr_get_task, fr_get_all_tasks,
    fr_get_issue_type_by_name, fr_search_users, fr_list_testcases,
    fr_get_testcase, fr_get_testcases_by_section) never send a POST or a
    PUT: whatever the settings, the arguments and the replies, every
    request they add to the log is a GET. *)
Theorem read_tools_only_get
  (remote : list request -> request -> response) (domain api_key : option string)
  (project_identifier key0 : key) (name text : string) (log : list request) :
  let reads (tool : io json) := only_gets log (snd (tool log)) in
  reads (fr_get_project remote domain api_key project_identifier)
  /\ reads (fr_get_task remote domain api_key project_identifier key0)
  /\ reads (fr_get_all_tasks remote domain api_key project_identifier)
  /\ reads (fr_get_issue_type_by_name remote domain api_key project_identifier name)
  /\ reads (fr_search_users remote domain api_key project_identifier text)
  /\ reads (fr_list_testcases remote domain api_key project_identifier)
  /\ reads (fr_get_testcase remote domain api_key project_identifier key0)
  /\ reads (fr_get_testcases_by_section remote domain api_key project_identifier name).
Proof.
  intros reads. unfold reads.
  unfold fr_get_project, fr_get_task, fr_get_all_tasks, fr_search_users,
    fr_list_testcases, fr_get_testcase.
  destruct (not_configured domain api_key) eqn:Hconf.
  - repeat split; try apply only_gets_refl.
    + unfold fr_get_issue_type_by_name. rewrite Hconf. apply only_gets_refl.
    + apply by_section_only_gets.
  - repeat split; try (by apply one_request_only_gets).
    + rewrite issue_type_by_name_log by done. by apply only_gets_one.
    + apply by_section_only_gets.
Qed.

Lemma only_gets_at_most log log' : only_gets log log' -> at_most_one_mutation log log'.
Proof. intros (gets & -> & Hg). exists gets. split; [done|]. by left. Qed.

Lemma only_gets_then_one log log1 r :
  only_gets log log1 -> mutating r = true -> at_most_one_mutation log (log1 ++ [r]).
Proof.
  intros (gets & -> & Hg) Hr. exists gets. split; [done|]. right.
  exists r. split; [done|]. by rewrite <- app_assoc.
Qed.

Lemma testcase_loop_only_gets remote domain api_key project_identifier keys log :
  only_gets log
    (snd (testcase_ids_loop remote domain api_key project_identifier keys [] log)).
Proof.
  destruct (testcase_ids_loop _ _ _ _ _ _ _) as [[ids|e] log'] eqn:E.
  - apply testcase_ids_ok in E as [-> _]. cbn [snd].
    rewrite <- (firstn_all (map _ keys)).
    apply only_gets_take, Forall_forall. intros r Hr.
    by apply list_elem_of_fmap in Hr as (x & -> & _).
  - apply testcase_ids_raise in E as (i & _ & ->). cbn [snd].
    apply only_gets_take, Forall_forall. intros r Hr.
    by apply list_elem_of_fmap in Hr as (x & -> & _).
Qed.

Lemma issue_ids_only_gets remote domain api_key project_identifier keys log :
  only_gets log
    (snd (issue_ids_from_keys remote domain api_key project_identifier keys log)).
Proof.
  destruct (issue_ids_from_keys _ _ _ _ _ _) as [[ids|e] log'] eqn:E.
  - apply issue_ids_ok in E as [-> _]. cbn [snd].
    rewrite <- (firstn_all (map _ keys)).
    apply only_gets_take, Forall_forall. intros r Hr.
    by apply list_elem_of_fmap in Hr as (x & -> & _).
  - apply issue_ids_raise in E as (i & _ & ->). cbn [snd].
    apply only_gets_take, Forall_forall. intros r Hr.
    by apply list_elem_of_fmap in Hr as (x & -> & _).
Qed.

(** X6: the tools that write (fr_create_project, fr_create_task,
    fr_link_testcase_issues, fr_add_testcases_to_testrun) send at most
    one POST or PUT in a call, and when they send it, it is the last
    request of the call: everything before it is a GET. *)
Theorem write_tools_mutate_once
  (remote : list request -> request -> response) (domain api_key : option string)
  (project_identifier test_run_id : key) (name : string)
  (description due_date issue_type_name user : option string)
  (assignee_id : option Z) (status : option status_arg)
  (additional_fields : option (list (string * json)))
  (testcase_keys issue_keys : list key) (paths : option (list string))
  (subtree_ids section_ids : option (list key)) (filter_rule : option (list json))
  (log : list request) :
  let writes_once (tool : io json) := at_most_one_mutation log (snd (tool log)) in
  writes_once (fr_create_project remote domain api_key name description)
  /\ writes_once (fr_create_task remote domain api_key project_identifier name
                    description assignee_id status due_date issue_type_name user
                    additional_fields)
  /\ writes_once (fr_link_testcase_issues remote domain api_key project_identifier
                    testcase_keys issue_keys)
  /\ writes_once (fr_add_testcases_to_testrun remote domain api_key project_identifier
                    test_run_id testcase_keys paths subtree_ids section_ids filter_rule).
Proof.
  intros writes_once. unfold writes_once. clear writes_once.
  split; [|split; [|split]].
  - unfold fr_create_project.
    destruct (not_configured domain api_key);
      [apply only_gets_at_most, only_gets_refl|].
    rewrite one_request_run. cbn [snd].
    by apply only_gets_then_one; [apply only_gets_refl|].
  - destruct (create_task_cases remote domain api_key project_identifier name
                description assignee_id status due_date issue_type_name user
                additional_fields log)
      as [(gets & Hg & -> & _)|(gets & v & c & Hg & _ & _ & -> & _)].
    + exists gets. split; [done|]. by left.
    + exists gets. split; [done|]. right. eexists. split; [|reflexivity]. done.
  - destruct (not_configured domain api_key) eqn:Hconf.
    { unfold fr_link_testcase_issues. rewrite Hconf.
      apply only_gets_at_most, only_gets_refl. }
    rewrite link_run by done.
    pose proof (testcase_loop_only_gets remote domain api_key project_identifier
                  testcase_keys log) as Hg1.
    destruct (testcase_ids_loop _ _ _ _ _ _ log) as [[tids|e] log1];
      cbn [snd] in Hg1; [|by apply only_gets_at_most].
    pose proof (issue_ids_only_gets remote domain api_key project_identifier
                  issue_keys log1) as Hg2.
    destruct (issue_ids_from_keys _ _ _ _ _ log1) as [[iids|e] log2];
      cbn [snd] in Hg2.
    + cbn [snd]. apply only_gets_then_one; [|done].
      by eapply only_gets_trans.
    + cbn [snd]. apply only_gets_at_most. by eapply only_gets_trans.
  - unfold fr_add_testcases_to_testrun.
    destruct (not_configured domain api_key);
      [apply only_gets_at_most, only_gets_refl|].
    rewrite bind_run.
    pose proof (resolve_test_case_keys_only_gets remote domain api_key
                  project_identifier testcase_keys [] log) as Hg1.
    destruct (resolve_test_case_keys _ _ _ _ _ _ log) as [[[out|tc_ids]|e] log1];
      cbn [snd] in Hg1; try (by apply only_gets_at_most).
    rewrite bind_run.
    destruct (resolve_paths_spec remote domain api_key project_identifier
                (or_empty paths) [] log1) as [Hg2 _].
    destruct (resolve_paths _ _ _ _ _ _ log1) as [[[out|ids]|e] log2];
      cbn [snd] in Hg2;
      try (apply only_gets_at_most; by eapply only_gets_trans).
    rewrite final_step_log.
    apply only_gets_then_one; [by eapply only_gets_trans|done].
Qed.

(* --------------------------------------------------------------------- *)
(* fr_create_task: the order of its requests                              *)
(* --------------------------------------------------------------------- *)

Lemma name_matches_norm segment t :
  name_matches segment t = true <-> field_norm t "name" = Ok (PyStr.lower segment).
Proof.
  unfold name_matches. destruct (field_norm t "name") as [name|e].
  - split; [intros H; by apply String.eqb_eq in H as ->|].
    intros [= ->]. apply String.eqb_refl.
  - split; discriminate.
Qed.

Lemma norm_object_id t field name :
  field_norm t field = Ok name -> Py.get t "id" JNull = Ok (id_of t).
Proof. destruct t; try discriminate. reflexivity. Qed.

(* The loop over the issue types ends at the first one of the name. *)
Lemma match_issue_type_first target before t after :
  no_type_named target before ->
  field_norm t "name" = Ok target ->
  match_issue_type target (before ++ t :: after) = Ok (id_of t).
Proof.
  intros Hbefore Ht.
  induction Hbefore as [|x before (name & Hname & Hne) _ IH]; simpl.
  - rewrite Ht. cbn [rbind]. rewrite String.eqb_refl.
    by eapply norm_object_id.
  - rewrite Hname. cbn [rbind].
    destruct (String.eqb name target) eqn:E; [|exact IH].
    apply String.eqb_eq in E. contradiction.
Qed.

(* An id that the loop gives is the id of the first issue type of the
   name. *)
Lemma match_issue_type_found target types_list v :
  match_issue_type target types_list = Ok v -> Py.is_none v = false ->
  exists before t after,
    types_list = before ++ t :: after /\
    no_type_named target before /\
    field_norm t "name" = Ok target /\ v = id_of t.
Proof.
  induction types_list as [|x rest IH]; simpl.
  - intros [= <-]. discriminate.
  - destruct (field_norm x "name") as [name|e] eqn:Hname; [|discriminate].
    cbn [rbind]. destruct (String.eqb name target) eqn:E.
    + apply String.eqb_eq in E as ->. intros Hget _.
      exists [], x, rest. split; [done|]. split; [constructor|].
      split; [done|].
      rewrite (norm_object_id _ _ _ Hname) in Hget. by injection Hget.
    + intros Hrest Hv.
      destruct (IH Hrest Hv) as (before & t & after & -> & Hb & Ht & ->).
      exists (x :: before), t, after. split; [done|].
      split; [|done]. constructor; [|done].
      exists name. split; [done|]. intros ->. by rewrite String.eqb_refl in E.
Qed.

Section CreateTaskTrace.

Variable remote : list request -> request -> response.
Variable domain api_key : option string.
Variable project_identifier : key.

Local Abbreviation types_request :=
  (project_issue_types_request domain api_key project_identifier).

Ltac outcome_done :=
  first
    [ left; eexists; reflexivity
    | right; left; eexists; reflexivity
    | right; right; eexists; split; [eassumption|reflexivity] ].

Lemma resolve_issue_type_shape issue_type_name p log :
  exists o,
    resolve_issue_type remote domain api_key project_identifier issue_type_name p log
    = (o, log ++ [types_request]) /\
    step_outcome "issue_type_id" p o.
Proof.
  unfold resolve_issue_type. rewrite task_name_truthy.
  unfold try_except, bind, handlers, lift, ret. rewrite fetch_run.
  fold types_request.
  destruct (remote log types_request) as [cls msg|status parsed].
  { eexists. split; [reflexivity|]. unfold step_outcome. outcome_done. }
  destruct status as [smsg|]; simpl.
  { destruct (status_error_dict _ smsg parsed);
      eexists; (split; [reflexivity|]); unfold step_outcome; outcome_done. }
  destruct parsed as [it_data|jmsg]; simpl.
  2:{ eexists. split; [reflexivity|]. unfold step_outcome. outcome_done. }
  destruct (match it_data with JObj _ => _ | _ => _ end) as [types_list|e].
  2:{ destruct (handled _ _ e);
        eexists; (split; [reflexivity|]); unfold step_outcome; outcome_done. }
  destruct (match_issue_type _ types_list) as [matched_id|e].
  2:{ destruct (handled _ _ e);
        eexists; (split; [reflexivity|]); unfold step_outcome; outcome_done. }
  destruct (Py.is_none matched_id) eqn:Hnone;
    eexists; (split; [reflexivity|]); unfold step_outcome; outcome_done.
Qed.

(* The user resolver is skipped when the payload has an assignee_id or
   the user is absent or empty; otherwise it sends the search. *)
Lemma resolve_user_skipped user p log :
  Py.has_key "assignee_id" p = true \/ user_given user = false ->
  resolve_user remote domain api_key project_identifier user p log
  = (Ok (inr p), log).
Proof.
  intros H. unfold resolve_user. destruct user as [u|]; [|reflexivity].
  destruct H as [-> | H]; [reflexivity|]. simpl in H. rewrite H.
  by rewrite andb_false_r.
Qed.

Lemma resolve_user_shape u p log :
  Py.has_key "assignee_id" p = false -> PyStr.truthy u = true ->
  exists o,
    resolve_user remote domain api_key project_identifier (Some u) p log
    = (o, log ++ [users_request domain api_key project_identifier u]) /\
    step_outcome "assignee_id" p o.
Proof.
  intros Hkey Hu. unfold resolve_user. rewrite Hkey, Hu. cbn [negb andb].
  unfold try_except, bind, handlers, lift, ret. rewrite fetch_run.
  fold (users_request domain api_key project_identifier u).
  destruct (remote log _) as [cls msg|status parsed].
  { eexists. split; [reflexivity|]. unfold step_outcome. outcome_done. }
  destruct status as [smsg|]; simpl.
  { destruct (status_error_dict _ smsg parsed);
      eexists; (split; [reflexivity|]); unfold step_outcome; outcome_done. }
  destruct parsed as [users_data|jmsg]; cbn [response_json rbind fst snd].
  2:{ eexists. split; [reflexivity|]. unfold step_outcome. outcome_done. }
  destruct (choose_user users_data u) as [chosen_id|e].
  2:{ destruct (handled _ _ e);
        eexists; (split; [reflexivity|]); unfold step_outcome; outcome_done. }
  destruct (Py.is_none chosen_id) eqn:Hnone;
    eexists; (split; [reflexivity|]); unfold step_outcome; outcome_done.
Qed.

(* The issue-type step goes on exactly with the id that the listing
   gives. *)
Lemma resolve_issue_type_resolved issue_type_name p log v :
  issue_type_resolved (remote log types_request)
    (name_to_resolve_of issue_type_name) v ->
  resolve_issue_type remote domain api_key project_identifier issue_type_name p log
  = (Ok (inr (Py.set_item "issue_type_id" v p)), log ++ [types_request]).
Proof.
  intros (fields & before & t & after & Hreply & Hlist & Hbefore & Ht & -> & Hv).
  apply name_matches_norm in Ht.
  unfold resolve_issue_type. rewrite task_name_truthy.
  fold (name_to_resolve_of issue_type_name).
  unfold try_except, bind, handlers, lift, ret. rewrite fetch_run.
  fold types_request. rewrite Hreply.
  cbn [raise_for_status response_json rbind fst snd Py.get].
  rewrite Hlist. cbn [Py.iter rbind].
  rewrite (match_issue_type_first _ _ _ _ Hbefore Ht). by rewrite Hv.
Qed.

Lemma resolve_issue_type_inr issue_type_name p log p' log' :
  resolve_issue_type remote domain api_key project_identifier issue_type_name p log
  = (Ok (inr p'), log') ->
  exists v,
    issue_type_resolved (remote log types_request)
      (name_to_resolve_of issue_type_name) v /\
    p' = Py.set_item "issue_type_id" v p.
Proof.
  unfold resolve_issue_type. rewrite task_name_truthy.
  fold (name_to_resolve_of issue_type_name).
  unfold try_except, bind, handlers, lift, ret. rewrite fetch_run.
  fold types_request.
  destruct (remote log types_request) as [cls msg|status parsed]; [discriminate|].
  destruct status as [smsg|]; cbn [raise_for_status rbind].
  { cbn [handled]. destruct (status_error_dict _ smsg parsed); discriminate. }
  destruct parsed as [it_data|jmsg]; cbn [response_json rbind fst snd];
    [|discriminate].
  destruct it_data as [| | | | |fields]; try discriminate.
  cbn [Py.get rbind].
  destruct (Py.lookup_item "issue_types" fields) as [listing|] eqn:Hlist;
    [|discriminate].
  destruct (Py.iter listing) as [types_list|e] eqn:Hiter.
  2:{ destruct (handled _ _ e); discriminate. }
  destruct (match_issue_type _ types_list) as [matched_id|e] eqn:Hmatch.
  2:{ destruct (handled _ _ e); discriminate. }
  destruct (Py.is_none matched_id) eqn:Hnone; [discriminate|].
  intros [= <- _].
  destruct (match_issue_type_found _ _ _ Hmatch Hnone)
    as (before & t & after & -> & Hbefore & Ht & ->).
  assert (Hlisting : listing = JList (before ++ t :: after)).
  { assert (Hin : t ∈ before ++ t :: after)
      by (apply elem_of_app; right; apply list_elem_of_here).
    destruct listing as [| | |str|l|items]; try discriminate.
    - injection Hiter as Hiter. rewrite <- Hiter in Hin.
      apply list_elem_of_fmap in Hin as (c & -> & _). discriminate.
    - by injection Hiter as ->.
    - injection Hiter as Hiter. rewrite <- Hiter in Hin.
      apply list_elem_of_fmap in Hin as (kv & -> & _). discriminate. }
  subst listing. exists (id_of t). split; [|done].
  exists fields, before, t, after. split; [done|]. split; [done|].
  split; [done|]. split; [by apply name_matches_norm|done].
Qed.

(* The user step goes on with the id chosen from the search result. *)
Lemma resolve_user_inr u p log p' log' :
  Py.has_key "assignee_id" p = false -> PyStr.truthy u = true ->
  resolve_user remote domain api_key project_identifier (Some u) p log
  = (Ok (inr p'), log') ->
  exists c,
    user_resolved (remote log (users_request domain api_key project_identifier u)) u c /\
    p' = Py.set_item "assignee_id" c p.
Proof.
  intros Hkey Hu. unfold resolve_user. rewrite Hkey, Hu. cbn [negb andb].
  unfold try_except, bind, handlers, lift, ret. rewrite fetch_run.
  fold (users_request domain api_key project_identifier u).
  destruct (remote log _) as [cls msg|status parsed]; [discriminate|].
  destruct status as [smsg|]; cbn [raise_for_status rbind].
  { cbn [handled]. destruct (status_error_dict _ smsg parsed); discriminate. }
  destruct parsed as [users_data|jmsg]; cbn [response_json rbind fst snd];
    [|discriminate].
  destruct (choose_user users_data u) as [chosen|e] eqn:Hchoose.
  2:{ destruct (handled _ _ e); discriminate. }
  destruct (Py.is_none chosen) eqn:Hnone; [discriminate|].
  intros [= <- _]. exists chosen. split; [|done].
  destruct users_data as [| | | |users|];
    try (injection Hchoose as <-; discriminate).
  exists users. split; [done|].
  split; [intros ->; injection Hchoose as <-; discriminate|].
  split; [by apply choose_user_chosen|done].
Qed.

Section Trace.

Variables (title : string) (description : option string) (assignee_id : option Z)
  (status : option status_arg) (due_date : option string)
  (issue_type_name user : option string)
  (additional_fields : option (list (string * json))).
Hypothesis configured : not_configured domain api_key = false.

Local Abbreviation run :=
  (fr_create_task remote domain api_key project_identifier title description
     assignee_id status due_date issue_type_name user additional_fields).
Local Abbreviation initial :=
  (initial_payload title description assignee_id status due_date additional_fields).
Local Abbreviation post p :=
  (create_task_request domain api_key project_identifier p).
Local Abbreviation search u :=
  (users_request domain api_key project_identifier u).

Lemma create_task_trace log :
  snd (run log) = log ++ [types_request]
  \/ ((assignee_id <> None \/ user_given user = false) /\
      exists v, Py.is_none v = false /\
        snd (run log) = log ++ [types_request; post (finalize v None initial)])
  \/ (exists u,
        user = Some u /\ assignee_id = None /\ PyStr.truthy u = true /\
        (snd (run log) = log ++ [types_request; search u]
         \/ exists v c, Py.is_none v = false /\ Py.is_none c = false /\
              snd (run log)
              = log ++ [types_request; search u; post (finalize v (Some c) initial)])).
Proof.
  unfold fr_create_task. rewrite configured, bind_run.
  destruct (resolve_issue_type_shape issue_type_name initial log) as (o & -> & Ho).
  destruct Ho as [[e ->]|[[out ->]|(v & Hv & ->)]]; [by left|by left|].
  rewrite bind_run.
  set (p1 := Py.set_item "issue_type_id" v initial).
  assert (Hhas : Py.has_key "assignee_id" p1
                 = match assignee_id with Some _ => true | None => false end).
  { unfold p1, Py.has_key. rewrite lookup_set_item. simpl.
    apply initial_payload_has_assignee. }
  assert (Hskip : assignee_id <> None \/ user_given user = false ->
            snd (match resolve_user remote domain api_key project_identifier user p1
                         (log ++ [types_request]) with
                 | (Ok a, log') =>
                     match a with
                     | inl out => ret out
                     | inr payload =>
                         try_except
                           (bind (fetch remote (post payload)) (fun d => ret (fst d)))
                           (handlers "Failed to create task"
                              "An unexpected error occurred")
                     end log'
                 | (Raise e, log') => (Raise e, log')
                 end)
            = log ++ [types_request; post (finalize v None initial)]).
  { intros Hs. rewrite resolve_user_skipped.
    - rewrite final_step_log. by rewrite <- app_assoc.
    - destruct Hs as [Hs|Hs]; [left|by right].
      rewrite Hhas. by destruct assignee_id. }
  destruct assignee_id as [a|] eqn:Ha.
  { right; left. split; [by left|]. exists v. split; [done|]. apply Hskip. by left. }
  destruct (user_given user) eqn:Hu.
  2:{ right; left. split; [by right|]. exists v. split; [done|]. apply Hskip.
      by right. }
  clear Hskip. destruct user as [u|]; [|discriminate]. simpl in Hu.
  right; right. exists u. split; [done|]. split; [done|]. split; [done|].
  destruct (resolve_user_shape u p1 (log ++ [types_request]) Hhas Hu)
    as (o & -> & Ho).
  destruct Ho as [[e ->]|[[out ->]|(c & Hc & ->)]];
    [left; cbn [snd ret]; by rewrite <- app_assoc
    |left; cbn [snd ret]; by rewrite <- app_assoc|].
  right. exists v, c. split; [done|]. split; [done|].
  rewrite final_step_log. by rewrite <- !app_assoc.
Qed.

(* The same runs, with where the two ids come from. *)
Lemma create_task_provenance log :
  ((forall v, ~ issue_type_resolved (remote log types_request)
                  (name_to_resolve_of issue_type_name) v) /\
   snd (run log) = log ++ [types_request])
  \/ exists v,
       issue_type_resolved (remote log types_request)
         (name_to_resolve_of issue_type_name) v /\
       (((assignee_id <> None \/ user_given user = false) /\
         snd (run log) = log ++ [types_request; post (finalize v None initial)])
        \/ exists u,
             user = Some u /\ assignee_id = None /\ PyStr.truthy u = true /\
             (snd (run log) = log ++ [types_request; search u]
              \/ exists c,
                   user_resolved (remote (log ++ [types_request]) (search u)) u c /\
                   snd (run log)
                   = log ++ [types_request; search u;
                             post (finalize v (Some c) initial)])).
Proof.
  unfold fr_create_task. rewrite configured, bind_run.
  destruct (resolve_issue_type_shape issue_type_name initial log) as (o & Hrun & _).
  destruct o as [[out|p1]|e].
  1,3: left; split; [|by rewrite Hrun];
       intros v Hv; rewrite (resolve_issue_type_resolved _ _ _ _ Hv) in Hrun;
       discriminate.
  destruct (resolve_issue_type_inr _ _ _ _ _ Hrun) as (v & Hv & ->).
  rewrite Hrun. right. exists v. split; [done|].
  rewrite bind_run.
  set (p1 := Py.set_item "issue_type_id" v initial).
  assert (Hhas : Py.has_key "assignee_id" p1
                 = match assignee_id with Some _ => true | None => false end).
  { unfold p1, Py.has_key. rewrite lookup_set_item. simpl.
    apply initial_payload_has_assignee. }
  assert (Hskip : assignee_id <> None \/ user_given user = false ->
            snd (match resolve_user remote domain api_key project_identifier user p1
                         (log ++ [types_request]) with
                 | (Ok a, log') =>
                     match a with
                     | inl out => ret out
                     | inr payload =>
                         try_except
                           (bind (fetch remote (post payload)) (fun d => ret (fst d)))
                           (handlers "Failed to create task"
                              "An unexpected error occurred")
                     end log'
                 | (Raise e, log') => (Raise e, log')
                 end)
            = log ++ [types_request; post (finalize v None initial)]).
  { intros Hs. rewrite resolve_user_skipped.
    - rewrite final_step_log. by rewrite <- app_assoc.
    - destruct Hs as [Hs|Hs]; [left|by right].
      rewrite Hhas. by destruct assignee_id. }
  destruct assignee_id as [a|] eqn:Ha.
  { left. split; [by left|]. apply Hskip. by left. }
  destruct (user_given user) eqn:Hu.
  2:{ left. split; [by right|]. apply Hskip. by right. }
  clear Hskip. destruct user as [u|]; [|discriminate]. simpl in Hu.
  right. exists u. split; [done|]. split; [done|]. split; [done|].
  destruct (resolve_user_shape u p1 (log ++ [types_request]) Hhas Hu)
    as (o & Hrun2 & _).
  destruct o as [[out|p2]|e].
  1,3: left; rewrite Hrun2; cbn [snd ret]; by rewrite <- app_assoc.
  destruct (resolve_user_inr _ _ _ _ _ Hhas Hu Hrun2) as (c & Hc & ->).
  rewrite Hrun2. right. exists c. split; [done|].
  rewrite final_step_log. by rewrite <- !app_assoc.
Qed.

(** X7: fr_create_task, once configured, sends its requests in a fixed
    order: first the GET of the project's issue types, always; then the
    GET of the user search, only when no assignee_id was passed and user
    is a non-empty string; then the POST that creates the task. A call
    ends after any of these requests, and a POST is never sent before
    the issue types were asked for. *)
Theorem create_task_request_order log :
  snd (run log) = log ++ [types_request]
  \/ ((assignee_id <> None \/ user_given user = false) /\
      exists payload, snd (run log) = log ++ [types_request; post payload])
  \/ (exists u,
        user = Some u /\ assignee_id = None /\ PyStr.truthy u = true /\
        (snd (run log) = log ++ [types_request; search u]
         \/ exists payload,
              snd (run log) = log ++ [types_request; search u; post payload])).
Proof.
  destruct (create_task_trace log)
    as [H|[(Hs & v & _ & H)|(u & Hu & Ha & Ht & [H|(v & c & _ & _ & H)])]].
  - by left.
  - right; left. split; [done|]. eauto.
  - right; right. exists u. repeat (split; [done|]). by left.
  - right; right. exists u. repeat (split; [done|]). right. eauto.
Qed.

(** X8: an assignee_id passed by the caller is never replaced. With
    assignee_id = a, whatever user and additional_fields are,
    fr_create_task sends no user search at all, and if it posts, the body
    has assignee_id = a. *)
Theorem caller_assignee_is_kept log a r :
  assignee_id = Some a ->
  r ∈ drop (length log) (snd (run log)) ->
  r = types_request
  \/ exists payload,
       r = post payload /\ Py.lookup_item "assignee_id" payload = Some (JInt a).
Proof.
  intros Ha Hr.
  destruct (create_task_trace log)
    as [H|[(_ & v & _ & H)|(u & _ & Hnone & _)]].
  - rewrite H, drop_app_length in Hr.
    apply list_elem_of_singleton in Hr. by left.
  - rewrite H, drop_app_length in Hr.
    apply elem_of_cons in Hr as [->|Hr]; [by left|].
    apply list_elem_of_singleton in Hr as ->. right.
    eexists. split; [reflexivity|].
    rewrite finalize_core by reflexivity. simpl. by rewrite Ha.
  - congruence.
Qed.

(** X9: fr_create_task never creates a task with an unresolved reference.
    Whenever it sends its POST, the issue_type_id of the body is the id,
    not None, that the listing of issue types gives for the requested
    name (or for the default name task): the id of the first issue type of
    the listing with that name; and, when the caller passed a non-empty
    user and no assignee_id, the assignee_id of the body is the id, not
    None, chosen from the non-empty result of the user search. When the
    listing gives no id for the name, the call ends after the request for
    the listing; when the user search gives no id, the call sends no
    POST. *)
Theorem posted_task_has_resolved_ids log :
  (forall r,
     r ∈ drop (length log) (snd (run log)) -> meth r = POST ->
     exists payload v,
       r = post payload /\
       issue_type_resolved (remote log types_request)
         (name_to_resolve_of issue_type_name) v /\
       Py.lookup_item "issue_type_id" payload = Some v /\
       (assignee_id = None -> forall u, user = Some u -> PyStr.truthy u = true ->
        exists c,
          user_resolved (remote (log ++ [types_request]) (search u)) u c /\
          Py.lookup_item "assignee_id" payload = Some c))
  /\ ((forall v, ~ issue_type_resolved (remote log types_request)
                     (name_to_resolve_of issue_type_name) v) ->
      snd (run log) = log ++ [types_request])
  /\ (forall u,
        assignee_id = None -> user = Some u -> PyStr.truthy u = true ->
        (forall c, ~ user_resolved (remote (log ++ [types_request]) (search u)) u c) ->
        only_gets log (snd (run log))).
Proof.
  destruct (create_task_provenance log)
    as [[Hno H]|(v & Hv & [[Hs H]|(u & Hu & Ha & Ht & [H|(c & Hc & H)])])].
  - split; [|split].
    + intros r Hr Hpost. rewrite H, drop_app_length in Hr.
      apply list_elem_of_singleton in Hr as ->. discriminate.
    + done.
    + intros _ _ _ _ _. rewrite H. by apply only_gets_one.
  - split; [|split].
    + intros r Hr Hpost. rewrite H, drop_app_length in Hr.
      apply elem_of_cons in Hr as [->|Hr]; [discriminate|].
      apply list_elem_of_singleton in Hr as ->.
      exists (finalize v None initial), v. split; [done|]. split; [done|].
      split; [by rewrite finalize_core|].
      intros Hnone u Hu Ht. destruct Hs as [Hs|Hs]; [done|].
      rewrite Hu in Hs. simpl in Hs. congruence.
    + intros Hno. by destruct (Hno v).
    + intros u Hnone Hu Ht _. destruct Hs as [Hs|Hs]; [done|].
      rewrite Hu in Hs. simpl in Hs. congruence.
  - split; [|split].
    + intros r Hr Hpost. rewrite H, drop_app_length in Hr.
      apply elem_of_cons in Hr as [->|Hr]; [discriminate|].
      apply list_elem_of_singleton in Hr as ->. discriminate.
    + intros Hno. by destruct (Hno v).
    + intros _ _ _ _ _. rewrite H. exists [types_request; search u].
      split; [done|]. by repeat constructor.
  - split; [|split].
    + intros r Hr Hpost. rewrite H, drop_app_length in Hr.
      apply elem_of_cons in Hr as [->|Hr]; [discriminate|].
      apply elem_of_cons in Hr as [->|Hr]; [discriminate|].
      apply list_elem_of_singleton in Hr as ->.
      exists (finalize v (Some c) initial), v. split; [done|]. split; [done|].
      split; [by rewrite finalize_core|].
      intros _ u' Hu' _. assert (u' = u) as -> by congruence.
      exists c. split; [done|]. by rewrite finalize_core.
    + intros Hno. by destruct (Hno v).
    + intros u' _ Hu' _ Hno. assert (u' = u) as -> by congruence.
      by destruct (Hno c).
Qed.

End Trace.

End CreateTaskTrace.

Lemma create_task_request_order_witness :
  exists payload,
    snd (fr_create_task demo_project demo_domain demo_api_key (KStr "ENG") "Fix login"
           None None None None None (Some "Bob") None [])
    = [project_issue_types_request demo_domain demo_api_key (KStr "ENG");
       users_request demo_domain demo_api_key (KStr "ENG") "Bob";
       create_task_request demo_domain demo_api_key (KStr "ENG") payload].
Proof.
  destruct (create_task_request_order demo_project demo_domain demo_api_key
              (KStr "ENG") "Fix login" None None None None None (Some "Bob") None
              eq_refl [])
    as [H|[([H|H] & _)|(u & Hu & _ & _ & [H|(payload & H)])]].
  - vm_compute in H. discriminate H.
  - by destruct H.
  - discriminate H.
  - injection Hu as <-. vm_compute in H. discriminate H.
  - injection Hu as <-. exists payload. exact H.
Defined.

Lemma caller_assignee_is_kept_witness :
  exists payload,
    last (snd (fr_create_task demo_project demo_domain demo_api_key (KStr "ENG")
                 "Fix login" None (Some 9) None None None (Some "Bob")
                 (Some [("assignee_id", JInt 5)]) []))
    = Some (create_task_request demo_domain demo_api_key (KStr "ENG") payload) /\
    Py.lookup_item "assignee_id" payload = Some (JInt 9).
Proof.
  set (payload := [("title", JStr "Fix login"); ("assignee_id", JInt 9);
                   ("issue_type_id", JInt 3)]).
  destruct (caller_assignee_is_kept demo_project demo_domain demo_api_key
              (KStr "ENG") "Fix login" None (Some 9) None None None (Some "Bob")
              (Some [("assignee_id", JInt 5)]) eq_refl [] 9
              (create_task_request demo_domain demo_api_key (KStr "ENG") payload)
              eq_refl)
    as [H|(p & Hp & Hlookup)].
  - vm_compute. apply list_elem_of_further, list_elem_of_here.
  - discriminate H.
  - injection Hp as <-. exists payload. split; [reflexivity|exact Hlookup].
Defined.

Lemma posted_task_has_resolved_ids_witness :
  snd (fr_create_task demo_types_remote demo_domain demo_api_key (KStr "ENG")
         "Fix login" None None None None (Some "bug") (Some "Bob") None [])
  = [project_issue_types_request demo_domain demo_api_key (KStr "ENG")].
Proof.
  apply (posted_task_has_resolved_ids demo_types_remote demo_domain demo_api_key
           (KStr "ENG") "Fix login" None None None None (Some "bug") (Some "Bob")
           None eq_refl []).
  intros v (fields & before & t & after & Hreply & _). discriminate Hreply.
Defined.

(** C10, as amended: the filter on the additional fields does not look
    at the explicit arguments. Whatever the additional fields are, the
    body of the POST has no description, status or due_date when that
    argument was not passed, and no assignee_id when neither assignee_id
    nor a non-empty user was passed. With assignee_id absent and a
    non-empty user, assignee_id is the id the user resolver chose from the
    result of the user search; and issue_type_id is always the id the
    issue-type resolver found in the listing of issue types: neither is a
    value of the additional fields. *)
Theorem create_task_unsupplied_fields
  (remote : list request -> request -> response) (domain api_key : option string)
  (project_identifier : key) (title : string) (description : option string)
  (assignee_id : option Z) (status : option status_arg) (due_date : option string)
  (issue_type_name user : option string)
  (af : option (list (string * json))) (log : list request) (r : request) :
  let types_request := project_issue_types_request domain api_key project_identifier in
  r ∈ drop (length log)
        (snd (fr_create_task remote domain api_key project_identifier title
                description assignee_id status due_date issue_type_name user af log)) ->
  mutating r = true ->
  exists payload,
    body r = Some (JObj payload) /\
    (description = None -> Py.lookup_item "description" payload = None) /\
    (status = None -> Py.lookup_item "status" payload = None) /\
    (due_date = None -> Py.lookup_item "due_date" payload = None) /\
    (assignee_id = None -> user_given user = false ->
       Py.lookup_item "assignee_id" payload = None) /\
    (assignee_id = None -> forall u, user = Some u -> PyStr.truthy u = true ->
       exists c,
         user_resolved
           (remote (log ++ [types_request])
              (users_request domain api_key project_identifier u)) u c /\
         Py.lookup_item "assignee_id" payload = Some c) /\
    (exists v,
       issue_type_resolved (remote log types_request)
         (name_to_resolve_of issue_type_name) v /\
       Py.lookup_item "issue_type_id" payload = Some v).
Proof.
  intros types_request Hin Hmut.
  destruct (not_configured domain api_key) eqn:Hconf.
  { unfold fr_create_task in Hin. rewrite Hconf in Hin. cbn [ret snd] in Hin.
    rewrite drop_all in Hin. by apply elem_of_nil in Hin. }
  assert (Hfinal : forall v c,
            issue_type_resolved (remote log types_request)
              (name_to_resolve_of issue_type_name) v ->
            match c with
            | Some x =>
                exists u, user = Some u /\ assignee_id = None /\
                  PyStr.truthy u = true /\
                  user_resolved
                    (remote (log ++ [types_request])
                       (users_request domain api_key project_identifier u)) u x
            | None => assignee_id <> None \/ user_given user = false
            end ->
            r = create_task_request domain api_key project_identifier
                  (finalize v c (initial_payload title description assignee_id
                                   status due_date af)) ->
            exists payload,
              body r = Some (JObj payload) /\
              (description = None -> Py.lookup_item "description" payload = None) /\
              (status = None -> Py.lookup_item "status" payload = None) /\
              (due_date = None -> Py.lookup_item "due_date" payload = None) /\
              (assignee_id = None -> user_given user = false ->
                 Py.lookup_item "assignee_id" payload = None) /\
              (assignee_id = None -> forall u, user = Some u ->
                 PyStr.truthy u = true ->
                 exists c,
                   user_resolved
                     (remote (log ++ [types_request])
                        (users_request domain api_key project_identifier u)) u c /\
                   Py.lookup_item "assignee_id" payload = Some c) /\
              (exists v,
                 issue_type_resolved (remote log types_request)
                   (name_to_resolve_of issue_type_name) v /\
                 Py.lookup_item "issue_type_id" payload = Some v)).
  { intros v c Hv Hc ->. eexists. split; [reflexivity|].
    split; [intros H; rewrite finalize_core by reflexivity; simpl; by rewrite H|].
    split; [intros H; rewrite finalize_core by reflexivity; simpl; by rewrite H|].
    split; [intros H; rewrite finalize_core by reflexivity; simpl; by rewrite H|].
    split; [|split].
    - intros Ha Hu. rewrite finalize_core by reflexivity. simpl.
      destruct c as [x|]; [|by rewrite Ha].
      destruct Hc as (u & Hu' & _ & Ht & _).
      rewrite Hu' in Hu. simpl in Hu. congruence.
    - intros Ha u Hu Ht. rewrite finalize_core by reflexivity. simpl.
      destruct c as [x|].
      + destruct Hc as (u' & Hu' & _ & _ & Hx).
        assert (u' = u) as -> by congruence. eauto.
      + destruct Hc as [Hc|Hc]; [done|]. rewrite Hu in Hc. simpl in Hc. congruence.
    - exists v. split; [done|]. by rewrite finalize_core. }
  destruct (create_task_provenance remote domain api_key project_identifier
              title description assignee_id status due_date issue_type_name
              user af Hconf log)
    as [[Hno H]|(v & Hv & [[Hs H]|(u & Hu & Ha & Ht & [H|(c & Hc & H)])])];
    rewrite H, drop_app_length in Hin.
  - apply list_elem_of_singleton in Hin as ->. discriminate.
  - apply elem_of_cons in Hin as [->|Hin]; [discriminate|].
    apply list_elem_of_singleton in Hin.
    by apply (Hfinal v None).
  - apply elem_of_cons in Hin as [->|Hin]; [discriminate|].
    apply list_elem_of_singleton in Hin as ->. discriminate.
  - apply elem_of_cons in Hin as [->|Hin]; [discriminate|].
    apply elem_of_cons in Hin as [->|Hin]; [discriminate|].
    apply list_elem_of_singleton in Hin.
    apply (Hfinal v (Some c)); [done| |done]. by exists u.
Qed.

Lemma create_task_unsupplied_fields_witness :
  exists payload,
    Py.lookup_item "status" payload = None /\
    Py.lookup_item "assignee_id" payload = Some (JInt 4) /\
    Py.lookup_item "issue_type_id" payload = Some (JInt 3).
Proof.
  set (payload := [("title", JStr "Fix login"); ("issue_type_id", JInt 3);
                   ("assignee_id", JInt 4)]).
  destruct (create_task_unsupplied_fields demo_project demo_domain demo_api_key
              (KStr "ENG") "Fix login" None None None None None (Some "Bob")
              (Some [("status", JStr "blocked"); ("assignee_id", JInt 9)]) []
              (create_task_request demo_domain demo_api_key (KStr "ENG") payload))
    as (p & Hbody & _ & Hstatus & _ & _ & _ & _).
  - vm_compute. do 2 apply list_elem_of_further. apply list_elem_of_here.
  - reflexivity.
  - injection Hbody as <-. exists payload.
    split; [exact (Hstatus eq_refl)|]. split; reflexivity.
Defined.

(* --------------------------------------------------------------------- *)
(* The pagination decoder: which segment wins, what a page number is      *)
(* --------------------------------------------------------------------- *)

Lemma parse_link_entry (pagination : gmap string (option Z)) link :
  parse_link pagination link
  = match link_entry link with
    | Some (rel, n) => <[rel := Some n]> pagination
    | None => pagination
    end.
Proof.
  unfold parse_link, link_entry.
  destruct (Re.search Re.link_re link) as [[|url [|rel [|x gs]]]|]; try reflexivity.
  destruct (Re.search Re.page_re url) as [[|digits [|x gs]]|]; reflexivity.
Qed.

Lemma last_page_snoc rel links link :
  last_page rel (links ++ [link])
  = match link_entry link with
    | Some (rel', n) => if String.eqb rel' rel then Some n else last_page rel links
    | None => last_page rel links
    end.
Proof.
  unfold last_page. rewrite omap_app, rev_app_distr. simpl.
  destruct (link_entry link) as [[rel' n]|]; simpl; [|reflexivity].
  destruct (String.eqb rel' rel); reflexivity.
Qed.

Lemma fold_parse_link_lookup links : forall (pagination : gmap string (option Z)) k,
  fold_left parse_link links pagination !! k
  = match last_page k links with
    | Some n => Some (Some n)
    | None => pagination !! k
    end.
Proof.
  induction links as [|link links IH] using rev_ind; intros pagination k.
  - reflexivity.
  - rewrite fold_left_app. simpl. rewrite parse_link_entry, last_page_snoc.
    destruct (link_entry link) as [[rel n]|]; [|apply IH].
    destruct (String.eqb rel k) eqn:E.
    + apply String.eqb_eq in E as ->. by rewrite lookup_insert_eq.
    + rewrite lookup_insert_ne; [apply IH|].
      intros ->. by rewrite String.eqb_refl in E.
Qed.

Lemma parse_link_header_fold link_header :
  parse_link_header link_header
  = fold_left parse_link (PyStr.split ","%char link_header) empty_record.
Proof.
  unfold parse_link_header. destruct link_header; reflexivity.
Qed.

(** X10: in parse_link_header the last link wins. The value stored under
    a relation name is the page number of the last comma-separated segment
    of the header that carries this relation together with a page number;
    when no segment does, next and prev are None and any other name is
    not a key of the result. *)
Theorem parse_link_header_last_wins link_header rel :
  parse_link_header link_header !! rel
  = match last_page rel (PyStr.split ","%char link_header) with
    | Some n => Some (Some n)
    | None => if String.eqb rel "next" || String.eqb rel "prev" then Some None else None
    end.
Proof.
  rewrite parse_link_header_fold, fold_parse_link_lookup.
  destruct (last_page rel _); [reflexivity|].
  unfold empty_record.
  destruct (String.eqb rel "prev") eqn:Ep.
  { apply String.eqb_eq in Ep as ->. by rewrite lookup_insert_eq, orb_true_r. }
  rewrite lookup_insert_ne by (intros <-; by rewrite String.eqb_refl in Ep).
  destruct (String.eqb rel "next") eqn:En.
  { apply String.eqb_eq in En as ->. by rewrite lookup_insert_eq. }
  rewrite lookup_insert_ne by (intros <-; by rewrite String.eqb_refl in En).
  reflexivity.
Qed.

Lemma digit_val_nonneg c : PyStr.is_digit c = true -> 0 <= PyStr.digit_val c.
Proof.
  unfold PyStr.is_digit, PyStr.digit_val. intros H.
  apply andb_true_iff in H as [H _]. apply N.leb_le in H. lia.
Qed.

Lemma int_of_digits_nonneg s : all_digits s -> 0 <= PyStr.int_of_digits s.
Proof.
  unfold all_digits, PyStr.int_of_digits.
  assert (Hgen : forall cs acc, 0 <= acc ->
            Forall (fun c => PyStr.is_digit c = true) cs ->
            0 <= fold_left (fun acc c => 10 * acc + PyStr.digit_val c) cs acc).
  { induction cs as [|c cs IH]; intros acc Hacc Hcs; simpl; [done|].
    apply Forall_cons in Hcs as [Hc Hcs]. apply IH; [|done].
    pose proof (digit_val_nonneg c Hc). lia. }
  intros H. by apply Hgen.
Qed.

Lemma snoc_chars acc c :
  list_ascii_of_string (Re.snoc acc c) = list_ascii_of_string acc ++ [c].
Proof.
  unfold Re.snoc. induction acc as [|a acc IH]; simpl; [reflexivity|].
  f_equal. exact IH.
Qed.

(* A greedy group at the end of a pattern captures a non-empty run of
   characters of its class. *)
Lemma greedy_plus_run k : forall s acc gs,
  Re.greedy_plus k (Re.match_here []) s acc = Some gs ->
  exists g run,
    gs = [g] /\ run <> [] /\
    list_ascii_of_string g = list_ascii_of_string acc ++ run /\
    Forall (fun c => Re.in_cls k c = true) run.
Proof.
  induction s as [|c s IH]; intros acc gs; cbn [Re.greedy_plus]; [discriminate|].
  destruct (Re.in_cls k c) eqn:Hc; [|discriminate].
  destruct (Re.greedy_plus k (Re.match_here []) s (Re.snoc acc c)) as [gs'|] eqn:E.
  - intros [= <-]. destruct (IH _ _ E) as (g & run & -> & _ & Hg & Hrun).
    exists g, (c :: run). split; [done|]. split; [done|].
    split; [|by constructor].
    rewrite Hg, snoc_chars, <- app_assoc. reflexivity.
  - intros [= <-]. exists (Re.snoc acc c), [c]. split; [done|]. split; [done|].
    split; [apply snoc_chars|by repeat constructor].
Qed.

Lemma match_here_literals cs rest : forall s gs,
  Re.match_here (map Re.Lit cs ++ rest) s = Some gs ->
  exists s', Re.match_here rest s' = Some gs.
Proof.
  induction cs as [|c cs IH]; intros s gs; simpl; [eauto|].
  destruct s as [|c' s]; [discriminate|].
  destruct (Ascii.eqb c c'); [apply IH|discriminate].
Qed.

Lemma search_match_here p : forall s gs,
  Re.search p s = Some gs -> exists s', Re.match_here p s' = Some gs.
Proof.
  induction s as [|c s IH]; intros gs; simpl.
  - destruct (Re.match_here p EmptyString) eqn:E; [|discriminate].
    intros [= <-]. eauto.
  - destruct (Re.match_here p (String c s)) eqn:E; [intros [= <-]; eauto|].
    apply IH.
Qed.

(* What page=(\d+) captures is a non-empty string of decimal digits. *)
Lemma page_re_digits url digits :
  Re.search Re.page_re url = Some [digits] ->
  all_digits digits /\ digits <> EmptyString.
Proof.
  intros H. apply search_match_here in H as (s & H).
  unfold Re.page_re, Re.lits in H. apply match_here_literals in H as (s' & H).
  simpl in H. apply greedy_plus_run in H as (g & run & [= <-] & Hne & Hg & Hrun).
  simpl in Hg. split.
  - unfold all_digits. by rewrite Hg.
  - intros ->. simpl in Hg. congruence.
Qed.

Lemma link_entry_nonneg link rel n : link_entry link = Some (rel, n) -> 0 <= n.
Proof.
  unfold link_entry.
  destruct (Re.search Re.link_re link) as [[|url [|rel' [|x gs]]]|]; try discriminate.
  destruct (Re.search Re.page_re url) as [[|digits [|x gs]]|] eqn:E; try discriminate.
  intros [= _ <-]. apply int_of_digits_nonneg. by apply page_re_digits in E as [? _].
Qed.

Lemma last_page_entry rel links n :
  last_page rel links = Some n ->
  exists link, link ∈ links /\ link_entry link = Some (rel, n).
Proof.
  unfold last_page. intros H.
  destruct (List.find _ _) as [[rel' n']|] eqn:E; [|discriminate].
  injection H as ->. apply find_some in E as [Hin Heq].
  simpl in Heq. apply String.eqb_eq in Heq as ->.
  apply in_rev, list_elem_of_In, list_elem_of_omap in Hin as (link & Hin & Hentry).
  eauto.
Qed.

(** X11: a page number that parse_link_header stores is never negative,
    and it is not made up: it is the value of the non-empty run of decimal
    digits that follows page= in the url of one of the comma-separated
    segments of the header, the segment that names this relation. *)
Theorem parse_link_header_page_numbers link_header rel n :
  parse_link_header link_header !! rel = Some (Some n) ->
  0 <= n /\
  exists link, link ∈ PyStr.split ","%char link_header /\
    link_entry link = Some (rel, n).
Proof.
  rewrite parse_link_header_fold, fold_parse_link_lookup.
  destruct (last_page rel _) as [m|] eqn:E.
  - intros [= ->]. apply last_page_entry in E as (link & Hin & Hentry).
    split; [by eapply link_entry_nonneg|eauto].
  - unfold empty_record. intros H.
    destruct (decide (rel = "prev")) as [->|Hp].
    { by rewrite lookup_insert_eq in H. }
    rewrite lookup_insert_ne in H by done.
    destruct (decide (rel = "next")) as [->|Hn].
    { by rewrite lookup_insert_eq in H. }
    by rewrite lookup_insert_ne in H.
Qed.

Lemma parse_link_header_page_numbers_witness :
  0 <= 2 /\
  exists link, link ∈ PyStr.split ","%char example_header /\
    link_entry link = Some ("next", 2).
Proof.
  apply (parse_link_header_page_numbers example_header "next" 2).
  vm_compute. reflexivity.
Defined.

(* --------------------------------------------------------------------- *)
(* The section resolver: what of the path matters, what the ids are       *)
(* --------------------------------------------------------------------- *)

Lemma lower_truthy s : PyStr.truthy (PyStr.lower s) = PyStr.truthy s.
Proof. by destruct s. Qed.

Lemma scan_sections_ext hierarchy current_name
  (d1 d2 : list json -> result (list json)) sections_list :
  (forall children, d1 children = d2 children) ->
  forall acc,
    scan_sections hierarchy current_name (Some d1) sections_list acc
    = scan_sections hierarchy current_name (Some d2) sections_list acc.
Proof.
  intros Hd. induction sections_list as [|section rest IH]; intros acc;
    cbn [scan_sections]; [reflexivity|].
  destruct (field_norm section "name") as [section_name|e]; [|reflexivity].
  cbn [rbind]. destruct (String.eqb section_name current_name); [|apply IH].
  destruct (Py.get section "id" JNull) as [section_id|e]; [|reflexivity].
  cbn [rbind]. destruct (int_key section_id) as [z|]; [|apply IH].
  rewrite Hd. destruct (d2 _) as [child_matches|e]; [|reflexivity].
  cbn [rbind]. apply IH.
Qed.

Lemma find_sections_by_path_lower hierarchy : forall p1 p2 sections_list,
  map PyStr.lower p1 = map PyStr.lower p2 ->
  find_sections_by_path hierarchy sections_list p1
  = find_sections_by_path hierarchy sections_list p2.
Proof.
  induction p1 as [|s1 r1 IH]; intros [|s2 r2] sections_list Heq;
    try discriminate; [reflexivity|].
  injection Heq as Hs Hr. cbn [find_sections_by_path]. rewrite Hs.
  destruct r1 as [|a1 r1], r2 as [|a2 r2]; try discriminate; [reflexivity|].
  apply scan_sections_ext. intros children. by apply IH.
Qed.

(** X12: of a section path only the segments count, each without the
    white space around it and regardless of case. Two paths whose
    segments, stripped and lowered, are the same make
    resolve_section_hierarchy_to_ids send the same request and give the
    same result, whatever the remote answers. *)
Theorem section_path_normalised
  (remote : list request -> request -> response) (domain api_key : option string)
  (project_identifier : key) (path1 path2 : string) (log : list request) :
  map PyStr.lower (path_parts_of path1) = map PyStr.lower (path_parts_of path2) ->
  resolve_section_hierarchy_to_ids remote domain api_key project_identifier path1 log
  = resolve_section_hierarchy_to_ids remote domain api_key project_identifier path2 log.
Proof.
  intros Heq. unfold resolve_section_hierarchy_to_ids.
  destruct (path_parts_of path1) as [|f1 r1] eqn:E1,
           (path_parts_of path2) as [|f2 r2] eqn:E2; try discriminate;
    [reflexivity|].
  assert (Ht : PyStr.truthy f1 = PyStr.truthy f2).
  { injection Heq as Hf _. by rewrite <- (lower_truthy f1), Hf, lower_truthy. }
  rewrite Ht. destruct (PyStr.truthy f2); [|reflexivity].
  cbn [negb]. unfold bind.
  destruct (send remote _ log) as [[resp|e] log1]; [|reflexivity].
  destruct (lift (raise_for_status (fst resp) (snd resp)) log1)
    as [[[]|e] log2]; [|reflexivity].
  destruct (lift (response_json (snd resp)) log2) as [[sections|e] log3];
    [|reflexivity].
  destruct sections as [| | | |sections|]; try reflexivity.
  destruct (lift (build_hierarchy sections ∅ []) log3) as [[hr|e] log4];
    [|reflexivity].
  unfold lift. by rewrite (find_sections_by_path_lower _ _ _ _ Heq).
Qed.

Lemma section_path_normalised_witness :
  resolve_section_hierarchy_to_ids demo_sections_remote demo_domain demo_api_key
    (KStr "ENG") "A > B > C" []
  = resolve_section_hierarchy_to_ids demo_sections_remote demo_domain demo_api_key
      (KStr "ENG") " a>b  >  c " [].
Proof.
  apply section_path_normalised. reflexivity.
Defined.

Lemma int_key_is_int v z : int_key v = Some z -> Py.is_int v = true.
Proof. by destruct v. Qed.

Lemma int_ids_ints sections_list : forall ids,
  int_ids sections_list = Ok ids -> Forall (fun v => Py.is_int v = true) ids.
Proof.
  induction sections_list as [|s rest IH]; intros ids; cbn [int_ids].
  - intros [= <-]. constructor.
  - destruct (Py.get s "id" JNull) as [id|e]; [|discriminate].
    cbn [rbind]. destruct (int_ids rest) as [ids'|e]; [|discriminate].
    cbn [rbind]. intros [= <-]. specialize (IH _ eq_refl).
    destruct (Py.is_int id) eqn:E; [by constructor|done].
Qed.

Lemma scan_sections_ints hierarchy current_name descend sections_list :
  match descend with
  | Some recurse =>
      forall children ids, recurse children = Ok ids ->
        Forall (fun v => Py.is_int v = true) ids
  | None => True
  end ->
  forall acc ids,
    Forall (fun v => Py.is_int v = true) acc ->
    scan_sections hierarchy current_name descend sections_list acc = Ok ids ->
    Forall (fun v => Py.is_int v = true) ids.
Proof.
  intros Hd. induction sections_list as [|section rest IH]; intros acc ids Hacc;
    cbn [scan_sections].
  - by intros [= <-].
  - destruct (field_norm section "name") as [section_name|e]; [|discriminate].
    cbn [rbind]. destruct (String.eqb section_name current_name); [|by apply IH].
    destruct (Py.get section "id" JNull) as [section_id|e]; [|discriminate].
    cbn [rbind]. destruct (int_key section_id) as [z|] eqn:Ez; [|by apply IH].
    destruct descend as [recurse|].
    + destruct (recurse _) as [child_matches|e] eqn:Er; [|discriminate].
      cbn [rbind]. apply IH. apply Forall_app. split; [done|]. by eapply Hd.
    + apply IH. apply Forall_app. split; [done|].
      repeat constructor. by eapply int_key_is_int.
Qed.

Lemma find_sections_by_path_ints hierarchy : forall remaining_path sections_list ids,
  find_sections_by_path hierarchy sections_list remaining_path = Ok ids ->
  Forall (fun v => Py.is_int v = true) ids.
Proof.
  induction remaining_path as [|current rest IH]; intros sections_list ids;
    cbn [find_sections_by_path].
  - apply int_ids_ints.
  - apply scan_sections_ints; [|constructor].
    destruct rest; [done|]. intros children ids'. apply IH.
Qed.

(** X13: every id that resolve_section_hierarchy_to_ids returns is an
    int (for Python, a bool is one too), whatever the listing holds: an
    id of another type, or a missing id, is never returned, so the
    section_subtree_ids that fr_add_testcases_to_testrun derives from a
    path are the str() of ints only. *)
Theorem section_ids_are_ints
  (remote : list request -> request -> response) (domain api_key : option string)
  (project_identifier : key) (section_path : string) (log log' : list request)
  (ids : list json) :
  resolve_section_hierarchy_to_ids remote domain api_key project_identifier
    section_path log = (Ok ids, log') ->
  Forall (fun v => Py.is_int v = true) ids.
Proof.
  unfold resolve_section_hierarchy_to_ids.
  destruct (path_parts_of section_path) as [|first rest].
  { intros [= <- _]. constructor. }
  destruct (PyStr.truthy first); cbn [negb]; [|intros [= <- _]; constructor].
  unfold bind.
  destruct (send remote _ log) as [[resp|e] log1]; [|discriminate].
  destruct (lift (raise_for_status (fst resp) (snd resp)) log1)
    as [[[]|e] log2]; [|discriminate].
  destruct (lift (response_json (snd resp)) log2) as [[sections|e] log3];
    [|discriminate].
  destruct sections as [| | | |sections|]; try discriminate.
  destruct (lift (build_hierarchy sections ∅ []) log3) as [[hr|e] log4];
    [|discriminate].
  unfold lift. intros [= H _].
  by apply (find_sections_by_path_ints (fst hr) (first :: rest) (snd hr)).
Qed.

Lemma section_ids_are_ints_witness :
  Forall (fun v => Py.is_int v = true) [JInt 2; JInt 3].
Proof.
  apply (section_ids_are_ints demo_sections_remote demo_domain demo_api_key
           (KStr "ENG") "A > B" []
           [sections_request demo_domain demo_api_key (KStr "ENG")]).
  vm_compute. reflexivity.
Defined.

(* --------------------------------------------------------------------- *)
(* fr_get_issue_type_by_name: which item is returned                      *)
(* --------------------------------------------------------------------- *)

Lemma find_issue_type_first target pre item post :
  no_type_named target pre ->
  field_norm item "name" = Ok target ->
  find_issue_type target (pre ++ item :: post) = Ok (Some item).
Proof.
  intros Hpre Hitem.
  induction Hpre as [|t pre (name & Hname & Hne) _ IH]; simpl.
  - rewrite Hitem. simpl. by rewrite String.eqb_refl.
  - rewrite Hname. simpl.
    destruct (String.eqb name target) eqn:E; [|exact IH].
    apply String.eqb_eq in E. contradiction.
Qed.

(** X14: fr_get_issue_type_by_name returns the first issue type of the
    listing whose name, stripped and lowered, is the stripped and lowered
    query, and returns it as the API sent it, with all its fields; issue
    types of the same name further down the listing are not looked at
    (they need not even be objects), and the one request sent is the GET
    of the listing. *)
Theorem issue_type_by_name_first_match
  (remote : list request -> request -> response) (domain api_key : option string)
  (project_identifier : key) (issue_type_name : string) (log : list request)
  (pre post : list json) (item : json) :
  not_configured domain api_key = false ->
  remote log (issue_types_request domain api_key project_identifier)
  = Reply None (inl (JList (pre ++ item :: post))) ->
  no_type_named (PyStr.lower (PyStr.strip issue_type_name)) pre ->
  name_matches (PyStr.strip issue_type_name) item = true ->
  fr_get_issue_type_by_name remote domain api_key project_identifier
    issue_type_name log
  = (Ok item, log ++ [issue_types_request domain api_key project_identifier]).
Proof.
  intros Hconf Hreply Hpre Hitem.
  unfold fr_get_issue_type_by_name. rewrite Hconf.
  unfold try_except, bind, handlers, lift, ret. rewrite fetch_run.
  fold (issue_types_request domain api_key project_identifier).
  rewrite Hreply. cbn [raise_for_status response_json rbind fst snd].
  rewrite (find_issue_type_first _ pre item post Hpre); [reflexivity|].
  unfold name_matches in Hitem.
  destruct (field_norm item "name") as [name|e]; [|discriminate].
  by apply String.eqb_eq in Hitem as ->.
Qed.

Lemma issue_type_by_name_first_match_witness :
  fst (fr_get_issue_type_by_name demo_duplicate_types_remote demo_domain demo_api_key
         (KStr "ENG") "  TASK " [])
  = Ok (JObj [("id", JInt 3); ("name", JStr "Task")]).
Proof.
  rewrite (issue_type_by_name_first_match demo_duplicate_types_remote demo_domain
             demo_api_key (KStr "ENG") "  TASK " []
             [JObj [("id", JInt 1); ("name", JStr "Bug")]]
             [JObj [("id", JInt 8); ("name", JStr "task ")]; JStr "oops"]
             (JObj [("id", JInt 3); ("name", JStr "Task")])).
  - reflexivity.
  - reflexivity.
  - reflexivity.
  - repeat constructor. exists "bug". split; [reflexivity|discriminate].
  - reflexivity.
Defined.

(* --------------------------------------------------------------------- *)
(* fr_add_testcases_to_testrun: the test-case keys                        *)
(* --------------------------------------------------------------------- *)

Section TestRunKeys.

Variable remote : list request -> request -> response.
Variable domain api_key : option string.
Variable project_identifier : key.

Local Abbreviation key_request k :=
  (testcase_request domain api_key project_identifier k).
Local Abbreviation resolve_keys :=
  (resolve_test_case_keys remote domain api_key project_identifier).

Lemma testrun_key_step_ok k rest acc log data s :
  remote log (key_request k) = Reply None (inl data) ->
  id_string data = Some s ->
  resolve_keys (k :: rest) acc log
  = resolve_keys rest (acc ++ [s]) (log ++ [key_request k]).
Proof.
  intros Hreply Hid. cbn [resolve_test_case_keys]. rewrite bind_run.
  unfold try_except at 1. rewrite bind_run, fetch_run.
  fold (key_request k). rewrite Hreply.
  cbn [raise_for_status response_json rbind fst snd].
  destruct data as [| | | | |items]; try discriminate.
  simpl in Hid. destruct (Py.lookup_item "id" items) as [v|]; [|discriminate].
  injection Hid as <-. reflexivity.
Qed.

Lemma testrun_key_step_error k rest acc log ans :
  testrun_key_error k (remote log (key_request k)) = Some ans ->
  resolve_keys (k :: rest) acc log
  = (match ans with Ok out => Ok (inl out) | Raise e => Raise e end,
     log ++ [key_request k]).
Proof.
  intros Herr. cbn [resolve_test_case_keys]. rewrite bind_run.
  unfold try_except at 1. rewrite bind_run, fetch_run.
  fold (key_request k).
  destruct (remote log (key_request k)) as [cls msg|status parsed].
  { injection Herr as <-. reflexivity. }
  destruct status as [smsg|].
  { injection Herr as <-. cbn [raise_for_status rbind answer_of].
    unfold handlers, lift, bind, ret. cbn [handled].
    by destruct (status_error_dict _ smsg parsed). }
  destruct parsed as [data|jmsg].
  2:{ injection Herr as <-. reflexivity. }
  cbn [raise_for_status response_json rbind fst snd].
  unfold testrun_key_error in Herr.
  destruct data as [| | | | |items]; simpl in Herr;
    try (injection Herr as <-; reflexivity).
  destruct (Py.lookup_item "id" items) as [v|]; [discriminate|].
  injection Herr as <-. reflexivity.
Qed.

Lemma testrun_keys_prefix pre : forall log datas log1 ids acc rest,
  fetched_all remote log (map (fun k => key_request k) pre) datas log1 ->
  Forall2 (fun data s => id_string data = Some s) datas ids ->
  resolve_keys (pre ++ rest) acc log = resolve_keys rest (acc ++ ids) log1.
Proof.
  induction pre as [|k pre IH]; intros log datas log1 ids acc rest Hf Hids.
  - inversion Hf; subst. inversion Hids; subst. by rewrite app_nil_r.
  - inversion Hf as [|? ? data ? datas' ? Hreply Hrest]; subst.
    inversion Hids as [|? s ? ids' Hid Hids']; subst.
    cbn [app]. rewrite (testrun_key_step_ok _ _ _ _ _ _ Hreply Hid).
    rewrite (IH _ _ _ _ _ _ Hrest Hids'). by rewrite <- app_assoc.
Qed.

(** X15: fr_add_testcases_to_testrun looks the test-case keys up one
    after the other, in the given order, and passes the ids on as
    str(id), position by position, without converting them to int (unlike
    fr_link_testcase_issues): when every key is answered 2xx with an
    object that has an id, any PUT the tool sends has as test_case_ids the
    list of these strings. *)
Theorem testrun_test_case_ids (test_run_id : key) (test_case_keys : list key)
  (section_hierarchy_paths : option (list string))
  (section_subtree_ids section_ids : option (list key))
  (filter_rule : option (list json)) (log log1 : list request)
  (datas : list json) (ids : list string) (r : request) :
  fetched_all remote log (map (fun k => key_request k) test_case_keys) datas log1 ->
  Forall2 (fun data s => id_string data = Some s) datas ids ->
  r ∈ drop (length log)
        (snd (fr_add_testcases_to_testrun remote domain api_key project_identifier
                test_run_id test_case_keys section_hierarchy_paths
                section_subtree_ids section_ids filter_rule log)) ->
  mutating r = true ->
  exists payload,
    body r = Some (JObj payload) /\
    Py.lookup_item "test_case_ids" payload = Some (JList (map JStr ids)).
Proof.
  intros Hf Hids. unfold fr_add_testcases_to_testrun.
  destruct (not_configured domain api_key).
  { intros Hin Hmut. unfold ret in Hin. cbn [snd] in Hin.
    rewrite drop_all in Hin. by apply elem_of_nil in Hin. }
  rewrite bind_run.
  pose proof (resolve_test_case_keys_only_gets remote domain api_key
                project_identifier test_case_keys [] log) as Hg1.
  pose proof (testrun_keys_prefix test_case_keys log datas log1 ids [] [] Hf Hids)
    as Hkeys.
  rewrite app_nil_r in Hkeys. cbn [app resolve_test_case_keys] in Hkeys.
  rewrite Hkeys in Hg1 |- *. unfold ret at 1. unfold ret in Hg1. cbn [snd] in Hg1.
  rewrite bind_run.
  destruct (resolve_paths_spec remote domain api_key project_identifier
              (or_empty section_hierarchy_paths) [] log1) as [Hg2 _].
  destruct (resolve_paths remote domain api_key project_identifier
              (or_empty section_hierarchy_paths) [] log1)
    as [[[out|sids]|e] log2]; cbn [snd] in Hg2.
  1,3: intros Hin Hmut; cbn [snd ret] in Hin;
       by rewrite (only_gets_no_mutation _ _ _ (only_gets_trans _ _ _ Hg1 Hg2) Hin)
         in Hmut.
  rewrite final_step_log. intros Hin Hmut.
  destruct (only_gets_trans _ _ _ Hg1 Hg2) as (gets & -> & Hgets).
  rewrite <- app_assoc, drop_app_length in Hin.
  apply elem_of_app in Hin as [Hin|Hin].
  { rewrite Forall_forall in Hgets. by rewrite (Hgets r Hin) in Hmut. }
  apply list_elem_of_singleton in Hin as ->.
  eexists. split; reflexivity.
Qed.

Hypothesis configured : not_configured domain api_key = false.

(** X16: in fr_add_testcases_to_testrun the first test-case key that
    cannot be resolved ends the call. The keys before it were looked up
    in order; the GET of this key is the last request: no later key is
    looked up, no section path is resolved and no PUT is sent; and the
    answer is the error dict whose message names this key (or the
    exception that reading the error body raises). *)
Theorem testrun_first_bad_key (test_run_id : key) (pre post : list key) (k : key)
  (section_hierarchy_paths : option (list string))
  (section_subtree_ids section_ids : option (list key))
  (filter_rule : option (list json)) (log log1 : list request)
  (datas : list json) (ids : list string) (ans : result json) :
  fetched_all remote log (map (fun k => key_request k) pre) datas log1 ->
  Forall2 (fun data s => id_string data = Some s) datas ids ->
  testrun_key_error k (remote log1 (key_request k)) = Some ans ->
  fr_add_testcases_to_testrun remote domain api_key project_identifier
    test_run_id (pre ++ k :: post) section_hierarchy_paths
    section_subtree_ids section_ids filter_rule log
  = (ans, log1 ++ [key_request k]).
Proof.
  intros Hf Hids Herr. unfold fr_add_testcases_to_testrun.
  rewrite configured, bind_run.
  rewrite (testrun_keys_prefix pre log datas log1 ids [] (k :: post) Hf Hids).
  rewrite (testrun_key_step_error _ _ _ _ _ Herr).
  by destruct ans.
Qed.

End TestRunKeys.

Lemma testrun_test_case_ids_witness :
  exists payload,
    Py.lookup_item "test_case_ids" payload = Some (JList [JStr "abc"; JStr "abc"]).
Proof.
  set (tc_request k := testcase_request demo_domain demo_api_key (KStr "ENG") (KStr k)).
  set (payload := JObj [("filter_rule", JList []);
                        ("test_case_ids", JList [JStr "abc"; JStr "abc"]);
                        ("section_subtree_ids", JList []);
                        ("section_ids", JList [])]).
  destruct (testrun_test_case_ids demo_missing_testcase_remote demo_domain
              demo_api_key (KStr "ENG") (KInt 77) [KStr "TC-1"; KStr "TC-3"]
              None None None None [] [tc_request "TC-1"; tc_request "TC-3"]
              [JObj [("id", JStr "abc")]; JObj [("id", JStr "abc")]]
              ["abc"; "abc"]
              (testrun_request demo_domain demo_api_key (KStr "ENG") (KInt 77) payload))
    as (p & _ & Hp).
  - apply fetched_cons; [reflexivity|].
    apply fetched_cons; [reflexivity|]. apply fetched_nil.
  - repeat constructor.
  - vm_compute. do 2 apply list_elem_of_further. apply list_elem_of_here.
  - reflexivity.
  - exists p. exact Hp.
Defined.

Lemma testrun_first_bad_key_witness :
  fr_add_testcases_to_testrun demo_missing_testcase_remote demo_domain demo_api_key
    (KStr "ENG") (KInt 77) [KStr "TC-1"; KStr "TC-2"; KStr "TC-3"]
    (Some ["A > B"]) None None None []
  = (Ok (JObj [("error",
                JStr "Failed to resolve test case key 'TC-2': 404 Not Found");
               ("details", JObj [("message", JStr "no such test case")])]),
     [testcase_request demo_domain demo_api_key (KStr "ENG") (KStr "TC-1");
      testcase_request demo_domain demo_api_key (KStr "ENG") (KStr "TC-2")]).
Proof.
  apply (testrun_first_bad_key demo_missing_testcase_remote demo_domain demo_api_key
           (KStr "ENG") eq_refl (KInt 77) [KStr "TC-1"] [KStr "TC-3"] (KStr "TC-2")
           (Some ["A > B"]) None None None []
           [testcase_request demo_domain demo_api_key (KStr "ENG") (KStr "TC-1")]
           [JObj [("id", JStr "abc")]] ["abc"]).
  - apply fetched_cons; [reflexivity|]. apply fetched_nil.
  - repeat constructor.
  - reflexivity.
Defined.

(* --------------------------------------------------------------------- *)
(* An answer without "error" means the write was sent                     *)
(* --------------------------------------------------------------------- *)

Lemma handled_reports_error ws wo e : reports_error (handled ws wo e).
Proof. destruct e as [msg [body|body_msg]|cls msg]; reflexivity. Qed.

Lemma only_gets_not_write log log1 r :
  only_gets log log1 -> mutating r = true -> ~ only_gets log (log1 ++ [r]).
Proof.
  intros (gets & -> & _) Hr (gets' & Heq & Hg').
  rewrite <- app_assoc in Heq. apply app_inv_head in Heq as <-.
  apply Forall_app in Hg' as [_ Hg']. apply Forall_cons in Hg' as [Hg' _].
  congruence.
Qed.

Section CarefulSteps.

Variable remote : list request -> request -> response.
Variable domain api_key : option string.
Variable project_identifier : key.

Ltac careful_done Hone :=
  split; [first [exact Hone | apply only_gets_refl] | first [exact I | reflexivity]].

Lemma resolve_issue_type_careful issue_type_name p log :
  careful_step log
    (resolve_issue_type remote domain api_key project_identifier issue_type_name p log).
Proof.
  unfold resolve_issue_type. rewrite task_name_truthy.
  unfold try_except, bind, handlers, lift, ret. rewrite fetch_run.
  set (req := get_req api_key _ []).
  assert (Hone : only_gets log (log ++ [req])) by by apply only_gets_one.
  destruct (remote log req) as [cls msg|status parsed]; [careful_done Hone|].
  destruct status as [smsg|]; simpl.
  { pose proof (handled_reports_error "Failed to resolve issue type" EmptyString
                  (HTTPStatusError smsg parsed)) as He. cbn [handled] in He.
    destruct (status_error_dict _ smsg parsed); by split. }
  destruct parsed as [it_data|jmsg]; simpl; [|careful_done Hone].
  destruct (match it_data with JObj _ => _ | _ => _ end) as [types_list|e].
  2:{ pose proof (handled_reports_error "Failed to resolve issue type"
                    "An unexpected error occurred while resolving issue type" e) as He.
      destruct (handled _ _ e); by split. }
  destruct (match_issue_type _ types_list) as [matched_id|e].
  2:{ pose proof (handled_reports_error "Failed to resolve issue type"
                    "An unexpected error occurred while resolving issue type" e) as He.
      destruct (handled _ _ e); by split. }
  destruct (Py.is_none matched_id); careful_done Hone.
Qed.

Lemma resolve_user_careful user p log :
  careful_step log
    (resolve_user remote domain api_key project_identifier user p log).
Proof.
  unfold resolve_user. destruct user as [u|]; [|careful_done I].
  destruct (negb (Py.has_key "assignee_id" p) && PyStr.truthy u); [|careful_done I].
  unfold try_except, bind, handlers, lift, ret. rewrite fetch_run.
  set (req := get_req api_key _ _).
  assert (Hone : only_gets log (log ++ [req])) by by apply only_gets_one.
  destruct (remote log req) as [cls msg|status parsed]; [careful_done Hone|].
  destruct status as [smsg|]; simpl.
  { pose proof (handled_reports_error "Failed to resolve user" EmptyString
                  (HTTPStatusError smsg parsed)) as He. cbn [handled] in He.
    destruct (status_error_dict _ smsg parsed); by split. }
  destruct parsed as [users_data|jmsg]; cbn [response_json rbind fst snd];
    [|careful_done Hone].
  destruct (choose_user users_data u) as [chosen_id|e].
  2:{ pose proof (handled_reports_error "Failed to resolve user"
                    "An unexpected error occurred while resolving user" e) as He.
      destruct (handled _ _ e); by split. }
  destruct (Py.is_none chosen_id); careful_done Hone.
Qed.

Lemma resolve_test_case_keys_careful test_case_keys : forall acc log,
  careful_step log
    (resolve_test_case_keys remote domain api_key project_identifier
       test_case_keys acc log).
Proof.
  induction test_case_keys as [|key0 rest IH]; intros acc log.
  - careful_done I.
  - cbn [resolve_test_case_keys]. rewrite bind_run.
    set (req := get_req api_key (testcase_url domain project_identifier key0) []).
    unfold try_except at 1. rewrite bind_run, fetch_run. fold req.
    assert (Hone : only_gets log (log ++ [req])) by by apply only_gets_one.
    destruct (remote log req) as [cls msg|status parsed].
    { unfold handlers, lift, bind, ret. simpl. careful_done Hone. }
    destruct status as [smsg|]; cbn [raise_for_status rbind].
    { unfold handlers, lift, bind, ret. cbn [handled].
      pose proof (handled_reports_error
                    ("Failed to resolve test case key '" +:+ fmt key0 +:+ "'")
                    EmptyString (HTTPStatusError smsg parsed)) as He.
      cbn [handled] in He.
      destruct (status_error_dict _ smsg parsed); by split. }
    destruct parsed as [tc_data|jmsg]; cbn [response_json rbind fst snd].
    2:{ unfold handlers, lift, bind, ret. simpl. careful_done Hone. }
    destruct tc_data as [| | | | |items]; try (careful_done Hone).
    destruct (Py.lookup_item "id" items) as [v|]; [|careful_done Hone].
    unfold ret. destruct (IH (acc ++ [Py.str v]) (log ++ [req])) as [Hg He].
    split; [by eapply only_gets_trans|exact He].
Qed.

Lemma resolve_paths_careful paths : forall acc log,
  careful_step log
    (resolve_paths remote domain api_key project_identifier paths acc log).
Proof.
  induction paths as [|path rest IH]; intros acc log.
  - careful_done I.
  - cbn [resolve_paths]. rewrite bind_run.
    unfold try_except. rewrite !bind_run.
    pose proof (resolve_sections_only_gets remote domain api_key project_identifier
                  path log) as Hg.
    destruct (resolve_section_hierarchy_to_ids remote domain api_key
                project_identifier path log) as [[section_ids|e] log1].
    + cbn [snd] in Hg. unfold ret at 1 2.
      destruct (IH (acc ++ map Py.str section_ids) log1) as [Hg' He].
      split; [by eapply only_gets_trans|exact He].
    + cbn [snd] in Hg. unfold handlers, lift, bind, ret.
      pose proof (handled_reports_error
                    ("Failed to resolve section hierarchy path '" +:+ path +:+ "'")
                    ("An unexpected error occurred while resolving section hierarchy path '"
                     +:+ path +:+ "'") e) as He.
      destruct (handled _ _ e); by split.
Qed.

End CarefulSteps.

(** X17: an answer of a writing tool that does not report a failure
    means that the write was sent. For fr_create_project, fr_create_task,
    fr_link_testcase_issues and fr_add_testcases_to_testrun: when a call
    sends no POST and no PUT (settings missing, an issue type, user, key
    or section path that cannot be resolved, a failing lookup), its answer
    is a dict with the key "error", or an exception; it is never a
    success-looking value. *)
Theorem no_write_means_error
  (remote : list request -> request -> response) (domain api_key : option string)
  (project_identifier test_run_id : key) (name : string)
  (description due_date issue_type_name user : option string)
  (assignee_id : option Z) (status : option status_arg)
  (additional_fields : option (list (string * json)))
  (testcase_keys issue_keys : list key) (paths : option (list string))
  (subtree_ids section_ids : option (list key)) (filter_rule : option (list json))
  (log : list request) :
  let fails_without_write (tool : io json) :=
    only_gets log (snd (tool log)) -> reports_error (fst (tool log)) in
  fails_without_write (fr_create_project remote domain api_key name description)
  /\ fails_without_write
       (fr_create_task remote domain api_key project_identifier name
          description assignee_id status due_date issue_type_name user
          additional_fields)
  /\ fails_without_write
       (fr_link_testcase_issues remote domain api_key project_identifier
          testcase_keys issue_keys)
  /\ fails_without_write
       (fr_add_testcases_to_testrun remote domain api_key project_identifier
          test_run_id testcase_keys paths subtree_ids section_ids filter_rule).
Proof.
  intros fails_without_write. unfold fails_without_write. clear fails_without_write.
  split; [|split; [|split]].
  - unfold fr_create_project.
    destruct (not_configured domain api_key); [reflexivity|].
    rewrite one_request_run. cbn [fst snd]. intros H.
    exfalso. eapply only_gets_not_write; [| |exact H];
      [apply only_gets_refl|reflexivity].
  - unfold fr_create_task.
    destruct (not_configured domain api_key); [reflexivity|].
    rewrite bind_run.
    destruct (resolve_issue_type_careful remote domain api_key project_identifier
                issue_type_name
                (initial_payload name description assignee_id status due_date
                   additional_fields) log) as [Hg1 He1].
    destruct (resolve_issue_type _ _ _ _ _ _ log) as [[[out|p1]|e] log1];
      cbn [fst snd] in *; [by intros _| |done].
    rewrite bind_run.
    destruct (resolve_user_careful remote domain api_key project_identifier
                user p1 log1) as [Hg2 He2].
    destruct (resolve_user _ _ _ _ _ _ log1) as [[[out|p2]|e] log2];
      cbn [fst snd] in *; [by intros _| |done].
    rewrite one_request_run. cbn [fst snd]. intros H.
    exfalso. eapply only_gets_not_write; [| |exact H];
      [exact (only_gets_trans _ _ _ Hg1 Hg2)|reflexivity].
  - destruct (not_configured domain api_key) eqn:Hconf.
    { unfold fr_link_testcase_issues. by rewrite Hconf. }
    rewrite link_run by done.
    pose proof (testcase_loop_only_gets remote domain api_key project_identifier
                  testcase_keys log) as Hg1.
    destruct (testcase_ids_loop _ _ _ _ _ _ log) as [[tids|e] log1];
      cbn [snd] in Hg1; [|intros _; apply handled_reports_error].
    pose proof (issue_ids_only_gets remote domain api_key project_identifier
                  issue_keys log1) as Hg2.
    destruct (issue_ids_from_keys _ _ _ _ _ log1) as [[iids|e] log2];
      cbn [snd] in Hg2; [|intros _; apply handled_reports_error].
    cbn [fst snd]. intros H.
    exfalso. eapply only_gets_not_write; [| |exact H];
      [exact (only_gets_trans _ _ _ Hg1 Hg2)|reflexivity].
  - unfold fr_add_testcases_to_testrun.
    destruct (not_configured domain api_key); [reflexivity|].
    rewrite bind_run.
    destruct (resolve_test_case_keys_careful remote domain api_key
                project_identifier testcase_keys [] log) as [Hg1 He1].
    destruct (resolve_test_case_keys _ _ _ _ _ _ log) as [[[out|tc_ids]|e] log1];
      cbn [fst snd] in *; [by intros _| |done].
    rewrite bind_run.
    destruct (resolve_paths_careful remote domain api_key project_identifier
                (or_empty paths) [] log1) as [Hg2 He2].
    destruct (resolve_paths _ _ _ _ _ _ log1) as [[[out|ids]|e] log2];
      cbn [fst snd] in *; [by intros _| |done].
    rewrite one_request_run. cbn [fst snd]. intros H.
    exfalso. eapply only_gets_not_write; [| |exact H];
      [exact (only_gets_trans _ _ _ Hg1 Hg2)|reflexivity].
Qed.

Lemma no_write_means_error_witness :
  reports_error
    (fst (fr_create_task demo_types_remote demo_domain demo_api_key (KStr "ENG")
            "Fix login" None None None None (Some "bug") None None [])).
Proof.
  apply (no_write_means_error demo_types_remote demo_domain demo_api_key
           (KStr "ENG") (KInt 77) "Fix login" None None (Some "bug") None None None
           None [] [] None None None None []).
  apply (only_gets_one [] (project_issue_types_request demo_domain demo_api_key
                             (KStr "ENG"))).
  reflexivity.
Defined.
